(** * loldownloader: a shallow embedding of [loldownloader.c]

    The development follows the C source function by function.

    - C integers are [Z] with the wrap-around of their width written out
      ([u32] for [unsigned int], [i32] for [int], LP64 for [long]).
    - C strings and file contents are [list ascii]; a [char*] into a buffer
      is the list of the bytes from the pointer to the end of the array.
    - [float] and [double] values are dyadic numbers [m * 2^e] rounded to
      nearest-even at 24 and 53 bits; infinities and NaN are explicit.
    - The file system is a finite map from paths to contents; the libcurl
      handle, the global lists, the statistics and everything written to
      the terminal are fields of one [world] record that is threaded
      through the effectful functions.
    - What the environment decides (the bytes a server delivers, whether
      [malloc] succeeds, how many bytes [fwrite] manages to write, what the
      decompressor produces) is taken as a parameter. *)

From Stdlib Require Import ZArith Ascii String List Lia DecimalString DecimalFacts.
From stdpp Require Import gmap strings list.

Open Scope Z_scope.

(** ** Outcomes of a C computation *)

Inductive stop : Type :=
| ExitCalled        (* exit(0) *)
| AssertionFailed   (* assert(...) with a false argument: abort() *)
| UndefinedBehaviour (* the C standard gives the execution no meaning *)
| OutOfFuel.        (* artefact of the embedding, never reached: see [scan_lines_fuel] *)

Inductive result (A : Type) : Type :=
| Ret (a : A)
| Stop (k : stop).
Arguments Ret {A} a.
Arguments Stop {A} k.

Definition rbind {A B} (r : result A) (f : A -> result B) : result B :=
  match r with
  | Ret a => f a
  | Stop k => Stop k
  end.

Declare Scope result_scope.
Delimit Scope result_scope with result.
Notation "x <- c1 ;; c2" := (rbind c1 (fun x => c2))
  (at level 100, c1 at next level, right associativity) : result_scope.

(** ** Machine integers *)

Definition u32 (z : Z) : Z := z mod 2 ^ 32.
Definition i32 (z : Z) : Z := (z + 2 ^ 31) mod 2 ^ 32 - 2 ^ 31.

(** [long] is 64 bits wide (LP64); [strtol] saturates at its bounds. *)
Definition LONG_MAX : Z := 2 ^ 63 - 1.
Definition LONG_MIN : Z := - 2 ^ 63.

(** ** Binary floating point

    A finite value is [m * 2^e].  [prec] is 24 for [float] and 53 for
    [double].  The exponent range is not modelled: every value the program
    computes lies between 2^-64 and 2^64. *)

Inductive fval : Type :=
| FFin (m e : Z)
| FInf (neg : bool)
| FNaN.

(** 2^k for k >= 0, and 1 otherwise *)
Definition up (k : Z) : Z := 2 ^ Z.max 0 k.

(** quotient of n by d (n >= 0, d > 0) rounded to nearest, ties to even *)
Definition div_rne (n d : Z) : Z :=
  let q := n / d in
  let r := n mod d in
  if 2 * r <? d then q
  else if d <? 2 * r then q + 1
  else if Z.even q then q else q + 1.

(** the float of precision [prec] nearest to n / d, for n > 0 and d > 0 *)
Definition round_pos (prec n d : Z) : Z * Z :=
  let e0 := Z.log2 n - Z.log2 d in
  let e := if d * up e0 <=? n * up (- e0) then e0 else e0 - 1 in
  let s := e - (prec - 1) in
  (div_rne (n * up (- s)) (d * up s), s).

Definition fround (prec n d : Z) : fval :=
  if n =? 0 then FFin 0 0
  else let '(m, s) := round_pos prec (Z.abs n) d in FFin (Z.sgn n * m) s.

Definition f_of_Z (prec z : Z) : fval := fround prec z 1.

Definition fmul (prec : Z) (a b : fval) : fval :=
  match a, b with
  | FFin ma ea, FFin mb eb =>
      let e := ea + eb in fround prec (ma * mb * up e) (up (- e))
  | _, _ => FNaN
  end.

Definition fadd (prec : Z) (a b : fval) : fval :=
  match a, b with
  | FFin ma ea, FFin mb eb =>
      let e := Z.min ea eb in
      fround prec ((ma * 2 ^ (ea - e) + mb * 2 ^ (eb - e)) * up e) (up (- e))
  | _, _ => FNaN
  end.

Definition fsub (prec : Z) (a b : fval) : fval :=
  match b with
  | FFin mb eb => fadd prec a (FFin (- mb) eb)
  | _ => FNaN
  end.

(** IEEE 754 division: x / 0 is an infinity for x <> 0, and 0 / 0 is NaN. *)
Definition fdiv (prec : Z) (a b : fval) : fval :=
  match a, b with
  | FFin ma ea, FFin mb eb =>
      if mb =? 0 then
        if ma =? 0 then FNaN else FInf (ma <? 0)
      else
        let e := ea - eb in
        fround prec (ma * Z.sgn mb * up e) (Z.abs mb * up (- e))
  | _, _ => FNaN
  end.

(** the integral part of a finite value (truncation toward zero) *)
Definition ftrunc (m e : Z) : Z :=
  if 0 <=? e then m * 2 ^ e else Z.quot m (2 ^ (- e)).

(** Conversion of a floating value to an integer type (C11 6.3.1.4): the
    fractional part is discarded; when the integral part is not a value of
    the target type, and so for infinities and NaN, the behaviour is
    undefined. *)
Definition f_to_int (lo hi : Z) (v : fval) : result Z :=
  match v with
  | FFin m e =>
      let t := ftrunc m e in
      if (lo <=? t) && (t <=? hi) then Ret t else Stop UndefinedBehaviour
  | _ => Stop UndefinedBehaviour
  end.

Definition f_to_u32 : fval -> result Z := f_to_int 0 (2 ^ 32 - 1).
Definition f_to_i32 : fval -> result Z := f_to_int (- 2 ^ 31) (2 ^ 31 - 1).

Definition FLT : Z := 24.
Definition DBL : Z := 53.

(** ** Characters and formatted output *)

Definition NUL : ascii := "000"%char.
Definition LF : ascii := "010"%char.
Definition CR : ascii := "013"%char.

(** a string literal of the source as the bytes of the C string (without
    its terminator) *)
Definition lit (s : string) : list ascii := list_ascii_of_string s.

(** printf("%d") *)
Definition fmt_d (z : Z) : list ascii := lit (NilZero.string_of_int (Z.to_int z)).

(** printf("%02d"): at least two characters, padded with a zero *)
Definition fmt_02d (z : Z) : list ascii :=
  if (0 <=? z) && (z <? 10) then "0"%char :: fmt_d z else fmt_d z.

Definition hex_digit (d : Z) : ascii :=
  if d <? 10 then ascii_of_nat (Z.to_nat (48 + d)) else ascii_of_nat (Z.to_nat (87 + d)).

(** the [k] low hexadecimal digits of [z], most significant first *)
Fixpoint hex_digits (k : nat) (z : Z) : list ascii :=
  match k with
  | O => []
  | S k' => hex_digits k' (z / 16) ++ [hex_digit (z mod 16)]
  end.

(** printf("%08x") of an [unsigned int]: a value below 2^32 has at most
    eight digits, so the result always has exactly eight *)
Definition fmt_08x (z : Z) : list ascii := hex_digits 8 (u32 z).

(** ** ProgressEstimator *)

Record ProgressData : Type := mkProgressData {
  timeOld : Z;
  bytesOld : Z;
  avgSpeedInBytesPerSecond : Z;
  bytesAlreadyDownloaded : Z
}.

(** [(ProgressData){0}] *)
Definition zero_progress : ProgressData := mkProgressData 0 0 0 0.

Definition with_bytesAlreadyDownloaded (n : Z) (pd : ProgressData) : ProgressData :=
  mkProgressData (timeOld pd) (bytesOld pd) (avgSpeedInBytesPerSecond pd) n.

(** [#define SMOOTHING_FACTOR 0.1]: the [double] nearest to 1/10 *)
Definition SMOOTHING_FACTOR : fval := fround DBL 1 10.

(** [SMOOTHING_FACTOR * speed + (1 - SMOOTHING_FACTOR) * avg], evaluated in
    [double] and converted to [unsigned int] by the assignment (line 224) *)
Definition smoothed (speed avg : Z) : result Z :=
  f_to_u32
    (fadd DBL
       (fmul DBL SMOOTHING_FACTOR (f_of_Z DBL speed))
       (fmul DBL (fsub DBL (f_of_Z DBL 1) SMOOTHING_FACTOR) (f_of_Z DBL avg))).

(** lines 160-166 *)
Definition build_ETA_string (bytesTotal bytesNow speedInBytesPerSecond : Z)
  : result (list ascii) :=
  let remaining := u32 (bytesTotal - bytesNow) in
  (secondsLeft <-
     f_to_i32 (fdiv FLT (f_of_Z FLT remaining) (f_of_Z FLT speedInBytesPerSecond));;
   Ret (fmt_02d (Z.quot secondsLeft (60 * 60)) ++ lit ":" ++
        fmt_02d (Z.quot (Z.rem secondsLeft (60 * 60)) 60) ++ lit ":" ++
        fmt_02d (Z.rem (Z.rem secondsLeft (60 * 60)) 60)))%result.

(** What one refresh of the progress line shows.  The progress bar and the
    unit-scaled byte and speed strings are built from these numbers and
    only printed; they are kept as numbers here. *)
Record ProgressLine : Type := mkProgressLine {
  shown_fraction : fval;      (* p *)
  shown_percent : Z;          (* (int)(p * 100) *)
  shown_now : Z;
  shown_total : Z;
  shown_speed : Z;
  shown_ETA : list ascii
}.

(** lines 238-240 *)
Definition clamp_total (bytesTotal : Z) : Z :=
  if bytesTotal <? 1 then 1 else bytesTotal.

(** line 241 *)
Definition fraction (bytesNow bytesTotal : Z) : fval :=
  fdiv FLT (f_of_Z FLT bytesNow) (f_of_Z FLT bytesTotal).

(** lines 233-256: the part of [progress_callback] that prints *)
Definition show_progress (pd : ProgressData) (bytesNow bytesTotal speed : Z)
  : result ProgressLine :=
  let bytesTotal := clamp_total bytesTotal in
  let p := fraction bytesNow bytesTotal in
  (percent <- f_to_i32 (fmul FLT p (f_of_Z FLT 100));;
   eta <- build_ETA_string bytesTotal bytesNow (avgSpeedInBytesPerSecond pd);;
   Ret (mkProgressLine p percent bytesNow bytesTotal speed eta))%result.

(** lines 214-231: the speed is measured once a second; in between, only
    a finished transfer is shown.  [None] is the early [return 0]; otherwise
    the updated state and the speed to show. *)
Definition sample_speed (pd : ProgressData) (bytesNow bytesTotal timeNow : Z)
  : result (option (ProgressData * Z)) :=
  if u32 (timeOld pd + 1000) <=? timeNow then
    let speedInBytesPerSecond := u32 (bytesNow - bytesOld pd) in
    let avg :=
      if avgSpeedInBytesPerSecond pd =? 0 then speedInBytesPerSecond
      else avgSpeedInBytesPerSecond pd in
    (avg' <- smoothed speedInBytesPerSecond avg;;
     Ret (Some (mkProgressData timeNow bytesNow avg' (bytesAlreadyDownloaded pd),
                speedInBytesPerSecond)))%result
  else if bytesNow <? bytesTotal then Ret None
  else Ret (Some (pd, avgSpeedInBytesPerSecond pd)).

(** lines 208-257.  [timeNow] is what [get_time_ms()] returns.  The result
    is the updated [ProgressData] and the line printed, if any. *)
Definition progress_callback (pd : ProgressData) (dltotal dlnow : Z) (timeNow : Z)
  : result (ProgressData * option ProgressLine) :=
  (now <- f_to_u32 (f_of_Z FLT dlnow);;
   total <- f_to_u32 (f_of_Z FLT dltotal);;
   let bytesNow := u32 (now + bytesAlreadyDownloaded pd) in
   let bytesTotal := u32 (total + bytesAlreadyDownloaded pd) in
   sampled <- sample_speed pd bytesNow bytesTotal timeNow;;
   match sampled with
   | None => Ret (pd, None)
   | Some (pd', speedInBytesPerSecond) =>
       line <- show_progress pd' bytesNow bytesTotal speedInBytesPerSecond;;
       Ret (pd', Some line)
   end)%result.




(** ** C strings

    A [char*] is the list of the bytes from the pointer to the end of the
    array it points into.  Reading past the end of the array has no
    defined result ([None]). *)

Definition ascii_eqb (a b : ascii) : bool := Ascii.eqb a b.

(** the C string at [p]: the bytes before the first NUL *)
Fixpoint c_str (p : list ascii) : option (list ascii) :=
  match p with
  | [] => None
  | c :: p' => if ascii_eqb c NUL then Some [] else option_map (cons c) (c_str p')
  end.

(** does the text [s] (a literal, without NUL) start the C string at [p]? *)
Fixpoint starts_with (s p : list ascii) : bool :=
  match s, p with
  | [], _ => true
  | c :: s', d :: p' => ascii_eqb c d && starts_with s' p'
  | _ :: _, [] => false
  end.

(** strstr(p, s) for a non-empty literal [s]: [Some None] is NULL *)
Fixpoint strstr (p s : list ascii) : option (option (list ascii)) :=
  match p with
  | [] => None
  | c :: p' =>
      if ascii_eqb c NUL then Some None
      else if starts_with s p then Some (Some p)
      else strstr p' s
  end.

(** strchr(p, ch) for ch <> NUL *)
Fixpoint strchr (p : list ascii) (ch : ascii) : option (option (list ascii)) :=
  match p with
  | [] => None
  | c :: p' =>
      if ascii_eqb c ch then Some (Some p)
      else if ascii_eqb c NUL then Some None
      else strchr p' ch
  end.

(** strrchr(s, ch) on a C string given by its text: the text before the
    last occurrence of [ch], which is what is left once the source has
    overwritten that occurrence with NUL *)
Fixpoint cut_at_last (s : list ascii) (ch : ascii) : option (list ascii) :=
  match s with
  | [] => None
  | c :: s' =>
      match cut_at_last s' ch with
      | Some pre => Some (c :: pre)
      | None => if ascii_eqb c ch then Some [] else None
      end
  end.

(** [fgets(buf, size, stream)]: at most [size - 1] characters, stopping
    after a newline.  Returns the characters read and the rest of the
    stream. *)
Fixpoint fgets_chars (n : nat) (stream : list ascii) : list ascii * list ascii :=
  match n, stream with
  | O, _ => ([], stream)
  | _, [] => ([], [])
  | S n', c :: stream' =>
      if ascii_eqb c LF then ([c], stream')
      else let '(r, rest) := fgets_chars n' stream' in (c :: r, rest)
  end.

(** The buffer after the call keeps its old bytes behind the terminator.
    [None] is the NULL that [fgets] returns at end of file. *)
Definition fgets (buf : list ascii) (size : nat) (stream : list ascii)
  : option (list ascii * list ascii) :=
  match fgets_chars (size - 1) stream with
  | ([], _) => None
  | (r, rest) => Some (r ++ NUL :: skipn (S (length r)) buf, rest)
  end.

(** *** strtok

    [strtok] keeps a pointer to where the next search starts, and
    overwrites the delimiter that ends the token with NUL.  The array is
    tracked as the bytes before the saved pointer and the bytes from it. *)

Record strtok_result : Type := mkStrtok {
  tok : option (list ascii);   (* the token returned, [None] for NULL *)
  tok_before : list ascii;     (* the array up to the saved pointer, after the call *)
  tok_saved : list ascii       (* the array from the saved pointer *)
}.

(** the delimiters passed over, and the pointer behind them *)
Fixpoint skip_delims (d : ascii) (p : list ascii) : list ascii * list ascii :=
  match p with
  | c :: p' =>
      if ascii_eqb c d then let '(sk, q) := skip_delims d p' in (c :: sk, q) else ([], p)
  | [] => ([], [])
  end.

(** from the first character of a token: its text, whether a delimiter
    (rather than the terminator) ends it, and the bytes behind that
    character *)
Fixpoint end_token (d : ascii) (p : list ascii) : option (list ascii * bool * list ascii) :=
  match p with
  | [] => None
  | c :: p' =>
      if ascii_eqb c NUL then Some ([], false, p')
      else if ascii_eqb c d then Some ([], true, p')
      else
        match end_token d p' with
        | Some (t, by_delim, r) => Some (c :: t, by_delim, r)
        | None => None
        end
  end.

(** [strtok(s, ",")] with the array split as [before ++ p] and the search
    starting at [p] *)
Definition strtok (before p : list ascii) (d : ascii) : option strtok_result :=
  let '(sk, q) := skip_delims d p in
  match q with
  | [] => None
  | c :: _ =>
      if ascii_eqb c NUL then Some (mkStrtok None (before ++ sk) q)
      else
        match end_token d q with
        | Some (t, true, r) =>
            Some (mkStrtok (Some (t ++ NUL :: r)) (before ++ sk ++ t ++ [NUL]) r)
        | Some (t, false, r) =>
            Some (mkStrtok (Some (t ++ NUL :: r)) (before ++ sk ++ t) (NUL :: r))
        | None => None
        end
  end.

(** *** strtol and atoi *)

Definition is_space (c : ascii) : bool :=
  let n := nat_of_ascii c in
  (Nat.eqb n 32 || (Nat.leb 9 n && Nat.leb n 13))%bool.

Definition digit_val (base : Z) (c : ascii) : option Z :=
  let n := Z.of_nat (nat_of_ascii c) in
  let v :=
    if (48 <=? n) && (n <=? 57) then Some (n - 48)
    else if (97 <=? n) && (n <=? 122) then Some (n - 87)
    else if (65 <=? n) && (n <=? 90) then Some (n - 55)
    else None in
  match v with
  | Some d => if d <? base then Some d else None
  | None => None
  end.

(** the digits at [p], accumulated onto [acc], up to the first character
    that is not a digit of the base *)
Fixpoint digits (base acc : Z) (p : list ascii) : option Z :=
  match p with
  | [] => None
  | c :: p' =>
      match digit_val base c with
      | Some d => digits base (acc * base + d) p'
      | None => Some acc
      end
  end.

Fixpoint skip_spaces (p : list ascii) : list ascii :=
  match p with
  | c :: p' => if is_space c then skip_spaces p' else p
  | [] => []
  end.

Definition clamp_long (z : Z) : Z := Z.max LONG_MIN (Z.min LONG_MAX z).

(** after white space and sign; for base 16 a leading 0x or 0X is passed
    over (with no digit behind it the value is 0 either way) *)
Definition strtol_magnitude (base : Z) (p : list ascii) : option Z :=
  match p with
  | c0 :: c1 :: p' =>
      if (base =? 16) && ascii_eqb c0 "0"%char &&
         (ascii_eqb c1 "x"%char || ascii_eqb c1 "X"%char)
      then digits base 0 p' else digits base 0 p
  | _ => digits base 0 p
  end.

(** strtol(p, 0, base) *)
Definition strtol (p : list ascii) (base : Z) : option Z :=
  match skip_spaces p with
  | [] => None
  | c :: p' =>
      if ascii_eqb c "-"%char then option_map (fun v => clamp_long (- v)) (strtol_magnitude base p')
      else if ascii_eqb c "+"%char then option_map clamp_long (strtol_magnitude base p')
      else option_map clamp_long (strtol_magnitude base (c :: p'))
  end.

(** atoi(p): [(int) strtol(p, NULL, 10)] *)
Definition atoi (p : list ascii) : option Z := option_map i32 (strtol p 10).

(** The pointer is NULL, or the read leaves the array: no defined result. *)
Definition defined {A} (o : option A) : result A :=
  match o with
  | Some a => Ret a
  | None => Stop UndefinedBehaviour
  end.

(** sprintf into a [char] array of [cap] bytes: the text and its
    terminator must fit *)
Definition sprintf (cap : nat) (text : list ascii) : result (list ascii) :=
  if (length text <? cap)%nat then Ret text else Stop UndefinedBehaviour.

(** ** The texts of the progress line *)

(** line 170: the array [bar], terminator included *)
Definition bar : list ascii := lit "===================================>" ++ [NUL].

(** lines 168-180.  [maxWidth] is an [unsigned int]; [sizeof(bar) - index]
    is computed in [size_t], and [maxWidth - index] in [unsigned int]; the
    text and its terminator must fit the 64 bytes of the caller's buffer. *)
Definition build_progress_bar_string (percentage : fval) (maxWidth : Z)
  : result (list ascii) :=
  let size := Z.of_nat (length bar) in
  let maxWidth := if size <? maxWidth then size else maxWidth in
  (index <- f_to_i32 (fmul FLT (f_of_Z FLT maxWidth) percentage);;
   let at_index := (size - index) mod 2 ^ 64 in
   if size <? at_index then Stop UndefinedBehaviour
   else
     shown <- defined (c_str (skipn (Z.to_nat at_index) bar));;
     sprintf 64 (lit "[" ++ shown ++ replicate (Z.to_nat (u32 (maxWidth - index))) " "%char ++
                 lit "]"))%result.

(** printf("%u") *)
Definition fmt_u (z : Z) : list ascii := fmt_d z.

(** the [k] low decimal digits of [z], most significant first *)
Fixpoint dec_digits (k : nat) (z : Z) : list ascii :=
  match k with
  | O => []
  | S k' => dec_digits k' (z / 10) ++ [hex_digit (z mod 10)]
  end.

(** printf("%.<k>f"): the decimal with [k] digits behind the point that is
    nearest to the value, ties to even *)
Definition fmt_f (k : nat) (v : fval) : list ascii :=
  match v with
  | FFin m e =>
      let unit := 10 ^ Z.of_nat k in
      let scaled :=
        if 0 <=? e then Z.abs m * 2 ^ e * unit else div_rne (Z.abs m * unit) (2 ^ (- e)) in
      (if m <? 0 then lit "-" else []) ++
      fmt_d (scaled / unit) ++ (if (k =? 0)%nat then [] else lit "." ++ dec_digits k (scaled mod unit))
  | FInf neg => (if neg then lit "-" else []) ++ lit "inf"
  | FNaN => lit "nan"
  end.

(** the constant [1024.0] *)
Definition KiB : fval := f_of_Z DBL 1024.

(** lines 142-158 *)
Definition build_speed_string (speedInBytesPerSecond : Z) : result (list ascii) :=
  let speed := speedInBytesPerSecond in
  if speed <? 1024 then
    sprintf 64 (fmt_u speed ++ lit " B/s")
  else if speed <? 1024 * 1024 then
    (shown <- f_to_u32 (fdiv DBL (f_of_Z DBL speed) KiB);;
     sprintf 64 (fmt_u shown ++ lit " KiB/s"))%result
  else if speed <? 1024 * 1024 * 1024 then
    sprintf 64 (fmt_f 1 (fdiv DBL (fdiv DBL (f_of_Z DBL speed) KiB) KiB) ++ lit " MiB/s")
  else
    sprintf 64 (fmt_f 2 (fdiv DBL (fdiv DBL (fdiv DBL (f_of_Z DBL speed) KiB) KiB) KiB) ++
                lit " GiB/s").

(** lines 125-140 *)
Definition build_progress_string (bytesTotal bytesNow : Z) : result (list ascii) :=
  let d := f_of_Z DBL in
  if bytesTotal <? 1024 then
    sprintf 64 (lit "(" ++ fmt_u bytesNow ++ lit "/" ++ fmt_u bytesTotal ++ lit " B)")
  else if bytesTotal <? 1024 * 1024 then
    sprintf 64 (lit "(" ++ fmt_f 2 (fdiv DBL (d bytesNow) KiB) ++ lit "/" ++
                fmt_f 2 (fdiv DBL (d bytesTotal) KiB) ++ lit " KiB)")
  else if bytesTotal <? 1024 * 1024 * 1024 then
    sprintf 64 (lit "(" ++ fmt_f 2 (fdiv DBL (fdiv DBL (d bytesNow) KiB) KiB) ++ lit "/" ++
                fmt_f 2 (fdiv DBL (fdiv DBL (d bytesTotal) KiB) KiB) ++ lit " MiB)")
  else
    sprintf 64 (lit "(" ++ fmt_f 2 (fdiv DBL (fdiv DBL (fdiv DBL (d bytesNow) KiB) KiB) KiB) ++
                lit "/" ++
                fmt_f 2 (fdiv DBL (fdiv DBL (fdiv DBL (d bytesTotal) KiB) KiB) KiB) ++
                lit " GiB)").

(** printf("%3d"): at least three characters, padded with blanks *)
Definition fmt_3d (z : Z) : list ascii :=
  let s := fmt_d z in replicate (3 - length s) " "%char ++ s.

(** lines 116-123: a carriage return and [columns] blanks *)
Definition clear_current_line (columns : Z) : list ascii :=
  [CR] ++ replicate (Z.to_nat columns) " "%char.

(** lines 233-256 in full: the numbers of [show_progress] and the texts
    built meanwhile, in the order of the source.  [lastColumns] is the
    static variable of line 235, [columns] what [get_console_columns()]
    returns.  The result is all that is printed, and the new value of
    [lastColumns]: the number of characters of the four [printf]s of lines
    243-252. *)
Definition print_progress (pd : ProgressData) (bytesNow bytesTotal speed : Z)
    (lastColumns columns : Z) : result (list ascii * Z) :=
  let cleared := clear_current_line lastColumns in
  let bytesTotal := clamp_total bytesTotal in
  let p := fraction bytesNow bytesTotal in
  (bar <- build_progress_bar_string p (u32 columns / 4);;
   percent <- f_to_i32 (fmul FLT p (f_of_Z FLT 100));;
   bytes <- build_progress_string bytesTotal bytesNow;;
   shown <- build_speed_string speed;;
   eta <- build_ETA_string bytesTotal bytesNow (avgSpeedInBytesPerSecond pd);;
   let line := [CR] ++ fmt_3d percent ++ lit "% " ++ bar ++ lit " " ++ bytes ++
               lit " | Speed: " ++ shown ++ lit " | ETA: " ++ eta in
   Ret (cleared ++ line, Z.of_nat (length line)))%result.

(** ** Data model (lines 20-94) *)

Definition MAX_PATH : nat := 1024.
Definition MAX_LINE_LENGTH : nat := 256.
Definition MAX_URL_LENGTH : nat := 256.
Definition MAX_BIN_COUNT : Z := 32.

Record Options : Type := mkOptions {
  useBINFiles : bool;
  removeExistingFiles : bool;
  keepBINFiles : bool;
  downloadURL : list ascii;
  downloadPath : list ascii;
  gameVersion : list ascii;
  destFolder : list ascii
}.

Module FileEntry.

Record t : Type := mk {
  link : list ascii;
  fileName : list ascii;
  BIN : Z;
  offsetInBIN : Z;
  size : Z;
  unk : Z
}.

End FileEntry.

Module FileArchiveEntry.

Record t : Type := mk {
  link : list ascii;
  fileName : list ascii
}.

End FileArchiveEntry.

Record Statistics : Type := mkStatistics {
  numFilesInPackageManifest : Z;
  numBINArchives : Z;
  numBytesFromFileList : Z;
  numBytesFromBINArchives : Z
}.

(** The options of the libcurl handle that the program sets. *)
Record CURL : Type := mkCURL {
  CURLOPT_URL : list ascii;
  CURLOPT_NOPROGRESS : bool;
  CURLOPT_NOBODY : bool;
  CURLOPT_RESUME_FROM : Z;
  CURLOPT_WRITEDATA : option (list ascii)   (* the path of the FILE* *)
}.

(** What the program does to the outside, in the order it does it. *)
Inductive event : Type :=
| EPrintf (text : list ascii)
| EFopen (path mode : list ascii)
| EFread (path : list ascii) (offset size count : Z)
| EFwrite (path : list ascii) (size count : Z)
| ERemove (path : list ascii)
| EMakePath (dir : list ascii)
| EProbe (url : list ascii)
| ETransfer (url : list ascii) (resume_from : Z) (dest : option (list ascii))
            (progress : ProgressData) (noprogress : bool)
| EInflate (source dest : list ascii)
| EStats (totalSize totalBINFilesSize maxLineLength files archives : Z)
| EFileProgress (i n : Z).

Record world : Type := mkWorld {
  files : gmap (list ascii) (list ascii);
  g_CURL : CURL;
  g_fileList : list FileEntry.t;
  g_fileArchiveList : list FileArchiveEntry.t;
  g_stats : Statistics;
  g_progressData : ProgressData;
  trace : list event
}.

(** What the environment decides. *)
Record environment : Type := mkEnvironment {
  (* CURLINFO_CONTENT_LENGTH_DOWNLOAD after a header-only request, as
     converted to [unsigned int] *)
  content_length : list ascii -> Z;
  (* the body bytes delivered for a GET of the URL from the given offset *)
  http_body : list ascii -> Z -> list ascii;
  (* what [inf] writes to its destination for a given source *)
  inflate : list ascii -> list ascii;
  (* does malloc of that many bytes succeed *)
  malloc_succeeds : Z -> bool;
  (* the bytes found in memory that was never written *)
  garbage : list ascii;
  (* how many of the bytes handed to [fwrite] for a path get written *)
  fwrite_count : list ascii -> list ascii -> nat;
  (* what [get_console_columns()] returns when the progress of the file
     [i] is drawn (line 610) *)
  console_columns : Z -> Z
}.

(** an array or block of [n] bytes before anything is stored in it *)
Definition fresh_bytes (E : environment) (n : nat) : list ascii :=
  firstn n (garbage E ++ replicate n NUL).

(** ** Effectful code: state passing with early stops *)

Definition prog (A : Type) : Type := world -> result A * world.

Definition pret {A} (a : A) : prog A := fun w => (Ret a, w).

Definition pbind {A B} (c : prog A) (f : A -> prog B) : prog B :=
  fun w =>
    match c w with
    | (Ret a, w') => f a w'
    | (Stop k, w') => (Stop k, w')
    end.

Definition pstop {A} (k : stop) : prog A := fun w => (Stop k, w).

Definition plift {A} (r : result A) : prog A := fun w => (r, w).

Declare Scope prog_scope.
Delimit Scope prog_scope with prog.
Notation "x <- c1 ;; c2" := (pbind c1 (fun x => c2))
  (at level 100, c1 at next level, right associativity) : prog_scope.
Notation "c1 ;;; c2" := (pbind c1 (fun _ => c2))
  (at level 100, right associativity) : prog_scope.

Definition set_files (f : gmap (list ascii) (list ascii)) (w : world) : world :=
  mkWorld f (g_CURL w) (g_fileList w) (g_fileArchiveList w) (g_stats w)
          (g_progressData w) (trace w).
Definition set_CURL (c : CURL) (w : world) : world :=
  mkWorld (files w) c (g_fileList w) (g_fileArchiveList w) (g_stats w)
          (g_progressData w) (trace w).
Definition set_fileList (l : list FileEntry.t) (w : world) : world :=
  mkWorld (files w) (g_CURL w) l (g_fileArchiveList w) (g_stats w)
          (g_progressData w) (trace w).
Definition set_fileArchiveList (l : list FileArchiveEntry.t) (w : world) : world :=
  mkWorld (files w) (g_CURL w) (g_fileList w) l (g_stats w)
          (g_progressData w) (trace w).
Definition set_stats (s : Statistics) (w : world) : world :=
  mkWorld (files w) (g_CURL w) (g_fileList w) (g_fileArchiveList w) s
          (g_progressData w) (trace w).
Definition set_progressData (p : ProgressData) (w : world) : world :=
  mkWorld (files w) (g_CURL w) (g_fileList w) (g_fileArchiveList w) (g_stats w)
          p (trace w).
Definition set_trace (t : list event) (w : world) : world :=
  mkWorld (files w) (g_CURL w) (g_fileList w) (g_fileArchiveList w) (g_stats w)
          (g_progressData w) t.

Definition emit (e : event) : prog unit :=
  fun w => (Ret tt, set_trace (trace w ++ [e]) w).

Definition printf (text : list ascii) : prog unit := emit (EPrintf text).

Definition update (f : world -> world) : prog unit := fun w => (Ret tt, f w).

Definition curl_easy_setopt (f : CURL -> CURL) : prog unit :=
  update (fun w => set_CURL (f (g_CURL w)) w).

Definition with_URL (u : list ascii) (c : CURL) : CURL :=
  mkCURL u (CURLOPT_NOPROGRESS c) (CURLOPT_NOBODY c) (CURLOPT_RESUME_FROM c)
         (CURLOPT_WRITEDATA c).
Definition with_NOPROGRESS (b : bool) (c : CURL) : CURL :=
  mkCURL (CURLOPT_URL c) b (CURLOPT_NOBODY c) (CURLOPT_RESUME_FROM c)
         (CURLOPT_WRITEDATA c).
Definition with_NOBODY (b : bool) (c : CURL) : CURL :=
  mkCURL (CURLOPT_URL c) (CURLOPT_NOPROGRESS c) b (CURLOPT_RESUME_FROM c)
         (CURLOPT_WRITEDATA c).
Definition with_RESUME_FROM (n : Z) (c : CURL) : CURL :=
  mkCURL (CURLOPT_URL c) (CURLOPT_NOPROGRESS c) (CURLOPT_NOBODY c) n
         (CURLOPT_WRITEDATA c).
Definition with_WRITEDATA (p : list ascii) (c : CURL) : CURL :=
  mkCURL (CURLOPT_URL c) (CURLOPT_NOPROGRESS c) (CURLOPT_NOBODY c)
         (CURLOPT_RESUME_FROM c) (Some p).

(** *** Files *)

Definition contents (w : world) (path : list ascii) : list ascii :=
  match files w !! path with
  | Some bytes => bytes
  | None => []
  end.

(** fopen(path, "wb"): the file is created, or truncated to zero length *)
Definition fopen_wb (path : list ascii) : prog unit :=
  (update (fun w => set_files (<[path := []]> (files w)) w);;;
   emit (EFopen path (lit "wb")))%prog.

(** fopen(path, "ab"): the file is created if missing; writes go to its end *)
Definition fopen_ab (path : list ascii) : prog unit :=
  (update (fun w => set_files (<[path := contents w path]> (files w)) w);;;
   emit (EFopen path (lit "ab")))%prog.

(** bytes written through a stream whose position is at [pos] *)
Definition write_at (path : list ascii) (pos : nat) (bytes : list ascii) : prog unit :=
  update (fun w =>
    let old := contents w path in
    set_files (<[path := firstn pos old ++ bytes ++ skipn (pos + length bytes) old]> (files w)) w).

Definition append_file (path : list ascii) (bytes : list ascii) : prog unit :=
  update (fun w => set_files (<[path := contents w path ++ bytes]> (files w)) w).

Definition remove (path : list ascii) : prog unit :=
  (update (fun w => set_files (delete path (files w)) w);;;
   emit (ERemove path))%prog.

(** lines 298-306 *)
Definition file_exists (path : list ascii) : prog bool :=
  fun w => (Ret (bool_decide (is_Some (files w !! path))), w).

(** lines 269-277, on the file at [path]: the result of [ftell] at the end
    of the file, converted to [unsigned int] *)
Definition file_size (path : list ascii) : prog Z :=
  fun w => (Ret (u32 (Z.of_nat (length (contents w path)))), w).

(** lines 317-331 *)
Definition make_path (dir : list ascii) : prog unit := emit (EMakePath dir).

(** the directory part of a path is created when the path has a slash
    (lines 344-350, 429-435, 465-471) *)
Definition make_parent (path : list ascii) : prog unit :=
  match cut_at_last path "/"%char with
  | Some dir => make_path dir
  | None => pret tt
  end.

(** the name without what follows its last dot (lines 352-357, 448-453) *)
Definition strip_suffix (name : list ascii) : list ascii :=
  match cut_at_last name "."%char with
  | Some stem => stem
  | None => name
  end.

(** ** TransferManager and Extractor *)

Section Program.

Variable E : environment.
Variable g_options : Options.

(** [curl_easy_perform(g_CURL)].  A header-only request delivers nothing;
    otherwise the body goes through [write_callback] to the stream set as
    CURLOPT_WRITEDATA.  The calls of [progress_callback] that libcurl makes
    meanwhile are the subject of [run_samples]; the state they leave in
    [g_progressData] is reset before every later transfer. *)
Definition curl_easy_perform : prog unit :=
  fun w =>
    let c := g_CURL w in
    if CURLOPT_NOBODY c then emit (EProbe (CURLOPT_URL c)) w
    else
      (emit (ETransfer (CURLOPT_URL c) (CURLOPT_RESUME_FROM c) (CURLOPT_WRITEDATA c)
                       (g_progressData w) (CURLOPT_NOPROGRESS c));;;
       match CURLOPT_WRITEDATA c with
       | Some path => append_file path (http_body E (CURLOPT_URL c) (CURLOPT_RESUME_FROM c))
       | None => pret tt
       end)%prog w.

(** lines 279-296 *)
Definition file_size_remote (URL : list ascii) : prog Z :=
  (curl_easy_setopt (with_URL URL);;;
   curl_easy_setopt (with_NOPROGRESS true);;;
   curl_easy_setopt (with_NOBODY true);;;
   update (set_progressData zero_progress);;;
   curl_easy_perform;;;
   curl_easy_setopt (with_NOPROGRESS false);;;
   curl_easy_setopt (with_NOBODY false);;;
   pret (u32 (content_length E URL)))%prog.

(** lines 399-444 *)
Definition download_BIN_archive (entry : FileArchiveEntry.t) : prog unit :=
  let fileName := FileArchiveEntry.fileName entry in
  let link := FileArchiveEntry.link entry in
  (found <- file_exists fileName;;
   if found then
     if removeExistingFiles g_options then
       remove fileName
     else
       localSize <- file_size fileName;;
       remoteSize <- file_size_remote link;;
       if localSize <? remoteSize then
         printf (lit "[INFO]: Resuming download of " ++ fileName ++ [LF]);;;
         fopen_ab fileName;;;
         curl_easy_setopt (with_RESUME_FROM localSize);;;
         curl_easy_setopt (with_WRITEDATA fileName);;;
         curl_easy_setopt (with_URL link);;;
         update (set_progressData zero_progress);;;
         update (fun w => set_progressData (with_bytesAlreadyDownloaded localSize (g_progressData w)) w);;;
         curl_easy_perform;;;
         curl_easy_setopt (with_RESUME_FROM 0)
       else if localSize =? remoteSize then
         printf (lit "[INFO]: " ++ fileName ++ lit " already exists, skipping download" ++ [LF])
       else
         printf (lit "[WARNING]: Local " ++ fileName ++ lit " is bigger than remote file" ++ [LF])
   else
     make_parent fileName;;;
     fopen_wb fileName;;;
     curl_easy_setopt (with_WRITEDATA fileName);;;
     curl_easy_setopt (with_URL link);;;
     update (set_progressData zero_progress);;;
     curl_easy_perform)%prog.

(** lines 463-488 of [download_individual_file]: what follows the test of
    the final file *)
Definition fetch_and_inflate (entry : FileEntry.t) (finalFileName : list ascii)
  : prog unit :=
  let fileName := FileEntry.fileName entry in
  (found <- file_exists fileName;;
   (if negb found then
      make_parent fileName;;;
      fopen_wb fileName;;;
      curl_easy_setopt (with_WRITEDATA fileName);;;
      curl_easy_setopt (with_URL (FileEntry.link entry));;;
      update (set_progressData zero_progress);;;
      curl_easy_perform
    else pret tt);;;
   fopen_wb finalFileName;;;
   emit (EInflate fileName finalFileName);;;
   (fun w => write_at finalFileName 0 (inflate E (contents w fileName)) w);;;
   remove fileName)%prog.

(** lines 446-489 *)
Definition download_individual_file (entry : FileEntry.t) : prog unit :=
  let finalFileName := strip_suffix (FileEntry.fileName entry) in
  (found <- file_exists finalFileName;;
   if found then
     if removeExistingFiles g_options then
       remove finalFileName;;;
       fetch_and_inflate entry finalFileName
     else pret tt
   else fetch_and_inflate entry finalFileName)%prog.

(** line 336 *)
Definition BIN_file_name (bin : Z) : list ascii :=
  destFolder g_options ++ lit "/BIN_0x" ++ fmt_08x bin.

(** lines 333-397 *)
Definition extract_from_BIN (entry : FileEntry.t) : prog unit :=
  let fileName := FileEntry.fileName entry in
  let size := Z.to_nat (FileEntry.size entry) in
  let BINFileName := BIN_file_name (FileEntry.BIN entry) in
  (found <- file_exists BINFileName;;
   if negb found then
     printf (lit "[ERROR]: BIN file not found: " ++ BINFileName ++ [LF]);;;
     pstop ExitCalled
   else
     make_parent fileName;;;
     let finalFileName := strip_suffix fileName in
     fopen_wb fileName;;;
     fopen_wb finalFileName;;;
     if negb (malloc_succeeds E (FileEntry.size entry)) then
       printf (lit "[ERROR]: Couldn't allocate memory to extract file: " ++ fileName ++ [LF])
     else
       fun w =>
         let got :=
           firstn size (skipn (Z.to_nat (FileEntry.offsetInBIN entry)) (contents w BINFileName)) in
         let temp := got ++ skipn (length got) (fresh_bytes E size) in
         (emit (EFread BINFileName (FileEntry.offsetInBIN entry) (FileEntry.size entry)
                       (Z.of_nat (length got)));;;
          if (length got =? 0)%nat then
            printf (lit "[ERROR]: Couldn't read from BIN file: " ++ BINFileName ++ [LF])
          else
            let written := firstn (fwrite_count E fileName temp) temp in
            write_at fileName 0 written;;;
            emit (EFwrite fileName (FileEntry.size entry) (Z.of_nat (length written)));;;
            if (length written =? 0)%nat then
              printf (lit "[ERROR]: Couldn't write to file: " ++ fileName ++ [LF])
            else
              emit (EInflate fileName finalFileName);;;
              (fun w => write_at finalFileName 0 (inflate E (contents w fileName)) w);;;
              remove fileName) w)%prog.

(** line 708-719 *)
Definition release_url (name : list ascii) : list ascii :=
  downloadURL g_options ++ downloadPath g_options ++
  lit "/projects/lol_game_client/releases/" ++ gameVersion g_options ++
  lit "/packages/files/" ++ name.

Definition packagemanifestURL : list ascii := release_url (lit "packagemanifest").
Definition packagemanifestPath : list ascii :=
  destFolder g_options ++ lit "/" ++ lit "packagemanifest".

(** lines 721-751 of [main]: the manifest is fetched, resumed or kept *)
Definition main_download_packagemanifest : prog unit :=
  (found <- file_exists packagemanifestPath;;
   if negb found then
     printf (lit "[INFO]: packagemanifest not found, downloading it..." ++ [LF]);;;
     fopen_wb packagemanifestPath;;;
     curl_easy_setopt (with_WRITEDATA packagemanifestPath);;;
     curl_easy_setopt (with_URL packagemanifestURL);;;
     update (set_progressData zero_progress);;;
     curl_easy_perform
   else
     localSize <- file_size packagemanifestPath;;
     remoteSize <- file_size_remote packagemanifestURL;;
     if localSize <? remoteSize then
       printf (lit "[INFO]: Resuming download of packagemanifest" ++ [LF]);;;
       fopen_ab packagemanifestPath;;;
       curl_easy_setopt (with_RESUME_FROM localSize);;;
       curl_easy_setopt (with_WRITEDATA packagemanifestPath);;;
       curl_easy_setopt (with_URL packagemanifestURL);;;
       update (set_progressData zero_progress);;;
       update (fun w => set_progressData (with_bytesAlreadyDownloaded localSize (g_progressData w)) w);;;
       curl_easy_perform;;;
       curl_easy_setopt (with_RESUME_FROM 0)
     else if localSize =? remoteSize then
       printf (lit "[INFO]: packagemanifest already exists, skipping download" ++ [LF])
     else
       printf (lit "[WARNING]: Local packagemanifest is bigger than remote packagemanifest" ++ [LF]))%prog.

(** ** ManifestParser *)

(** lines 525-549: one line of the manifest, in the buffer [line] as
    [fgets] left it.  The result is the new entry, [atoi] of the size
    field, and the buffer as [strtok] leaves it. *)
Definition parse_line (line : list ascii) : result (FileEntry.t * Z * list ascii) :=
  (t1 <- defined (strtok [] line ","%char);;
   let line1 := tok_before t1 ++ tok_saved t1 in
   temp <- defined (strstr line1 (lit "files/"));;
   temp <- defined temp;;
   temp <- defined (strchr temp "/"%char);;
   temp <- defined temp;;
   temp <- defined (c_str temp);;
   let fileName := destFolder g_options ++ temp in
   token <- defined (tok t1);;
   token <- defined (c_str token);;
   link <- sprintf MAX_URL_LENGTH (downloadURL g_options ++ downloadPath g_options ++ token);;
   t2 <- defined (strtok (tok_before t1) (tok_saved t1) ","%char);;
   token <- defined (tok t2);;
   bin <- defined (strtol (skipn 6 token) 16);;
   let BIN := u32 bin in
   if negb (BIN <? MAX_BIN_COUNT) then Stop AssertionFailed
   else
     t3 <- defined (strtok (tok_before t2) (tok_saved t2) ","%char);;
     token <- defined (tok t3);;
     offset <- defined (atoi token);;
     t4 <- defined (strtok (tok_before t3) (tok_saved t3) ","%char);;
     token <- defined (tok t4);;
     size <- defined (atoi token);;
     t5 <- defined (strtok (tok_before t4) (tok_saved t4) ","%char);;
     token <- defined (tok t5);;
     unk <- defined (atoi token);;
     Ret (FileEntry.mk link fileName BIN (u32 offset) (u32 size) unk, size,
          tok_before t5 ++ tok_saved t5))%result.

(** lines 99-114: the node goes behind the tail *)
Definition list_add {A} (l : list A) (data : A) : list A := l ++ [data].

(** lines 491-494 *)
Definition add_file_entry (entry : FileEntry.t) : prog unit :=
  update (fun w => set_fileList (list_add (g_fileList w) entry) w).

(** lines 496-499 *)
Definition add_file_archive_entry (entry : FileArchiveEntry.t) : prog unit :=
  update (fun w => set_fileArchiveList (list_add (g_fileArchiveList w) entry) w).

(** the locals of [get_files_using_packagemanifest] that the first loop
    updates *)
Record scan : Type := mkScan {
  line : list ascii;
  fileCount : Z;
  totalSize : Z;
  maxLineLength : Z;
  hasBIN : list bool
}.

(** lines 517-554.  Every successful [fgets] takes at least one character
    from the stream, so [fuel] above the length of the stream is never
    used up. *)
Fixpoint scan_lines (fuel : nat) (st : scan) (stream : list ascii) : prog scan :=
  match fuel with
  | O => pstop OutOfFuel
  | S fuel' =>
      match fgets (line st) MAX_LINE_LENGTH stream with
      | None => pret st
      | Some (buf, rest) =>
          (text <- plift (defined (c_str buf));;
           let len := Z.of_nat (length text) in
           let maxLineLength := if maxLineLength st <? len then len else maxLineLength st in
           r <- plift (parse_line buf);;
           let '(entry, size, buf') := r in
           let hasBIN := <[Z.to_nat (FileEntry.BIN entry) := true]> (hasBIN st) in
           add_file_entry entry;;;
           scan_lines fuel'
             (mkScan buf' (i32 (fileCount st + 1)) (i32 (totalSize st + size))
                     maxLineLength hasBIN)
             rest)%prog
      end
  end.

(** lines 503-557: the header, the lines, the two statistics *)
Definition parse_packagemanifest (packagemanifest : list ascii) : prog scan :=
  match fgets (fresh_bytes E MAX_LINE_LENGTH) MAX_LINE_LENGTH packagemanifest with
  | None => pstop AssertionFailed
  | Some (buf, rest) =>
      (header <- plift (defined (c_str buf));;
       if negb (bool_decide (header = lit "PKG1" ++ [CR; LF])) then
         printf (lit "Invalid header: " ++ header ++ [LF]);;;
         printf (lit "BAD PACKAGEMANIFEST FILE!" ++ [LF]);;;
         pstop ExitCalled
       else
         st <- scan_lines (S (length rest))
                 (mkScan buf 0 0 0 (replicate (Z.to_nat MAX_BIN_COUNT) false)) rest;;
         update (fun w =>
           set_stats (mkStatistics (fileCount st) (numBINArchives (g_stats w))
                                   (totalSize st) (numBytesFromBINArchives (g_stats w))) w);;;
         pret st)%prog
  end.

(** lines 559-576: one archive entry for every identifier seen, in
    ascending order; [ids] are the identifiers still to visit *)
Fixpoint collect_archives (hasBIN : list bool) (ids : list Z) (totalBINFilesSize : Z)
  : prog Z :=
  match ids with
  | [] => pret totalBINFilesSize
  | i :: ids' =>
      if default false (hasBIN !! Z.to_nat i) then
        (update (fun w =>
           set_stats (mkStatistics (numFilesInPackageManifest (g_stats w))
                                   (i32 (numBINArchives (g_stats w) + 1))
                                   (numBytesFromFileList (g_stats w))
                                   (numBytesFromBINArchives (g_stats w))) w);;;
         let BINName := lit "BIN_0x" ++ fmt_08x i in
         let BINLink := release_url BINName in
         remote <- file_size_remote BINLink;;
         add_file_archive_entry
           (FileArchiveEntry.mk BINLink (destFolder g_options ++ lit "/" ++ BINName));;;
         collect_archives hasBIN ids' (u32 (totalBINFilesSize + remote)))%prog
      else collect_archives hasBIN ids' totalBINFilesSize
  end.

Fixpoint for_each {A} (f : Z -> A -> prog unit) (i : Z) (l : list A) : prog unit :=
  match l with
  | [] => pret tt
  | x :: l' => (f i x;;; for_each f (i + 1) l')%prog
  end.

(** lines 608-612: the progress of the loop over the files is drawn, for
    the file [i] of [n].  What is printed is kept as the event
    [EFileProgress]. *)
Definition show_file_progress (i n : Z) : prog unit :=
  let percentage := fdiv FLT (f_of_Z FLT i) (f_of_Z FLT n) in
  (bar <- plift (build_progress_bar_string percentage (u32 (console_columns E i) / 4));;
   percent <- plift (f_to_i32 (fmul FLT percentage (f_of_Z FLT 100)));;
   emit (EFileProgress i n))%prog.

(** lines 501-628 *)
Definition get_files_using_packagemanifest (packagemanifest : list ascii) : prog unit :=
  (st <- parse_packagemanifest packagemanifest;;
   totalBINFilesSize <- collect_archives (hasBIN st) (map Z.of_nat (seq 0 (Z.to_nat MAX_BIN_COUNT))) 0;;
   update (fun w =>
     set_stats (mkStatistics (numFilesInPackageManifest (g_stats w))
                             (numBINArchives (g_stats w))
                             (numBytesFromFileList (g_stats w))
                             (i32 totalBINFilesSize)) w);;;
   (if negb (totalBINFilesSize =? u32 (totalSize st)) then
      printf (lit "[WARNING]: Total sizes don't match!")
    else pret tt);;;
   (fun w =>
      emit (EStats (totalSize st) totalBINFilesSize (maxLineLength st)
                   (numFilesInPackageManifest (g_stats w)) (numBINArchives (g_stats w))) w);;;
   (if useBINFiles g_options then
      printf (LF :: lit "Downloading BIN files..." ++ [LF]);;;
      (fun w =>
         for_each (fun i entry =>
           printf (lit "Downloading: " ++ FileArchiveEntry.fileName entry ++ lit " (" ++
                   fmt_d i ++ lit "/" ++ fmt_d (numBINArchives (g_stats w)) ++ lit ")" ++ [LF]);;;
           download_BIN_archive entry;;;
           printf [LF]) 1 (g_fileArchiveList w) w)
    else pret tt);;;
   printf (lit (if useBINFiles g_options then "Extracting" else "Downloading") ++
           lit " game files..." ++ [LF]);;;
   (fun w =>
      for_each (fun i entry =>
        show_file_progress i (numFilesInPackageManifest (g_stats w));;;
        if useBINFiles g_options then extract_from_BIN entry
        else
          curl_easy_setopt (with_NOPROGRESS true);;;
          download_individual_file entry) 1 (g_fileList w) w);;;
   (if useBINFiles g_options && negb (keepBINFiles g_options) then
      fun w => for_each (fun _ entry => remove (FileArchiveEntry.fileName entry)) 1
                 (g_fileArchiveList w) w
    else pret tt))%prog.

(** lines 700-762 of [main], once the options are read *)
Definition main_after_options : prog unit :=
  (update (set_CURL (mkCURL [] false false 0 None));;;
   make_path (destFolder g_options ++ lit "/");;;
   main_download_packagemanifest;;;
   (fun w => get_files_using_packagemanifest (contents w packagemanifestPath) w))%prog.

End Program.

(** ** C strings, continued *)

Definition TAB : ascii := "009"%char.

(** strcpy into a [char] array of [cap] bytes: the text and its terminator
    must fit; [None] is a NULL source *)
Definition strcpy (cap : nat) (src : option (list ascii)) : result (list ascii) :=
  match src with
  | Some text => if (length text <? cap)%nat then Ret text else Stop UndefinedBehaviour
  | None => Stop UndefinedBehaviour
  end.

(** lines 630-640, on the array from [string]: the array after the call
    ([None] when the walk leaves the array) *)
Fixpoint replace_char (string : list ascii) (c replace : ascii) : option (list ascii) :=
  match string with
  | [] => None
  | x :: string' =>
      if ascii_eqb x NUL then Some string
      else option_map (cons (if ascii_eqb x c then replace else x))
                      (replace_char string' c replace)
  end.

(** what [replace_char] does to one character of the text *)
Definition replaced (c replace x : ascii) : ascii :=
  if ascii_eqb x c then replace else x.

(** ** Directories *)

Module Paths.

(** lines 323-329: [temp] is the array (restored at the end of every
    round), [slash] the pointer into it, [made] the arguments of
    [make_directory] so far.  Every round moves [slash] forward, so [fuel]
    above the length of the array is never used up. *)
Fixpoint make_path_loop (fuel : nat) (temp : list ascii) (slash : option (list ascii))
    (made : list (list ascii)) : result (list (list ascii)) :=
  match slash with
  | None => Ret made
  | Some at_slash =>
      match fuel with
      | O => Stop OutOfFuel
      | S fuel' =>
          let before := firstn (length temp - length at_slash) temp in
          (dir <- defined (c_str (before ++ NUL :: skipn 1 at_slash));;
           next <- defined (strchr (skipn 1 at_slash) "/"%char);;
           make_path_loop fuel' temp next (made ++ [dir]))%result
      end
  end.

(** lines 317-331: the directory names handed to [make_directory], in
    order.  [stale] is what the array [temp] holds behind the copy. *)
Definition make_path (path stale : list ascii) : result (list (list ascii)) :=
  (text <- strcpy MAX_PATH (Some path);;
   let temp := text ++ NUL :: stale in
   slash <- defined (strchr temp "/"%char);;
   made <- make_path_loop (S (length temp)) temp slash [];;
   dir <- defined (c_str temp);;
   Ret (made ++ [dir]))%result.

(** the beginnings of [rest] that end just before a slash, each behind
    [pre] *)
Fixpoint slash_prefixes (pre rest : list ascii) : list (list ascii) :=
  match rest with
  | [] => []
  | c :: rest' =>
      (if ascii_eqb c "/"%char then [pre] else []) ++ slash_prefixes (pre ++ [c]) rest'
  end.

End Paths.

(** ** The lists of entries *)

Module ListNodes.

Section Nodes.

(** what the union of a node points to *)
Variable A : Type.

(** lines 54-60; an address is a number, NULL is [None] *)
Record ListNode : Type := mkListNode {
  data : A;
  next : option nat
}.

(** lines 62-65 *)
Record FileList : Type := mkFileList {
  head : option nat;
  tail : option nat
}.

(** lines 99-114; [node] is what [malloc] returned *)
Definition list_add (node : option nat) (l : FileList) (d : A) (h : gmap nat ListNode)
  : result (FileList * gmap nat ListNode) :=
  match node with
  | None => Stop AssertionFailed
  | Some n =>
      let h := <[n := mkListNode d None]> h in
      let l := match head l with
               | None => mkFileList (Some n) (tail l)
               | Some _ => l
               end in
      (h <- match tail l with
            | Some t =>
                match h !! t with
                | Some last => Ret (<[t := mkListNode (data last) (Some n)]> h)
                | None => Stop UndefinedBehaviour
                end
            | None => Ret h
            end;;
       Ret (mkFileList (head l) (Some n), h))%result
  end.

(** the loops [for (c = l.head; c; c = c->next)] (lines 594, 606, 623):
    the entries they visit, in order *)
Fixpoint entries (fuel : nat) (c : option nat) (h : gmap nat ListNode)
  : result (list A) :=
  match c with
  | None => Ret []
  | Some p =>
      match fuel with
      | O => Stop OutOfFuel
      | S fuel' =>
          match h !! p with
          | Some node => (rest <- entries fuel' (next node) h;; Ret (data node :: rest))%result
          | None => Stop UndefinedBehaviour
          end
      end
  end.

(** The list [xs] laid out in the heap: distinct nodes at [locs], each
    holding its entry and the address of the next one; [head] and [tail]
    are the first and the last of them. *)
Definition represents (h : gmap nat ListNode) (l : FileList) (xs : list A) : Prop :=
  exists locs : list nat,
    length locs = length xs /\ NoDup locs /\
    head l = locs !! 0%nat /\ tail l = last locs /\
    forall (i : nat) p, locs !! i = Some p ->
      exists x, xs !! i = Some x /\ h !! p = Some (mkListNode x (locs !! S i)).

End Nodes.

Arguments ListNode A : clear implicits.
Arguments data {A} _.
Arguments next {A} _.
Arguments mkListNode {A} _ _.
Arguments list_add {A} _ _ _ _.
Arguments entries {A} _ _ _.
Arguments represents {A} _ _ _.

End ListNodes.

(** ** The command line *)

Definition DEFAULT_PATH : list ascii := lit "/releases/live".
Definition DEFAULT_URL : list ascii := lit "l3cdn.riotgames.com".
Definition DEFAULT_DEST_FOLDER : list ascii := lit "lol".

(** lines 85-90: [g_options] when the program starts *)
Definition initial_options : Options :=
  mkOptions true false false DEFAULT_URL DEFAULT_PATH [] DEFAULT_DEST_FOLDER.

Definition with_useBINFiles (b : bool) (o : Options) : Options :=
  mkOptions b (removeExistingFiles o) (keepBINFiles o) (downloadURL o) (downloadPath o)
            (gameVersion o) (destFolder o).
Definition with_removeExistingFiles (b : bool) (o : Options) : Options :=
  mkOptions (useBINFiles o) b (keepBINFiles o) (downloadURL o) (downloadPath o)
            (gameVersion o) (destFolder o).
Definition with_keepBINFiles (b : bool) (o : Options) : Options :=
  mkOptions (useBINFiles o) (removeExistingFiles o) b (downloadURL o) (downloadPath o)
            (gameVersion o) (destFolder o).
Definition with_downloadURL (s : list ascii) (o : Options) : Options :=
  mkOptions (useBINFiles o) (removeExistingFiles o) (keepBINFiles o) s (downloadPath o)
            (gameVersion o) (destFolder o).
Definition with_downloadPath (s : list ascii) (o : Options) : Options :=
  mkOptions (useBINFiles o) (removeExistingFiles o) (keepBINFiles o) (downloadURL o) s
            (gameVersion o) (destFolder o).
Definition with_gameVersion (s : list ascii) (o : Options) : Options :=
  mkOptions (useBINFiles o) (removeExistingFiles o) (keepBINFiles o) (downloadURL o)
            (downloadPath o) s (destFolder o).
Definition with_destFolder (s : list ascii) (o : Options) : Options :=
  mkOptions (useBINFiles o) (removeExistingFiles o) (keepBINFiles o) (downloadURL o)
            (downloadPath o) (gameVersion o) s.

(** lines 661-670 *)
Definition usage (programName : list ascii) : list (list ascii) :=
  [lit "Usage: " ++ programName ++ lit " [options] -v VERSION" ++ [LF];
   lit "  -v VERSION" ++ [TAB] ++ lit ": Download game version specified in VERSION" ++ [LF];
   lit "Options:" ++ [LF];
   lit "  -u URL" ++ [TAB] ++ lit ": Use URL as download URL (default: " ++ DEFAULT_URL ++
     lit ")" ++ [LF];
   lit "  -p PATH" ++ [TAB] ++ lit ": Use PATH as download path (default: " ++ DEFAULT_PATH ++
     lit ")" ++ [LF];
   lit "  -d DIRECTORY" ++ [TAB] ++ lit ": Store downloaded files in DIRECTORY (default: " ++
     DEFAULT_DEST_FOLDER ++ lit ")" ++ [LF];
   lit "  -h" ++ [TAB; TAB] ++ lit ": Print this help text and exit" ++ [LF];
   lit "  -i" ++ [TAB; TAB] ++
     lit ": (NOT RECOMMENDED) Download files individually instead of extracting them from BIN archives (default: disabled)" ++ [LF];
   lit "  -r" ++ [TAB; TAB] ++
     lit ": Remove existing files and download them again (default: disabled)" ++ [LF];
   lit "  -k" ++ [TAB; TAB] ++
     lit ": Keep BIN archive files after extracting game files from them (default: disabled)" ++
     [LF]].

Fixpoint print_all (texts : list (list ascii)) : prog unit :=
  match texts with
  | [] => pret tt
  | t :: texts' => (printf t;;; print_all texts')%prog
  end.

(** lines 649-682: the loop over [argv[1..argc-1]], here the arguments
    still to read; [argv[argc]] is NULL.  An argument is the text of its C
    string.  The result is [g_options] and [hasSpecifiedGameVersion]. *)
Fixpoint parse_options (programName : list ascii) (argv : list (list ascii))
    (g_options : Options) (hasSpecifiedGameVersion : bool) : prog (Options * bool) :=
  match argv with
  | [] => pret (g_options, hasSpecifiedGameVersion)
  | arg :: argv' =>
      if bool_decide (arg = lit "-u") then
        match argv' with
        | value :: argv'' =>
            (s <- plift (strcpy 64 (Some value));;
             parse_options programName argv'' (with_downloadURL s g_options)
                           hasSpecifiedGameVersion)%prog
        | [] => plift (s <- strcpy 64 None;; Ret (g_options, hasSpecifiedGameVersion))%result
        end
      else if bool_decide (arg = lit "-p") then
        match argv' with
        | value :: argv'' =>
            (s <- plift (strcpy 64 (Some value));;
             parse_options programName argv'' (with_downloadPath s g_options)
                           hasSpecifiedGameVersion)%prog
        | [] => plift (s <- strcpy 64 None;; Ret (g_options, hasSpecifiedGameVersion))%result
        end
      else if bool_decide (arg = lit "-v") then
        match argv' with
        | value :: argv'' =>
            (s <- plift (strcpy 64 (Some value));;
             parse_options programName argv'' (with_gameVersion s g_options) true)%prog
        | [] => plift (s <- strcpy 64 None;; Ret (g_options, hasSpecifiedGameVersion))%result
        end
      else if bool_decide (arg = lit "-d") then
        match argv' with
        | value :: argv'' =>
            (s <- plift (array <- defined (replace_char (value ++ [NUL]) "\"%char "/"%char);;
                         strcpy 64 (c_str array))%result;;
             parse_options programName argv'' (with_destFolder s g_options)
                           hasSpecifiedGameVersion)%prog
        | [] => pstop UndefinedBehaviour
        end
      else if bool_decide (arg = lit "-h") then
        (print_all (usage programName);;; pstop ExitCalled)%prog
      else if bool_decide (arg = lit "-i") then
        parse_options programName argv' (with_useBINFiles false g_options)
                      hasSpecifiedGameVersion
      else if bool_decide (arg = lit "-r") then
        parse_options programName argv' (with_removeExistingFiles true g_options)
                      hasSpecifiedGameVersion
      else if bool_decide (arg = lit "-k") then
        parse_options programName argv' (with_keepBINFiles true g_options)
                      hasSpecifiedGameVersion
      else if bool_decide (head arg = Some "-"%char) then
        (printf (lit "Unknown option " ++ arg ++ [LF]);;;
         parse_options programName argv' g_options hasSpecifiedGameVersion)%prog
      else parse_options programName argv' g_options hasSpecifiedGameVersion
  end.

Definition YES_NO (b : bool) : list ascii := if b then lit "YES" else lit "NO".

(** lines 690-698 *)
Definition print_options (g_options : Options) : prog unit :=
  print_all
    [LF :: lit "Options are:" ++ [LF];
     TAB :: lit "URL: " ++ downloadURL g_options ++ [LF];
     TAB :: lit "Path: " ++ downloadPath g_options ++ [LF];
     TAB :: lit "Version: " ++ gameVersion g_options ++ [LF];
     TAB :: lit "Destination folder: " ++ destFolder g_options ++ [LF];
     TAB :: lit "Use BIN files: " ++ YES_NO (useBINFiles g_options) ++ [LF];
     TAB :: lit "Remove existing files: " ++ YES_NO (removeExistingFiles g_options) ++ [LF];
     TAB :: lit "Keep BIN files: " ++ YES_NO (keepBINFiles g_options) ++ [LF];
     [LF]].

(** lines 642-763, for [argv = programName :: args].  The exit status,
    which is the libcurl code of the transfer of the manifest, is not part
    of the result. *)
Definition main (E : environment) (programName : list ascii) (args : list (list ascii))
  : prog unit :=
  (parsed <- parse_options programName args initial_options false;;
   let '(g_options, hasSpecifiedGameVersion) := parsed in
   if negb hasSpecifiedGameVersion then
     printf (programName ++ lit ": No game version specified, exiting program." ++ [LF] ++
             lit "If you need help using this program, run: " ++ programName ++ lit " -h" ++
             [LF]);;;
     pstop ExitCalled
   else
     print_options g_options;;;
     main_after_options E g_options)%prog.

(** ** The manifest format

    A line of the manifest as section 6 of the specification gives it:
    [<relativePath>,BIN_0x<8-hex>,<offset>,<size>,<auxiliary>] and a CRLF,
    where the relative path holds the marker [files/]. *)

Record manifest_line : Type := mkLine {
  ml_prefix : list ascii;   (* the relative path up to the marker *)
  ml_name : list ascii;     (* the relative path behind the marker *)
  ml_hex : list ascii;      (* the eight hexadecimal digits *)
  ml_offset : list ascii;   (* decimal digits *)
  ml_size : list ascii;
  ml_unk : list ascii
}.

Definition ml_path (l : manifest_line) : list ascii :=
  ml_prefix l ++ lit "files/" ++ ml_name l.

Definition render_line (l : manifest_line) : list ascii :=
  ml_path l ++ lit ",BIN_0x" ++ ml_hex l ++ lit "," ++ ml_offset l ++ lit "," ++
  ml_size l ++ lit "," ++ ml_unk l ++ [CR; LF].

Definition render_manifest (ls : list manifest_line) : list ascii :=
  lit "PKG1" ++ [CR; LF] ++ concat (map render_line ls).

(** the number that a string of digits denotes *)
Definition number (base : Z) (text : list ascii) : Z :=
  fold_left (fun acc c => acc * base + default 0 (digit_val base c)) text 0.

Definition is_digit (base : Z) (c : ascii) : bool :=
  match digit_val base c with Some _ => true | None => false end.

(** a character of a path: not the field delimiter, not a terminator, not
    a line end *)
Definition plain (c : ascii) : bool :=
  negb (ascii_eqb c ","%char) && negb (ascii_eqb c NUL) && negb (ascii_eqb c LF).

(** does [pat] occur in [pre ++ suf] at a position inside [pre]? *)
Fixpoint occurs_within (pat pre suf : list ascii) : bool :=
  match pre with
  | [] => false
  | _ :: pre' => bool_decide (pat `prefix_of` (pre ++ suf)) || occurs_within pat pre' suf
  end.

Definition decimal_field (text : list ascii) : bool :=
  negb (Nat.eqb (length text) 0) && forallb (is_digit 10) text && (number 10 text <? 2 ^ 31).

Section Manifest.

Variable g_options : Options.

(** The shape of a line: the fields are as above, the marker [files/] is
    the first one of the path, the numbers are non-negative [int]s, and
    the line and the link built from it fit the arrays of the program
    (MAX_LINE_LENGTH, MAX_URL_LENGTH). *)
Definition well_shaped (l : manifest_line) : bool :=
  forallb plain (ml_prefix l) && forallb plain (ml_name l) &&
  negb (occurs_within (lit "files/") (ml_prefix l) (lit "files/" ++ ml_name l)) &&
  Nat.eqb (length (ml_hex l)) 8 && forallb (is_digit 16) (ml_hex l) &&
  decimal_field (ml_offset l) && decimal_field (ml_size l) && decimal_field (ml_unk l) &&
  (length (render_line l) <? MAX_LINE_LENGTH)%nat &&
  (length (downloadURL g_options ++ downloadPath g_options ++ ml_path l) <? MAX_URL_LENGTH)%nat.

(** A well-formed line has that shape and an archive identifier below
    MAX_BIN_COUNT. *)
Definition well_formed (l : manifest_line) : bool :=
  well_shaped l && (number 16 (ml_hex l) <? MAX_BIN_COUNT).

(** the descriptor that a line stands for *)
Definition entry_of (l : manifest_line) : FileEntry.t :=
  FileEntry.mk (downloadURL g_options ++ downloadPath g_options ++ ml_path l)
               (destFolder g_options ++ lit "/" ++ ml_name l)
               (number 16 (ml_hex l))
               (number 10 (ml_offset l))
               (number 10 (ml_size l))
               (number 10 (ml_unk l)).

End Manifest.

(** the archive identifiers that a list of lines refers to *)
Definition archive_ids (ls : list manifest_line) : list Z :=
  map (fun l => number 16 (ml_hex l)) ls.

(** ** Reading a run *)

Definition is_transfer (e : event) : bool :=
  match e with
  | ETransfer _ _ _ _ _ => true
  | _ => false
  end.

(** the transfers of a run, in order *)
Definition transfers (t : list event) : list event := List.filter is_transfer t.

(** the directory made for a path that has a slash *)
Definition made_parent (path : list ascii) : list event :=
  match cut_at_last path "/"%char with
  | Some dir => [EMakePath dir]
  | None => []
  end.

Definition is_finite (v : fval) : bool :=
  match v with
  | FFin _ _ => true
  | _ => false
  end.

(** the handle between two transfers: no body suppression, no resume
    offset (the values [main] and every transfer leave behind) *)
Definition handle_idle (c : CURL) : Prop :=
  CURLOPT_NOBODY c = false /\ CURLOPT_RESUME_FROM c = 0.

(** The transfer decision of section 4.3 for a destination [path] and a
    remote [link], as a relation between the world before and the outcome:
    [announce] is what precedes the opening of an absent destination, and
    [resuming], [skipping], [warning] are the three reports. *)
Definition decision_made (E : environment) (path link : list ascii)
    (announce : list event) (resuming skipping warning : list ascii)
    (w : world) (out : result unit * world) : Prop :=
  let local := u32 (Z.of_nat (length (contents w path))) in
  let remote := u32 (content_length E link) in
  let w' := snd out in
  fst out = Ret tt /\
  match files w !! path with
  | None =>
      (* absent: full fetch *)
      trace w' = trace w ++ announce ++
                 [EFopen path (lit "wb");
                  ETransfer link 0 (Some path) zero_progress (CURLOPT_NOPROGRESS (g_CURL w))] /\
      files w' = <[path := http_body E link 0]> (files w)
  | Some old =>
      if local <? remote then
        (* resume from [local], the counter seeded with [local] *)
        trace w' = trace w ++
                   [EProbe link; EPrintf resuming; EFopen path (lit "ab");
                    ETransfer link local (Some path) (mkProgressData 0 0 0 local) false] /\
        files w' = <[path := old ++ http_body E link local]> (files w)
      else if local =? remote then
        trace w' = trace w ++ [EProbe link; EPrintf skipping] /\
        files w' = files w
      else
        trace w' = trace w ++ [EProbe link; EPrintf warning] /\
        files w' = files w
  end.

(** Section 4.3 as it is worded: the individual-file path makes, for the
    same destination and link, the transfers that the archive path makes. *)
Definition uniform_decision_as_stated : Prop :=
  forall (E : environment) (g_options : Options) (w : world) (entry : FileEntry.t),
    removeExistingFiles g_options = false ->
    handle_idle (g_CURL w) ->
    transfers (trace (snd (download_individual_file E g_options entry w))) =
    transfers (trace (snd (download_BIN_archive E g_options
                             (FileArchiveEntry.mk (FileEntry.link entry)
                                                  (FileEntry.fileName entry)) w))).

(** ** Definitions used by the proofs *)

(** the mantissa of the float nearest to [n / 2^k]: [n] shifted by
    [t = log2 n - prec + 1] places, rounded when it is shifted right *)
Definition mantissa (prec n : Z) : Z :=
  let t := Z.log2 n - prec + 1 in
  if t <=? 0 then n * 2 ^ (- t) else div_rne n (2 ^ t).



Definition alnum (c : ascii) : bool :=
  let n := Z.of_nat (nat_of_ascii c) in
  ((48 <=? n) && (n <=? 57)) || ((97 <=? n) && (n <=? 122)) || ((65 <=? n) && (n <=? 90)).

Definition horner (base : Z) (acc : Z) (c : ascii) : Z :=
  acc * base + default 0 (digit_val base c).

(** a line in the buffer, once [strtok] has cut it into its fields *)
Definition cut_line (l : manifest_line) (stale : list ascii) : list ascii :=
  ml_path l ++ NUL :: lit "BIN_0x" ++ ml_hex l ++ NUL :: ml_offset l ++ NUL ::
  ml_size l ++ NUL :: ml_unk l ++ [CR; LF] ++ NUL :: stale.

(** what one well-formed line does to the locals of the loop *)
Definition scan_step (st : scan) (l : manifest_line) : scan :=
  let len := Z.of_nat (length (render_line l)) in
  mkScan (cut_line l (skipn (S (length (render_line l))) (line st)))
         (i32 (fileCount st + 1))
         (i32 (totalSize st + number 10 (ml_size l)))
         (if maxLineLength st <? len then len else maxLineLength st)
         (<[Z.to_nat (number 16 (ml_hex l)) := true]> (hasBIN st)).


Section Shape.

Variable g_options : Options.

(** [well_shaped], field by field *)
Record shape (l : manifest_line) : Prop := mkShape {
  shape_prefix : forallb plain (ml_prefix l) = true;
  shape_name : forallb plain (ml_name l) = true;
  shape_marker : occurs_within (lit "files/") (ml_prefix l) (lit "files/" ++ ml_name l) = false;
  shape_hex_length : length (ml_hex l) = 8%nat;
  shape_hex : forallb (is_digit 16) (ml_hex l) = true;
  shape_offset : decimal_field (ml_offset l) = true;
  shape_size : decimal_field (ml_size l) = true;
  shape_unk : decimal_field (ml_unk l) = true;
  shape_line : (length (render_line l) < MAX_LINE_LENGTH)%nat;
  shape_link : (length (downloadURL g_options ++ downloadPath g_options ++ ml_path l)
                < MAX_URL_LENGTH)%nat
}.


End Shape.

(** ** Reading a command line *)

(** The command line as [main] reads it: an option with its value, a
    switch, or any other word. *)
Inductive argument : Type :=
| ArgURL (value : list ascii)
| ArgPath (value : list ascii)
| ArgVersion (value : list ascii)
| ArgDest (value : list ascii)
| ArgIndividual
| ArgRemove
| ArgKeep
| ArgOther (word : list ascii).

Definition render_argument (a : argument) : list (list ascii) :=
  match a with
  | ArgURL value => [lit "-u"; value]
  | ArgPath value => [lit "-p"; value]
  | ArgVersion value => [lit "-v"; value]
  | ArgDest value => [lit "-d"; value]
  | ArgIndividual => [lit "-i"]
  | ArgRemove => [lit "-r"]
  | ArgKeep => [lit "-k"]
  | ArgOther word => [word]
  end.

Definition option_words : list (list ascii) :=
  [lit "-u"; lit "-p"; lit "-v"; lit "-d"; lit "-h"; lit "-i"; lit "-r"; lit "-k"].

Definition no_NUL (text : list ascii) : bool :=
  forallb (fun x => negb (ascii_eqb x NUL)) text.

(** a value fits the 64 bytes of its field; another word is not one of
    the options *)
Definition argument_ok (a : argument) : bool :=
  match a with
  | ArgURL value | ArgPath value | ArgVersion value => (length value <? 64)%nat
  | ArgDest value => (length value <? 64)%nat && no_NUL value
  | ArgOther word => negb (bool_decide (word ∈ option_words))
  | _ => true
  end.

Definition apply_argument (s : Options * bool) (a : argument) : Options * bool :=
  let '(o, has) := s in
  match a with
  | ArgURL value => (with_downloadURL value o, has)
  | ArgPath value => (with_downloadPath value o, has)
  | ArgVersion value => (with_gameVersion value o, true)
  | ArgDest value => (with_destFolder (map (replaced "\"%char "/"%char) value) o, has)
  | ArgIndividual => (with_useBINFiles false o, has)
  | ArgRemove => (with_removeExistingFiles true o, has)
  | ArgKeep => (with_keepBINFiles true o, has)
  | ArgOther _ => (o, has)
  end.

(** what reading an argument prints *)
Definition reported (a : argument) : list event :=
  match a with
  | ArgOther word =>
      if bool_decide (head word = Some "-"%char)
      then [EPrintf (lit "Unknown option " ++ word ++ [LF])] else []
  | _ => []
  end.

Definition slashes (text : list ascii) : nat :=
  length (List.filter (fun c => ascii_eqb c "/"%char) text).

Definition no_slash (text : list ascii) : bool :=
  forallb (fun x => negb (ascii_eqb x "/"%char)) text.

Definition bar_text : list ascii := lit "===================================>".

(** the run from [w] to [w'] has printed, and done nothing else *)
Definition only_printed (w w' : world) : Prop :=
  exists texts, w' = set_trace (trace w ++ map EPrintf texts) w.

Section Archives.

Variable E : environment.
Variable g_options : Options.

(** the name of the archive [i] (line 565) *)
Definition BINName (i : Z) : list ascii := lit "BIN_0x" ++ fmt_08x i.

(** the entry that lines 566-572 build for the archive [i] *)
Definition archive_entry (i : Z) : FileArchiveEntry.t :=
  FileArchiveEntry.mk (release_url g_options (BINName i))
                      (destFolder g_options ++ lit "/" ++ BINName i).

(** the identifiers among [ids] that are marked in [hasBIN] *)
Definition marked (hasBIN : list bool) (ids : list Z) : list Z :=
  List.filter (fun i => default false (hasBIN !! Z.to_nat i)) ids.

End Archives.

(** the sum of the size fields of the lines *)
Definition listed_bytes (ls : list manifest_line) : Z :=
  fold_right Z.add 0 (map (fun l => number 10 (ml_size l)) ls).

(** the length of the longest line *)
Definition longest_line (ls : list manifest_line) : Z :=
  fold_right Z.max 0 (map (fun l => Z.of_nat (length (render_line l))) ls).

(** [z / 2^j] printed with [k] digits behind the point, rounded to nearest
    (ties to even) *)
Definition fixed (k : nat) (z j : Z) : list ascii :=
  let q := div_rne (z * 10 ^ Z.of_nat k) (2 ^ j) in
  fmt_d (q / 10 ^ Z.of_nat k) ++ lit "." ++ dec_digits k (q mod 10 ^ Z.of_nat k).

Section RunSpec.

Variable E : environment.
Variable g_options : Options.

(** the files after [download_BIN_archive] for an archive that is absent
    (fetched in full), shorter than the remote one (completed), or neither
    (left alone), when existing files are kept *)
Definition fetched (fs : gmap (list ascii) (list ascii)) (a : FileArchiveEntry.t)
  : gmap (list ascii) (list ascii) :=
  let name := FileArchiveEntry.fileName a in
  let link := FileArchiveEntry.link a in
  match fs !! name with
  | None => <[name := http_body E link 0]> fs
  | Some old =>
      let localSize := u32 (Z.of_nat (length old)) in
      if localSize <? u32 (content_length E link)
      then <[name := old ++ http_body E link localSize]> fs
      else fs
  end.





(** the lists, the number of files counted and the idle handle are as
    before *)
Definition keeps_lists (w w' : world) : Prop :=
  g_fileList w' = g_fileList w /\ g_fileArchiveList w' = g_fileArchiveList w /\
  numFilesInPackageManifest (g_stats w') = numFilesInPackageManifest (g_stats w) /\
  (handle_idle (g_CURL w) -> handle_idle (g_CURL w')).

(** an archive that is on disk and not shorter than the remote one:
    [download_BIN_archive] makes no transfer for it *)
Definition up_to_date (fs : gmap (list ascii) (list ascii)) (a : FileArchiveEntry.t) : Prop :=
  exists old,
    fs !! FileArchiveEntry.fileName a = Some old /\
    u32 (content_length E (FileArchiveEntry.link a)) <= u32 (Z.of_nat (length old)).


End RunSpec.




Section IndividualSpec.

Variable E : environment.
Variable g_options : Options.


End IndividualSpec.

(** files, lists, handle and the number of files counted are the same in
    both worlds: so it is across the steps of lines 578-592 between the
    loops *)
Definition same_store (w w' : world) : Prop :=
  files w' = files w /\ g_fileList w' = g_fileList w /\
  g_fileArchiveList w' = g_fileArchiveList w /\ g_CURL w' = g_CURL w /\
  numFilesInPackageManifest (g_stats w') = numFilesInPackageManifest (g_stats w).

(** ** Bounds and exact values of floating-point numbers *)

(** the value of [a] is at most [Y]: [m * 2^s <= Y] *)
Definition at_most (a : fval) (Y : Z) : Prop :=
  exists m s, a = FFin m s /\ 0 <= m /\ m * up s <= Y * up (- s).

(** the value of [a] is positive and at least [Y] *)
Definition at_least (a : fval) (Y : Z) : Prop :=
  exists m s, a = FFin m s /\ 0 < m /\ Y * up (- s) <= m * up s.

(** the value of [a] is at most [N / D] *)
Definition at_most_ratio (a : fval) (N D : Z) : Prop :=
  exists m s, a = FFin m s /\ 0 <= m /\ m * up s * D <= N * up (- s).

(** a value [z / 2^k] held exactly in a [double] *)
Definition dyadic (z k : Z) : fval :=
  FFin (z * 2 ^ (52 - Z.log2 z)) (Z.log2 z - 52 - k).

(** [z / 1024 / ... / 1024] as the program computes it *)
Fixpoint scaled_down (i : nat) (z : Z) : fval :=
  match i with
  | O => f_of_Z DBL z
  | S i' => fdiv DBL (scaled_down i' z) KiB
  end.

(** ** Example data *)

(** an environment in which nothing fails: the server delivers [body]
    from the offset asked for and reports its length, the decompressor
    copies, memory is granted and holds question marks, writes succeed,
    the console has 80 columns *)
Definition plain_environment (body : list ascii) : environment :=
  mkEnvironment (fun _ => Z.of_nat (length body))
                (fun _ from => skipn (Z.to_nat from) body)
                (fun source => source)
                (fun _ => true)
                (repeat "?"%char 64)
                (fun _ data => length data)
                (fun _ => 80).

Definition default_options : Options :=
  mkOptions true false false (lit "l3cdn.riotgames.com") (lit "/releases/live")
            (lit "0.0.0.130") (lit "lol").

Definition idle_CURL : CURL := mkCURL [] false false 0 None.

Definition world_with (fs : gmap (list ascii) (list ascii)) : world :=
  mkWorld fs idle_CURL [] [] (mkStatistics 0 0 0 0) zero_progress [].


Definition example_prefix : list ascii :=
  lit "/projects/lol_game_client/releases/0.0.0.130/".

(** two files, in the archives 0 and 31 *)
Definition example_lines : list manifest_line :=
  [mkLine example_prefix (lit "DATA/a.txt.compressed") (lit "00000000")
          (lit "0") (lit "10") (lit "0");
   mkLine example_prefix (lit "lol.dll.compressed") (lit "0000001f")
          (lit "10") (lit "20") (lit "0")].

(** a line that names the archive 32 *)
Definition example_bad_line : manifest_line :=
  mkLine example_prefix (lit "fx.bin.compressed") (lit "00000020")
         (lit "30") (lit "5") (lit "0").

(** a file of five bytes, held in the archive 0 from byte 10 on *)
Definition example_archive_line : manifest_line :=
  mkLine example_prefix (lit "DATA/a.txt.compressed") (lit "00000000")
         (lit "10") (lit "5") (lit "0").


(** the same file as an entry *)
Definition example_entry : FileEntry.t :=
  FileEntry.mk (lit "http://host/a.txt.compressed") (lit "lol/a.txt.compressed") 0 10 5 0.

(** the archive 0 and one more file on disk *)
Definition example_world : world :=
  world_with {[ lit "lol/BIN_0x00000000" := lit "0123456789abcde";
                lit "lol/notes" := lit "kept" ]}.

(** the default options, with single files asked for (-i) *)
Definition individual_options : Options :=
  mkOptions false false false (lit "l3cdn.riotgames.com") (lit "/releases/live")
            (lit "0.0.0.130") (lit "lol").

(** ** Symbolic execution

    Only the definitions of the embedding are unfolded, never the maps and
    lists of the library. *)
Ltac run_prog :=
  cbv beta iota zeta delta
    [pbind pret pstop plift update emit printf curl_easy_setopt
     set_files set_CURL set_fileList set_fileArchiveList set_stats
     set_progressData set_trace
     with_URL with_NOPROGRESS with_NOBODY with_RESUME_FROM with_WRITEDATA
     with_bytesAlreadyDownloaded
     files g_CURL g_fileList g_fileArchiveList g_stats g_progressData trace
     CURLOPT_URL CURLOPT_NOPROGRESS CURLOPT_NOBODY CURLOPT_RESUME_FROM CURLOPT_WRITEDATA
     timeOld bytesOld avgSpeedInBytesPerSecond bytesAlreadyDownloaded
     fopen_wb fopen_ab write_at append_file remove file_exists file_size
     make_path make_parent contents curl_easy_perform file_size_remote
     zero_progress fst snd negb
     FileArchiveEntry.fileName FileArchiveEntry.link
     FileEntry.fileName FileEntry.link FileEntry.BIN FileEntry.offsetInBIN
     FileEntry.size FileEntry.unk].

(** the binds of [parse_line], one after the other *)
Ltac step_binds :=
  repeat match goal with
         | |- match rbind ?r _ with _ => _ end =>
             destruct r; cbn [rbind]; [|exact I]
         end.

(** the comparisons of an argument with the options *)
Ltac decide_words :=
  repeat (rewrite bool_decide_eq_false_2 by (vm_compute; discriminate));
  try (rewrite bool_decide_eq_true_2 by reflexivity).

(** lookups in a map built by inserting and deleting at known paths *)
Ltac lookup_files :=
  repeat first
    [ rewrite lookup_delete_eq
    | rewrite lookup_insert_eq
    | rewrite lookup_delete_ne by congruence
    | rewrite lookup_insert_ne by congruence ].

(** two maps that differ at [a] and [b] at most *)
Ltac same_files a b :=
  apply map_eq; let p := fresh "p" in intros p;
  destruct (decide (p = a)) as [->|?];
  [lookup_files; try reflexivity
  |destruct (decide (p = b)) as [->|?]; lookup_files; try reflexivity].

(** equations between products of powers of two *)
Ltac pow_eq :=
  rewrite <- ?Z.pow_add_r by lia; first [reflexivity | f_equal; lia].

(** * Theorems *)

(** ** ProgressEstimator *)

Lemma fround_is_finite prec n d : is_finite (fround prec n d) = true.
Proof.
  unfold fround. destruct (n =? 0); [reflexivity|].
  destruct (round_pos prec (Z.abs n) d). reflexivity.
Qed.

Lemma div_rne_lower n d : n / d <= div_rne n d.
Proof.
  unfold div_rne.
  destruct (2 * (n mod d) <? d); [lia|].
  destruct (d <? 2 * (n mod d)); [lia|].
  destruct (Z.even (n / d)); lia.
Qed.

Lemma f_of_Z_positive prec z :
  0 < prec -> 0 < z -> exists m e, f_of_Z prec z = FFin m e /\ 0 < m.
Proof.
  intros Hp Hz. unfold f_of_Z, fround.
  destruct (Z.eqb_spec z 0) as [->|_]; [lia|].
  rewrite Z.abs_eq, Z.sgn_pos by lia.
  unfold round_pos. change (Z.log2 1) with 0. rewrite Z.sub_0_r.
  pose proof (Z.log2_nonneg z) as Hl.
  pose proof (Z.log2_spec z Hz) as [Hlo _].
  assert (Hup : up (Z.log2 z) = 2 ^ Z.log2 z) by (unfold up; f_equal; lia).
  assert (Hdn : up (- Z.log2 z) = 1) by (unfold up; replace (Z.max 0 (- Z.log2 z)) with 0 by lia; reflexivity).
  rewrite Hup, Hdn.
  destruct (Z.leb_spec (1 * 2 ^ Z.log2 z) (z * 1)) as [_|Hbad]; [|lia].
  set (s := Z.log2 z - (prec - 1)).
  eexists _, _. split; [reflexivity|].
  rewrite Z.mul_1_l.
  eapply Z.lt_le_trans; [|apply div_rne_lower].
  unfold up.
  destruct (Z.le_gt_cases s 0) as [Hs|Hs].
  - replace (Z.max 0 s) with 0 by lia. rewrite Z.mul_1_l.
    change (2 ^ 0) with 1. rewrite Z.div_1_r.
    assert (0 < 2 ^ Z.max 0 (- s)) by (apply Z.pow_pos_nonneg; lia). nia.
  - replace (Z.max 0 (- s)) with 0 by lia. replace (Z.max 0 s) with s by lia.
    change (2 ^ 0) with 1. rewrite Z.mul_1_r, Z.mul_1_l.
    assert (2 ^ s <= z).
    { etransitivity; [|exact Hlo]. apply Z.pow_le_mono_r; lia. }
    assert (0 < 2 ^ s) by (apply Z.pow_pos_nonneg; lia).
    apply Z.div_str_pos. lia.
Qed.

Lemma f_of_Z_zero prec : f_of_Z prec 0 = FFin 0 0.
Proof. reflexivity. Qed.

Lemma f_of_Z_is_finite prec z : exists m e, f_of_Z prec z = FFin m e.
Proof.
  pose proof (fround_is_finite prec z 1) as H. unfold f_of_Z.
  destruct (fround prec z 1); try discriminate. eauto.
Qed.

Lemma clamp_total_positive t : 1 <= clamp_total t.
Proof. unfold clamp_total. destruct (Z.ltb_spec t 1); lia. Qed.

Lemma fraction_is_finite now total : 1 <= total -> is_finite (fraction now total) = true.
Proof.
  intros Ht. unfold fraction.
  destruct (f_of_Z_is_finite FLT now) as (ma & ea & ->).
  destruct (f_of_Z_positive FLT total) as (mb & eb & -> & Hm); [reflexivity|lia|].
  unfold fdiv. destruct (Z.eqb_spec mb 0); [lia|]. apply fround_is_finite.
Qed.

Lemma fdiv_by_zero prec a : is_finite (fdiv prec a (f_of_Z prec 0)) = false.
Proof.
  rewrite f_of_Z_zero. destruct a as [m e| |]; simpl; try reflexivity.
  destruct (m =? 0); reflexivity.
Qed.

Lemma f_to_int_not_finite lo hi v : is_finite v = false -> f_to_int lo hi v = Stop UndefinedBehaviour.
Proof. destruct v; simpl; congruence. Qed.

(** C5 (the code departs from the claim).  The claim: with an average
    speed of zero the ETA computation is guarded and renders a sentinel.
    The code: [build_ETA_string] divides by the speed it is given; for a
    speed of zero the quotient is an infinity or NaN, whose conversion to
    [int] is undefined, whatever the byte counts.  This is what the first
    callback of a transfer meets: no byte yet, so the measured speed and
    the average are zero. *)
Theorem build_ETA_string_zero_speed :
  (forall bytesTotal bytesNow,
      is_finite (fdiv FLT (f_of_Z FLT (u32 (bytesTotal - bytesNow))) (f_of_Z FLT 0)) = false /\
      build_ETA_string bytesTotal bytesNow 0 = Stop UndefinedBehaviour) /\
  sample_speed zero_progress 0 0 5000 = Ret (Some (mkProgressData 5000 0 0 0, 0)) /\
  progress_callback zero_progress 0 0 5000 = Stop UndefinedBehaviour.
Proof.
  split; [|split; vm_compute; reflexivity].
  intros bytesTotal bytesNow. split; [apply fdiv_by_zero|].
  unfold build_ETA_string, f_to_i32.
  rewrite f_to_int_not_finite by apply fdiv_by_zero. reflexivity.
Qed.

(** *** Rounding *)

Lemma div_rne_error n d :
  0 <= n -> 0 < d -> 0 <= div_rne n d /\ 2 * Z.abs (div_rne n d * d - n) <= d.
Proof.
  intros Hn Hd. unfold div_rne.
  pose proof (Z.div_mod n d ltac:(lia)) as Hdm.
  pose proof (Z.mod_pos_bound n d Hd) as Hr.
  assert (0 <= n / d) by (apply Z.div_pos; lia).
  destruct (Z.ltb_spec (2 * (n mod d)) d); [split; [lia|nia]|].
  destruct (Z.ltb_spec d (2 * (n mod d))); [split; [lia|nia]|].
  destruct (Z.even (n / d)); split; try lia; nia.
Qed.

Lemma div_rne_scale n d a : 0 < d -> 0 < a -> div_rne (n * a) (d * a) = div_rne n d.
Proof.
  intros Hd Ha. unfold div_rne.
  rewrite Z.div_mul_cancel_r, Z.mul_mod_distr_r by lia.
  replace (2 * (n mod d * a) <? d * a) with (2 * (n mod d) <? d)
    by (destruct (Z.ltb_spec (2 * (n mod d)) d), (Z.ltb_spec (2 * (n mod d * a)) (d * a));
        try reflexivity; nia).
  replace (d * a <? 2 * (n mod d * a)) with (d <? 2 * (n mod d))
    by (destruct (Z.ltb_spec d (2 * (n mod d))), (Z.ltb_spec (d * a) (2 * (n mod d * a)));
        try reflexivity; nia).
  reflexivity.
Qed.

Lemma div_rne_one n : div_rne n 1 = n.
Proof. unfold div_rne. rewrite Z.div_1_r, Z.mod_1_r. reflexivity. Qed.

Lemma div_rne_exact n d : 0 < d -> div_rne (n * d) d = n.
Proof.
  intros Hd. rewrite <- (Z.mul_1_l d) at 2. rewrite div_rne_scale by lia.
  apply div_rne_one.
Qed.

Lemma up_nonneg k : 0 <= k -> up k = 2 ^ k.
Proof. intros H. unfold up. f_equal. lia. Qed.

Lemma up_nonpos k : k <= 0 -> up k = 1.
Proof. intros H. unfold up. replace (Z.max 0 k) with 0 by lia. reflexivity. Qed.

Lemma fround_pow2 prec n k :
  0 < n -> 0 <= k ->
  fround prec n (2 ^ k) = FFin (mantissa prec n) (Z.log2 n - prec + 1 - k).
Proof.
  intros Hn Hk. unfold fround.
  destruct (Z.eqb_spec n 0); [lia|].
  rewrite Z.abs_eq, Z.sgn_pos by lia.
  unfold round_pos. cbv beta iota zeta. rewrite Z.mul_1_l, Z.log2_pow2 by lia.
  pose proof (Z.log2_spec n Hn) as [Hlo _].
  pose proof (Z.log2_nonneg n) as Hl.
  assert (Htest : 2 ^ k * up (Z.log2 n - k) <= n * up (- (Z.log2 n - k))).
  { destruct (Z.le_gt_cases k (Z.log2 n)).
    - rewrite up_nonneg, up_nonpos by lia. rewrite <- Z.pow_add_r by lia.
      replace (k + (Z.log2 n - k)) with (Z.log2 n) by lia. lia.
    - rewrite up_nonpos, up_nonneg by lia.
      assert (2 ^ k = 2 ^ Z.log2 n * 2 ^ (- (Z.log2 n - k))) as ->
          by (rewrite <- Z.pow_add_r by lia; f_equal; lia).
      assert (0 < 2 ^ (- (Z.log2 n - k))) by (apply Z.pow_pos_nonneg; lia). nia. }
  destruct (Z.leb_spec (2 ^ k * up (Z.log2 n - k)) (n * up (- (Z.log2 n - k)))); [|lia].
  f_equal; [|lia].
  set (t := Z.log2 n - prec + 1).
  replace (Z.log2 n - k - (prec - 1)) with (t - k) by lia.
  unfold mantissa. fold t.
  destruct (Z.leb_spec t 0) as [Ht|Ht].
  - rewrite up_nonneg, up_nonpos by lia. rewrite Z.mul_1_r.
    replace (- (t - k)) with (- t + k) by lia. rewrite Z.pow_add_r by lia.
    rewrite Z.mul_assoc. apply div_rne_exact. apply Z.pow_pos_nonneg; lia.
  - destruct (Z.le_gt_cases k t).
    + rewrite up_nonpos, up_nonneg by lia. rewrite Z.mul_1_r, <- Z.pow_add_r by lia.
      do 2 f_equal. lia.
    + rewrite up_nonneg, up_nonpos by lia. rewrite Z.mul_1_r.
      assert (2 ^ k = 2 ^ t * 2 ^ (- (t - k))) as ->
          by (rewrite <- Z.pow_add_r by lia; f_equal; lia).
      apply div_rne_scale; apply Z.pow_pos_nonneg; lia.
Qed.


(** *** The smoothed speed *)

























(** ** TransferManager *)

Section TransferDecision.
Variable E : environment.
Variable g_options : Options.

Lemma download_BIN_archive_decision w entry :
  removeExistingFiles g_options = false ->
  handle_idle (g_CURL w) ->
  decision_made E (FileArchiveEntry.fileName entry) (FileArchiveEntry.link entry)
    (made_parent (FileArchiveEntry.fileName entry))
    (lit "[INFO]: Resuming download of " ++ FileArchiveEntry.fileName entry ++ [LF])
    (lit "[INFO]: " ++ FileArchiveEntry.fileName entry ++
     lit " already exists, skipping download" ++ [LF])
    (lit "[WARNING]: Local " ++ FileArchiveEntry.fileName entry ++
     lit " is bigger than remote file" ++ [LF])
    w (download_BIN_archive E g_options entry w).
Proof.
  intros Hkeep [Hbody Hfrom].
  destruct entry as [link fileName]. destruct w as [fs c fl al st pd tr].
  destruct c as [url np nb rf wd]. cbn in Hbody, Hfrom. subst nb rf.
  unfold decision_made, download_BIN_archive, made_parent. rewrite Hkeep. run_prog.
  destruct (fs !! fileName) as [old|] eqn:Hold.
  - rewrite bool_decide_true by eauto. run_prog. rewrite !Hold.
    destruct (u32 (Z.of_nat (length old)) <? u32 (content_length E link)).
    + run_prog. rewrite ?Hold. rewrite lookup_insert_eq, insert_insert_eq, <- !app_assoc. auto.
    + destruct (u32 (Z.of_nat (length old)) =? u32 (content_length E link));
        run_prog; rewrite <- !app_assoc; auto.
  - rewrite bool_decide_false by (intros [? ?]; discriminate). run_prog.
    destruct (cut_at_last fileName "/") as [dir|]; run_prog;
      rewrite lookup_insert_eq, insert_insert_eq, <- ?app_assoc; auto.
Qed.

Lemma main_download_packagemanifest_decision w :
  handle_idle (g_CURL w) ->
  decision_made E (packagemanifestPath g_options) (packagemanifestURL g_options)
    [EPrintf (lit "[INFO]: packagemanifest not found, downloading it..." ++ [LF])]
    (lit "[INFO]: Resuming download of packagemanifest" ++ [LF])
    (lit "[INFO]: packagemanifest already exists, skipping download" ++ [LF])
    (lit "[WARNING]: Local packagemanifest is bigger than remote packagemanifest" ++ [LF])
    w (main_download_packagemanifest E g_options w).
Proof.
  intros [Hbody Hfrom].
  destruct w as [fs c fl al st pd tr].
  destruct c as [url np nb rf wd]. cbn in Hbody, Hfrom. subst nb rf.
  unfold decision_made, main_download_packagemanifest.
  generalize (packagemanifestPath g_options) (packagemanifestURL g_options).
  intros fileName link. run_prog.
  destruct (fs !! fileName) as [old|] eqn:Hold.
  - rewrite bool_decide_true by eauto. run_prog. rewrite !Hold.
    destruct (u32 (Z.of_nat (length old)) <? u32 (content_length E link)).
    + run_prog. rewrite Hold, lookup_insert_eq, insert_insert_eq, <- !app_assoc. auto.
    + destruct (u32 (Z.of_nat (length old)) =? u32 (content_length E link));
        run_prog; rewrite <- !app_assoc; auto.
  - rewrite bool_decide_false by (intros [? ?]; discriminate). run_prog.
    rewrite lookup_insert_eq, insert_insert_eq, <- ?app_assoc; auto.
Qed.

(** Both paths hand the handle back as they found it. *)
Lemma download_BIN_archive_idle w entry :
  handle_idle (g_CURL w) ->
  handle_idle (g_CURL (snd (download_BIN_archive E g_options entry w))).
Proof.
  intros [Hbody Hfrom].
  destruct entry as [link fileName]. destruct w as [fs c fl al st pd tr].
  destruct c as [url np nb rf wd]. cbn in Hbody, Hfrom. subst nb rf.
  unfold handle_idle, download_BIN_archive. run_prog.
  destruct (bool_decide _); run_prog.
  - destruct (removeExistingFiles g_options); run_prog; [split; reflexivity|].
    destruct (_ <? _); run_prog; [split; reflexivity|].
    destruct (_ =? _); run_prog; split; reflexivity.
  - destruct (cut_at_last fileName "/"); run_prog; split; reflexivity.
Qed.

Lemma main_download_packagemanifest_idle w :
  handle_idle (g_CURL w) ->
  handle_idle (g_CURL (snd (main_download_packagemanifest E g_options w))).
Proof.
  intros [Hbody Hfrom]. destruct w as [fs c fl al st pd tr].
  destruct c as [url np nb rf wd]. cbn in Hbody, Hfrom. subst nb rf.
  unfold handle_idle, main_download_packagemanifest. run_prog.
  destruct (bool_decide _); run_prog; [|split; reflexivity].
  destruct (_ <? _); run_prog; [split; reflexivity|].
  destruct (_ =? _); run_prog; split; reflexivity.
Qed.

(** C1.  For the archive path and for the manifest path, when removal of
    existing files is not requested: an absent destination is fetched in
    full; an existing one of [local] bytes against [remote] bytes is
    resumed from byte [local], with the already-downloaded counter of the
    progress state set to [local], when [local < remote]; is reported as
    existing and skipped when [local = remote]; and is reported as bigger
    and left as it is when [local > remote].  [local] is what [file_size]
    returns, [remote] what [file_size_remote] returns. *)
Theorem resumable_transfer_decision (w : world) (entry : FileArchiveEntry.t) :
  removeExistingFiles g_options = false ->
  handle_idle (g_CURL w) ->
  decision_made E (FileArchiveEntry.fileName entry) (FileArchiveEntry.link entry)
    (made_parent (FileArchiveEntry.fileName entry))
    (lit "[INFO]: Resuming download of " ++ FileArchiveEntry.fileName entry ++ [LF])
    (lit "[INFO]: " ++ FileArchiveEntry.fileName entry ++
     lit " already exists, skipping download" ++ [LF])
    (lit "[WARNING]: Local " ++ FileArchiveEntry.fileName entry ++
     lit " is bigger than remote file" ++ [LF])
    w (download_BIN_archive E g_options entry w) /\
  decision_made E (packagemanifestPath g_options) (packagemanifestURL g_options)
    [EPrintf (lit "[INFO]: packagemanifest not found, downloading it..." ++ [LF])]
    (lit "[INFO]: Resuming download of packagemanifest" ++ [LF])
    (lit "[INFO]: packagemanifest already exists, skipping download" ++ [LF])
    (lit "[WARNING]: Local packagemanifest is bigger than remote packagemanifest" ++ [LF])
    w (main_download_packagemanifest E g_options w).
Proof.
  intros Hkeep Hidle. split.
  - apply download_BIN_archive_decision; assumption.
  - apply main_download_packagemanifest_decision, Hidle.
Qed.

End TransferDecision.

Lemma resumable_transfer_decision_witness :
  let E := plain_environment (lit "0123456789") in
  let entry := FileArchiveEntry.mk (lit "http://host/BIN_0x00000000")
                                   (lit "lol/BIN_0x00000000") in
  let w := world_with {[ lit "lol/BIN_0x00000000" := lit "012" ]} in
  removeExistingFiles default_options = false /\
  handle_idle (g_CURL w) /\
  decision_made E (lit "lol/BIN_0x00000000") (lit "http://host/BIN_0x00000000")
    (made_parent (lit "lol/BIN_0x00000000"))
    (lit "[INFO]: Resuming download of " ++ lit "lol/BIN_0x00000000" ++ [LF])
    (lit "[INFO]: " ++ lit "lol/BIN_0x00000000" ++
     lit " already exists, skipping download" ++ [LF])
    (lit "[WARNING]: Local " ++ lit "lol/BIN_0x00000000" ++
     lit " is bigger than remote file" ++ [LF])
    w (download_BIN_archive E default_options entry w) /\
  trace (snd (download_BIN_archive E default_options entry w)) =
    [EProbe (lit "http://host/BIN_0x00000000");
     EPrintf (lit "[INFO]: Resuming download of lol/BIN_0x00000000" ++ [LF]);
     EFopen (lit "lol/BIN_0x00000000") (lit "ab");
     ETransfer (lit "http://host/BIN_0x00000000") 3 (Some (lit "lol/BIN_0x00000000"))
               (mkProgressData 0 0 0 3) false] /\
  files (snd (download_BIN_archive E default_options entry w)) !! lit "lol/BIN_0x00000000"
  = Some (lit "0123456789").
Proof.
  intros E entry w.
  split; [reflexivity|]. split; [split; reflexivity|].
  split.
  - exact (proj1 (resumable_transfer_decision E default_options w entry eq_refl
                    (conj eq_refl eq_refl))).
  - split; vm_compute; reflexivity.
Defined.

(** C4 (the code departs from the claim).  The claim: a read of fewer
    than [size] bytes is detected and the file abandoned with a
    diagnostic.  The code tests the result of [fread] against zero only.
    Here the archive holds fifteen bytes and twenty are asked for from
    offset ten: five bytes are read, no diagnostic is printed, twenty bytes
    (the five and fifteen bytes of uninitialised memory) are written and
    decompressed into the final file. *)
Theorem short_read_goes_unnoticed :
  let entry := FileEntry.mk (lit "http://host/a.txt.compressed") (lit "lol/a.txt.compressed")
                            0 10 20 0 in
  let w := world_with {[ lit "lol/BIN_0x00000000" := lit "0123456789abcde" ]} in
  let out := extract_from_BIN (plain_environment []) default_options entry w in
  fst out = Ret tt /\
  trace (snd out) =
    [EMakePath (lit "lol");
     EFopen (lit "lol/a.txt.compressed") (lit "wb");
     EFopen (lit "lol/a.txt") (lit "wb");
     EFread (lit "lol/BIN_0x00000000") 10 20 5;
     EFwrite (lit "lol/a.txt.compressed") 20 20;
     EInflate (lit "lol/a.txt.compressed") (lit "lol/a.txt");
     ERemove (lit "lol/a.txt.compressed")] /\
  files (snd out) !! lit "lol/a.txt" = Some (lit "abcde???????????????").
Proof. vm_compute. repeat split. Qed.

(** C3 as stated fails: a compressed file of 3 bytes is on disk and the
    server has 10.  The archive path resumes from byte 3; the
    individual-file path makes no transfer at all. *)
Lemma uniform_decision_as_stated_fails :
  let E := plain_environment (lit "0123456789") in
  let entry := FileEntry.mk (lit "http://host/a.txt.compressed")
                            (lit "lol/a.txt.compressed") 0 0 10 0 in
  let archive := FileArchiveEntry.mk (FileEntry.link entry) (FileEntry.fileName entry) in
  let w := world_with {[ lit "lol/a.txt.compressed" := lit "012" ]} in
  transfers (trace (snd (download_BIN_archive E default_options archive w))) =
    [ETransfer (lit "http://host/a.txt.compressed") 3 (Some (lit "lol/a.txt.compressed"))
               (mkProgressData 0 0 0 3) false] /\
  transfers (trace (snd (download_individual_file E default_options entry w))) = [] /\
  ~ uniform_decision_as_stated.
Proof.
  intros E entry archive w.
  split; [vm_compute; reflexivity|]. split; [vm_compute; reflexivity|].
  intros H.
  specialize (H E default_options w entry eq_refl (conj eq_refl eq_refl)).
  vm_compute in H. discriminate H.
Qed.

Section TransferLemmas.
Variable E : environment.
Variable g_options : Options.

Lemma transfers_app t1 t2 : transfers (t1 ++ t2) = transfers t1 ++ transfers t2.
Proof. apply List.filter_app. Qed.

Lemma transfers_made_parent path : transfers (made_parent path) = [].
Proof. unfold made_parent. destruct (cut_at_last path "/"); reflexivity. Qed.

Lemma decision_made_transfers path link a1 r1 s1 g1 a2 r2 s2 g2 w out1 out2 :
  transfers a1 = [] -> transfers a2 = [] ->
  decision_made E path link a1 r1 s1 g1 w out1 ->
  decision_made E path link a2 r2 s2 g2 w out2 ->
  transfers (trace (snd out1)) = transfers (trace (snd out2)) /\
  files (snd out1) = files (snd out2).
Proof.
  intros Ha1 Ha2 [_ H1] [_ H2].
  destruct (files w !! path).
  - destruct (_ <? _).
    + destruct H1 as [-> ->], H2 as [-> ->]. rewrite !transfers_app. split; reflexivity.
    + destruct (_ =? _); destruct H1 as [-> ->], H2 as [-> ->];
        rewrite !transfers_app; split; reflexivity.
  - destruct H1 as [-> ->], H2 as [-> ->].
    rewrite !transfers_app, Ha1, Ha2. split; reflexivity.
Qed.

End TransferLemmas.

Section Resources.
Variable E : environment.
Variable g_options : Options.

Lemma download_individual_file_present w entry :
  removeExistingFiles g_options = false ->
  is_Some (files w !! strip_suffix (FileEntry.fileName entry)) ->
  download_individual_file E g_options entry w = (Ret tt, w).
Proof.
  intros Hkeep Hfound. unfold download_individual_file. run_prog.
  rewrite bool_decide_true by exact Hfound. rewrite Hkeep. reflexivity.
Qed.

Lemma download_individual_file_absent w entry :
  handle_idle (g_CURL w) ->
  files w !! strip_suffix (FileEntry.fileName entry) = None ->
  files w !! FileEntry.fileName entry = None ->
  fst (download_individual_file E g_options entry w) = Ret tt /\
  transfers (trace (snd (download_individual_file E g_options entry w))) =
  transfers (trace w) ++
  [ETransfer (FileEntry.link entry) 0 (Some (FileEntry.fileName entry)) zero_progress
             (CURLOPT_NOPROGRESS (g_CURL w))].
Proof.
  intros [Hbody Hfrom] Hfinal Hname.
  destruct entry as [link fileName bin off size unk]. destruct w as [fs c fl al st pd tr].
  destruct c as [url np nb rf wd]. cbn in Hbody, Hfrom, Hfinal, Hname. subst nb rf.
  unfold download_individual_file, fetch_and_inflate. run_prog.
  rewrite Hfinal.
  rewrite (bool_decide_false (is_Some None)) by (intros [? ?]; discriminate). run_prog.
  rewrite Hname.
  rewrite (bool_decide_false (is_Some None)) by (intros [? ?]; discriminate). run_prog.
  destruct (cut_at_last fileName "/") as [dir|]; run_prog;
    (split; [reflexivity|]); rewrite !transfers_app; cbn [transfers List.filter is_transfer];
    rewrite ?app_nil_r; reflexivity.
Qed.

(** C3 (amended).  When removal of existing files is not requested, the
    manifest path and the archive path make the same decision for the same
    destination and link: the same transfers, the same files afterwards.
    The individual-file path compares no sizes: when the final
    (decompressed) file exists it does nothing at all, and when neither
    the final file nor the compressed file exists it fetches the
    compressed file in full. *)
Theorem transfer_decision_by_resource (w : world) (entry : FileEntry.t) :
  removeExistingFiles g_options = false ->
  handle_idle (g_CURL w) ->
  let manifest :=
    FileArchiveEntry.mk (packagemanifestURL g_options) (packagemanifestPath g_options) in
  let fileName := FileEntry.fileName entry in
  let final := strip_suffix fileName in
  let out := download_individual_file E g_options entry w in
  (transfers (trace (snd (main_download_packagemanifest E g_options w))) =
   transfers (trace (snd (download_BIN_archive E g_options manifest w))) /\
   files (snd (main_download_packagemanifest E g_options w)) =
   files (snd (download_BIN_archive E g_options manifest w))) /\
  (is_Some (files w !! final) -> out = (Ret tt, w)) /\
  (files w !! final = None -> files w !! fileName = None ->
   fst out = Ret tt /\
   transfers (trace (snd out)) =
   transfers (trace w) ++
   [ETransfer (FileEntry.link entry) 0 (Some fileName) zero_progress
              (CURLOPT_NOPROGRESS (g_CURL w))]).
Proof.
  intros Hkeep Hidle manifest fileName final out. split; [|split].
  - eapply decision_made_transfers;
      [| |apply main_download_packagemanifest_decision, Hidle
       |apply (download_BIN_archive_decision E g_options w manifest Hkeep Hidle)].
    + reflexivity.
    + apply transfers_made_parent.
  - apply download_individual_file_present, Hkeep.
  - apply download_individual_file_absent, Hidle.
Qed.

End Resources.

Lemma transfer_decision_by_resource_witness :
  let E := plain_environment (lit "0123456789") in
  let entry := FileEntry.mk (lit "http://host/a.txt.compressed")
                            (lit "lol/a.txt.compressed") 0 0 10 0 in
  let w := world_with {[ lit "lol/packagemanifest" := lit "012" ]} in
  removeExistingFiles default_options = false /\
  handle_idle (g_CURL w) /\
  transfers (trace (snd (main_download_packagemanifest E default_options w))) =
  transfers (trace (snd (download_BIN_archive E default_options
                           (FileArchiveEntry.mk (packagemanifestURL default_options)
                                                (packagemanifestPath default_options)) w))) /\
  transfers (trace (snd (download_individual_file E default_options entry w))) =
  [ETransfer (lit "http://host/a.txt.compressed") 0 (Some (lit "lol/a.txt.compressed"))
             zero_progress false].
Proof.
  intros E entry w.
  pose proof (transfer_decision_by_resource E default_options w entry eq_refl
                (conj eq_refl eq_refl)) as [[Hsame _] [_ Habsent]].
  split; [reflexivity|]. split; [split; reflexivity|].
  split; [exact Hsame|].
  exact (proj2 (Habsent eq_refl eq_refl)).
Defined.


(** ** Extractor *)

Section Extraction.
Variable E : environment.
Variable g_options : Options.

Lemma lookup_two_opened (fs : gmap (list ascii) (list ascii)) a b :
  <[b := []]> (<[a := []]> fs) !! b = Some [] /\
  <[b := []]> (<[a := []]> fs) !! a = Some [].
Proof.
  split; [apply lookup_insert_eq|].
  destruct (decide (b = a)) as [->|Hne]; [apply lookup_insert_eq|].
  rewrite lookup_insert_ne by done. apply lookup_insert_eq.
Qed.

(** C10.  Extraction is not atomic: with the archive present, the
    compressed file and the final file are both opened for writing, and so
    created or truncated, before anything is read from the archive; then
    either the file is extracted, or one of three failures ends the call
    (no staging memory, nothing read, nothing written), and after each of
    the three the final path holds a file of zero length. *)
Theorem extraction_not_atomic (entry : FileEntry.t) (w : world) :
  is_Some (files w !! BIN_file_name g_options (FileEntry.BIN entry)) ->
  let fileName := FileEntry.fileName entry in
  let final := strip_suffix fileName in
  let archive := BIN_file_name g_options (FileEntry.BIN entry) in
  let offset := FileEntry.offsetInBIN entry in
  let size := FileEntry.size entry in
  let out := extract_from_BIN E g_options entry w in
  exists rest,
    fst out = Ret tt /\
    trace (snd out) =
      trace w ++ made_parent fileName ++
      [EFopen fileName (lit "wb"); EFopen final (lit "wb")] ++ rest /\
    ((rest = [EPrintf (lit "[ERROR]: Couldn't allocate memory to extract file: " ++
                       fileName ++ [LF])] /\
      files (snd out) !! final = Some [])
     \/
     (rest = [EFread archive offset size 0;
              EPrintf (lit "[ERROR]: Couldn't read from BIN file: " ++ archive ++ [LF])] /\
      files (snd out) !! final = Some [])
     \/
     (exists n, 0 < n /\
        rest = [EFread archive offset size n; EFwrite fileName size 0;
                EPrintf (lit "[ERROR]: Couldn't write to file: " ++ fileName ++ [LF])] /\
        files (snd out) !! final = Some [])
     \/
     (exists n k, 0 < n /\ 0 < k /\
        rest = [EFread archive offset size n; EFwrite fileName size k;
                EInflate fileName final; ERemove fileName])).
Proof.
  intros Hfound fileName final archive offset size out.
  subst out. unfold extract_from_BIN.
  fold fileName. fold final. fold archive. fold offset. fold size.
  destruct w as [fs c fl al st pd tr]. cbn [files] in Hfound.
  run_prog. rewrite bool_decide_true by exact Hfound. run_prog.
  fold fileName. fold final.
  assert (Hparent : forall tr0 : list event,
             match cut_at_last fileName "/" with
             | Some dir => tr0 ++ [EMakePath dir]
             | None => tr0
             end = tr0 ++ made_parent fileName).
  { intros tr0. unfold made_parent. destruct (cut_at_last fileName "/"); [reflexivity|].
    symmetry; apply app_nil_r. }
  destruct (lookup_two_opened fs fileName final) as [Hfinal Hname].
  destruct (cut_at_last fileName "/") as [dir|] eqn:Hdir; run_prog.
  all: destruct (malloc_succeeds E size); run_prog.
  all: try (eexists; split; [reflexivity|]; split;
            [rewrite <- !app_assoc; unfold made_parent; rewrite Hdir; reflexivity|];
            left; split; [reflexivity|exact Hfinal]).
  all: set (got := take (Z.to_nat size) (drop (Z.to_nat offset) _)).
  all: destruct (Nat.eqb_spec (length got) 0) as [Hgot|Hgot]; run_prog.
  all: try (eexists; split; [reflexivity|]; split;
            [rewrite <- !app_assoc; unfold made_parent; rewrite Hdir; reflexivity|];
            right; left; rewrite Hgot; split; [reflexivity|exact Hfinal]).
  all: set (written := take (fwrite_count E fileName _) _).
  all: destruct (Nat.eqb_spec (length written) 0) as [Hwr|Hwr]; run_prog.
  all: try (eexists; split; [reflexivity|]; split;
            [rewrite <- !app_assoc; unfold made_parent; rewrite Hdir; reflexivity|];
            right; right; right; exists (Z.of_nat (length got)), (Z.of_nat (length written));
            split; [lia|]; split; [lia|reflexivity]).
  all: eexists; split; [reflexivity|]; split;
         [rewrite <- !app_assoc; unfold made_parent; rewrite Hdir; reflexivity|];
         right; right; left; exists (Z.of_nat (length got));
         split; [lia|]; rewrite Hwr; split; [reflexivity|].
  all: rewrite Hname; apply nil_length_inv in Hwr; rewrite Hwr; cbn [take drop app].
  all: destruct (decide (fileName = final)) as [Heq|Hne];
         [rewrite Heq; apply lookup_insert_eq
         |rewrite lookup_insert_ne by exact Hne; exact Hfinal].
Qed.
End Extraction.

Lemma extraction_not_atomic_witness :
  let E := plain_environment [] in
  let entry := FileEntry.mk (lit "http://host/a.txt.compressed")
                            (lit "lol/a.txt.compressed") 0 40 20 0 in
  let w := world_with {[ lit "lol/BIN_0x00000000" := lit "0123456789abcde";
                         lit "lol/a.txt" := lit "an earlier version" ]} in
  is_Some (files w !! BIN_file_name default_options (FileEntry.BIN entry)) /\
  (exists rest,
     trace (snd (extract_from_BIN E default_options entry w)) =
       trace w ++ made_parent (lit "lol/a.txt.compressed") ++
       [EFopen (lit "lol/a.txt.compressed") (lit "wb");
        EFopen (strip_suffix (lit "lol/a.txt.compressed")) (lit "wb")] ++ rest) /\
  files (snd (extract_from_BIN E default_options entry w)) !! lit "lol/a.txt" = Some [].
Proof.
  intros E entry w.
  assert (Hfound : is_Some (files w !! BIN_file_name default_options (FileEntry.BIN entry)))
    by (vm_compute; eauto).
  destruct (extraction_not_atomic E default_options entry w Hfound) as (rest & _ & Htrace & _).
  split; [exact Hfound|]. split; [exists rest; exact Htrace|].
  vm_compute. reflexivity.
Defined.


(** ** ManifestParser *)

(** *** Characters *)

Lemma ascii_eqb_true a b : ascii_eqb a b = true <-> a = b.
Proof. apply Ascii.eqb_eq. Qed.

Lemma ascii_eqb_refl a : ascii_eqb a a = true.
Proof. apply Ascii.eqb_refl. Qed.

Lemma is_digit_alnum base c : is_digit base c = true -> alnum c = true.
Proof.
  unfold is_digit, digit_val, alnum.
  destruct ((48 <=? _) && (_ <=? 57)); [reflexivity|].
  destruct ((97 <=? _) && (_ <=? 122)); [reflexivity|].
  destruct ((65 <=? _) && (_ <=? 90)); [reflexivity|discriminate].
Qed.

Lemma alnum_ordinary c :
  alnum c = true ->
  plain c = true /\ is_space c = false /\
  ascii_eqb c "-" = false /\ ascii_eqb c "+" = false /\
  ascii_eqb c NUL = false /\ ascii_eqb c "," = false /\ ascii_eqb c LF = false.
Proof.
  destruct c as [[] [] [] [] [] [] [] []]; vm_compute; intuition congruence.
Qed.

Lemma plain_spec c :
  plain c = true ->
  ascii_eqb c "," = false /\ ascii_eqb c NUL = false /\ ascii_eqb c LF = false.
Proof.
  unfold plain. destruct (ascii_eqb c ","), (ascii_eqb c NUL), (ascii_eqb c LF);
    simpl; intuition congruence.
Qed.

Lemma digits_plain base t : forallb (is_digit base) t = true -> forallb plain t = true.
Proof.
  rewrite !forallb_forall. intros H c Hc.
  apply alnum_ordinary, (is_digit_alnum base), H, Hc.
Qed.

(** *** C strings *)

Lemma c_str_app t r :
  forallb (fun c => negb (ascii_eqb c NUL)) t = true -> c_str (t ++ NUL :: r) = Some t.
Proof.
  induction t as [|c t IH]; simpl; [reflexivity|].
  intros [Hc Ht]%andb_prop. destruct (ascii_eqb c NUL); [discriminate|].
  rewrite IH by exact Ht. reflexivity.
Qed.

Lemma plain_no_NUL t :
  forallb plain t = true -> forallb (fun c => negb (ascii_eqb c NUL)) t = true.
Proof.
  rewrite !forallb_forall. intros H c Hc. apply H, plain_spec in Hc.
  destruct Hc as (_ & -> & _). reflexivity.
Qed.

Lemma end_token_delim t r :
  forallb plain t = true -> end_token "," (t ++ "," :: r)%char = Some (t, true, r).
Proof.
  induction t as [|c t IH]; simpl; [reflexivity|].
  intros [Hc Ht]%andb_prop. apply plain_spec in Hc as (-> & -> & _).
  rewrite IH by exact Ht. reflexivity.
Qed.

Lemma end_token_NUL t r :
  forallb (fun c => negb (ascii_eqb c NUL) && negb (ascii_eqb c ",")) t = true ->
  end_token "," (t ++ NUL :: r) = Some (t, false, r).
Proof.
  induction t as [|c t IH]; simpl; [reflexivity|].
  intros [Hc Ht]%andb_prop.
  destruct (ascii_eqb c NUL); [discriminate|]. destruct (ascii_eqb c ","); [discriminate|].
  rewrite IH by exact Ht. reflexivity.
Qed.

Lemma strtok_field before c t r :
  forallb plain (c :: t) = true ->
  strtok before (c :: t ++ "," :: r)%char ","
  = Some (mkStrtok (Some (c :: t ++ NUL :: r)) (before ++ (c :: t) ++ [NUL]) r).
Proof.
  intros H. unfold strtok.
  pose proof H as [Hc _]%andb_prop. apply plain_spec in Hc as (Hd & Hn & _).
  cbn [skip_delims]. rewrite Hd, Hn.
  change (c :: t ++ ","%char :: r) with ((c :: t) ++ ","%char :: r).
  rewrite end_token_delim by exact H. reflexivity.
Qed.

Lemma strtok_last before c t r :
  forallb (fun c => negb (ascii_eqb c NUL) && negb (ascii_eqb c ",")) (c :: t) = true ->
  strtok before (c :: t ++ NUL :: r) ","
  = Some (mkStrtok (Some (c :: t ++ NUL :: r)) (before ++ (c :: t)) (NUL :: r)).
Proof.
  intros H. unfold strtok.
  pose proof H as [Hc _]%andb_prop.
  cbn [skip_delims].
  destruct (ascii_eqb c ",") eqn:Hd; [rewrite andb_false_r in Hc; discriminate|].
  destruct (ascii_eqb c NUL) eqn:Hn; [discriminate|].
  change (c :: t ++ NUL :: r) with ((c :: t) ++ NUL :: r).
  rewrite end_token_NUL by exact H. rewrite app_nil_l. reflexivity.
Qed.

(** *** Numbers *)

Lemma digits_app base acc t c r :
  forallb (is_digit base) t = true -> digit_val base c = None ->
  digits base acc (t ++ c :: r) = Some (fold_left (horner base) t acc).
Proof.
  revert acc. induction t as [|d t IH]; intros acc Ht Hc; simpl.
  - rewrite Hc. reflexivity.
  - apply andb_prop in Ht as [Hd Ht]. unfold is_digit in Hd.
    unfold horner at 2. destruct (digit_val base d) as [v|]; [|discriminate].
    simpl. apply IH; assumption.
Qed.

Lemma number_fold base t : number base t = fold_left (horner base) t 0.
Proof. reflexivity. Qed.

Lemma digit_val_range base c v : digit_val base c = Some v -> 0 <= v < base.
Proof.
  unfold digit_val.
  set (n := Z.of_nat (nat_of_ascii c)).
  destruct ((48 <=? n) && (n <=? 57)) eqn:H1.
  { apply andb_prop in H1 as [?%Z.leb_le ?%Z.leb_le].
    destruct (Z.ltb_spec (n - 48) base); [|discriminate]. intros [= <-]. lia. }
  destruct ((97 <=? n) && (n <=? 122)) eqn:H2.
  { apply andb_prop in H2 as [?%Z.leb_le ?%Z.leb_le].
    destruct (Z.ltb_spec (n - 87) base); [|discriminate]. intros [= <-]. lia. }
  destruct ((65 <=? n) && (n <=? 90)) eqn:H3; [|discriminate].
  apply andb_prop in H3 as [?%Z.leb_le ?%Z.leb_le].
  destruct (Z.ltb_spec (n - 55) base); [|discriminate]. intros [= <-]. lia.
Qed.

Lemma fold_horner_bound base t acc :
  0 < base -> forallb (is_digit base) t = true -> 0 <= acc ->
  0 <= fold_left (horner base) t acc < (acc + 1) * base ^ Z.of_nat (length t).
Proof.
  intros Hb. revert acc. induction t as [|d t IH]; intros acc Ht Hacc.
  - simpl. lia.
  - apply andb_prop in Ht as [Hd Ht]. unfold is_digit in Hd.
    destruct (digit_val base d) as [v|] eqn:Hv; [|discriminate].
    apply digit_val_range in Hv as Hr.
    assert (Hstep : horner base acc d = acc * base + v)
      by (unfold horner; rewrite Hv; reflexivity).
    cbn [fold_left length]. rewrite Hstep.
    specialize (IH (acc * base + v) Ht ltac:(nia)).
    rewrite Nat2Z.inj_succ, Z.pow_succ_r by lia.
    assert (0 < base ^ Z.of_nat (length t)) by (apply Z.pow_pos_nonneg; lia).
    split; [lia|]. nia.
Qed.

Lemma number_bound base t :
  0 < base -> forallb (is_digit base) t = true ->
  0 <= number base t < base ^ Z.of_nat (length t).
Proof.
  intros Hb Ht. pose proof (fold_horner_bound base t 0 Hb Ht ltac:(lia)) as H.
  rewrite number_fold. lia.
Qed.

Lemma clamp_long_id z : LONG_MIN <= z <= LONG_MAX -> clamp_long z = z.
Proof. unfold clamp_long. lia. Qed.

Lemma skip_spaces_digit base c p :
  is_digit base c = true -> skip_spaces (c :: p) = c :: p.
Proof.
  intros H%is_digit_alnum%alnum_ordinary. destruct H as (_ & Hs & _).
  simpl. rewrite Hs. reflexivity.
Qed.

Lemma strtol_digits base c t e r :
  (base =? 16) = false \/ is_digit base (hd e t) = true ->
  forallb (is_digit base) (c :: t) = true ->
  digit_val base e = None ->
  strtol (c :: t ++ e :: r) base = Some (clamp_long (number base (c :: t))).
Proof.
  intros Hx Ht He. unfold strtol.
  pose proof Ht as [Hc Ht']%andb_prop.
  rewrite (skip_spaces_digit base) by exact Hc.
  apply is_digit_alnum, alnum_ordinary in Hc as Hc'.
  destruct Hc' as (_ & _ & -> & -> & _).
  assert (Hmag : strtol_magnitude base (c :: t ++ e :: r) = digits base 0 (c :: t ++ e :: r)).
  { unfold strtol_magnitude.
    destruct (t ++ e :: r) as [|c1 p'] eqn:Hp; [reflexivity|].
    destruct (Z.eqb_spec base 16) as [->|_]; [|reflexivity].
    destruct Hx as [Hx|Hx]; [discriminate|].
    assert (Hc1 : c1 = hd e t) by (destruct t; simpl in *; congruence).
    rewrite <- Hc1 in Hx.
    unfold ascii_eqb.
    destruct (Ascii.eqb_spec c1 "x") as [->|_]; [discriminate|].
    destruct (Ascii.eqb_spec c1 "X") as [->|_]; [discriminate|].
    rewrite andb_false_r. reflexivity. }
  rewrite Hmag.
  change (c :: t ++ e :: r) with ((c :: t) ++ e :: r).
  rewrite digits_app by assumption. reflexivity.
Qed.

Lemma i32_id z : - 2 ^ 31 <= z < 2 ^ 31 -> i32 z = z.
Proof. intros H. unfold i32. rewrite Z.mod_small by lia. lia. Qed.

Lemma u32_id z : 0 <= z < 2 ^ 32 -> u32 z = z.
Proof. intros H. unfold u32. apply Z.mod_small. lia. Qed.

Lemma decimal_field_spec t :
  decimal_field t = true ->
  exists c t', t = c :: t' /\ forallb (is_digit 10) (c :: t') = true /\ (0 <= number 10 t < 2 ^ 31).
Proof.
  unfold decimal_field. intros [[Hlen Hd]%andb_prop Hn%Z.ltb_lt]%andb_prop.
  destruct t as [|c t']; [discriminate|].
  exists c, t'. split; [reflexivity|]. split; [exact Hd|].
  pose proof (number_bound 10 (c :: t') ltac:(lia) Hd). lia.
Qed.

Lemma atoi_field t e r :
  decimal_field t = true -> digit_val 10 e = None ->
  atoi (t ++ e :: r) = Some (number 10 t).
Proof.
  intros (c & t' & -> & Hd & Hn)%decimal_field_spec He. unfold atoi.
  change ((c :: t') ++ e :: r) with (c :: t' ++ e :: r).
  rewrite strtol_digits by (auto || assumption).
  cbn [option_map]. rewrite clamp_long_id by (unfold LONG_MIN, LONG_MAX; lia).
  rewrite i32_id by lia. reflexivity.
Qed.

Lemma strtol_hex t r :
  length t = 8%nat -> forallb (is_digit 16) t = true ->
  strtol (t ++ NUL :: r) 16 = Some (number 16 t) /\ (0 <= number 16 t < 2 ^ 32).
Proof.
  intros Hlen Hd.
  pose proof (number_bound 16 t ltac:(lia) Hd) as Hb. rewrite Hlen in Hb.
  change (16 ^ Z.of_nat 8) with (2 ^ 32) in Hb.
  destruct t as [|c [|c1 t']]; try discriminate.
  split; [|exact Hb].
  change ((c :: c1 :: t') ++ NUL :: r) with (c :: (c1 :: t') ++ NUL :: r).
  rewrite strtol_digits; [| |exact Hd|reflexivity].
  - rewrite clamp_long_id by (unfold LONG_MIN, LONG_MAX; lia). reflexivity.
  - right. cbn [hd]. simpl in Hd. apply andb_prop in Hd as [_ [H1 _]%andb_prop]. exact H1.
Qed.

Lemma starts_with_prefix pat p : starts_with pat p = true <-> pat `prefix_of` p.
Proof.
  revert p. induction pat as [|c pat IH]; intros p; simpl.
  - split; [intros _; apply prefix_nil|reflexivity].
  - destruct p as [|d p]; [split; [discriminate|intros H; apply prefix_nil_not in H; contradiction]|].
    rewrite andb_true_iff, ascii_eqb_true, IH. split.
    + intros [-> H]. apply prefix_cons, H.
    + intros H. split; [eapply prefix_cons_inv_1, H|eapply prefix_cons_inv_2, H].
Qed.

Lemma prefix_of_app_fit {A} (pat x y : list A) :
  pat `prefix_of` (x ++ y) -> (length pat <= length x)%nat -> pat `prefix_of` x.
Proof.
  revert x. induction pat as [|c pat IH]; intros x H Hlen; [apply prefix_nil|].
  destruct x as [|d x]; [simpl in Hlen; lia|].
  simpl in H. pose proof (prefix_cons_inv_1 _ _ _ _ H) as ->.
  apply prefix_cons, IH; [eapply prefix_cons_inv_2, H|simpl in Hlen; lia].
Qed.

Lemma strstr_marker pre suf r :
  forallb plain pre = true ->
  occurs_within (lit "files/") pre (lit "files/" ++ suf) = false ->
  strstr (pre ++ lit "files/" ++ suf ++ NUL :: r) (lit "files/")
  = Some (Some (lit "files/" ++ suf ++ NUL :: r)).
Proof.
  induction pre as [|c pre IH]; intros Hp Hocc; [reflexivity|].
  cbn [forallb] in Hp. apply andb_prop in Hp as [Hc Hp].
  cbn [occurs_within] in Hocc. apply orb_false_elim in Hocc as [Hhere Hocc].
  apply plain_spec in Hc as (_ & Hn & _).
  cbn [app strstr]. rewrite Hn.
  destruct (starts_with (lit "files/") (c :: pre ++ lit "files/" ++ suf ++ NUL :: r)) eqn:Hs.
  - exfalso. apply starts_with_prefix in Hs.
    apply bool_decide_eq_false in Hhere. apply Hhere.
    apply (prefix_of_app_fit _ _ (NUL :: r)).
    + rewrite <- !app_assoc. exact Hs.
    + cbn [length]. rewrite !length_app. cbn [length]. lia.
  - apply IH; assumption.
Qed.

Lemma strchr_marker rest :
  strchr (lit "files/" ++ rest) "/" = Some (Some ("/"%char :: rest)).
Proof. reflexivity. Qed.

(** *** fgets *)

Lemma fgets_chars_line n body rest :
  forallb (fun c => negb (ascii_eqb c LF)) body = true ->
  (length body < n)%nat ->
  fgets_chars n (body ++ LF :: rest) = (body ++ [LF], rest).
Proof.
  revert n. induction body as [|c body IH]; intros n Hb Hn.
  - destruct n; [lia|]. cbn [app fgets_chars]. rewrite ascii_eqb_refl. reflexivity.
  - destruct n; [simpl in Hn; lia|].
    cbn [forallb] in Hb. apply andb_prop in Hb as [Hc Hb].
    cbn [app fgets_chars]. destruct (ascii_eqb c LF); [discriminate|].
    rewrite IH by (assumption || (simpl in Hn; lia)). reflexivity.
Qed.

Lemma fgets_line buf body rest :
  forallb (fun c => negb (ascii_eqb c LF)) body = true ->
  (length (body ++ [LF]) < MAX_LINE_LENGTH)%nat ->
  fgets buf MAX_LINE_LENGTH (body ++ LF :: rest)
  = Some ((body ++ [LF]) ++ NUL :: skipn (S (length (body ++ [LF]))) buf, rest).
Proof.
  intros Hb Hlen. unfold fgets.
  rewrite fgets_chars_line; [|exact Hb|].
  - destruct (body ++ [LF]) eqn:Hl; [destruct body; discriminate|reflexivity].
  - rewrite length_app in Hlen. cbn [length] in Hlen. unfold MAX_LINE_LENGTH in *. lia.
Qed.

Lemma fgets_eof buf : fgets buf MAX_LINE_LENGTH [] = None.
Proof. reflexivity. Qed.

Section Parser.
Variable g_options : Options.

Lemma well_shaped_shape l : well_shaped g_options l = true -> shape g_options l.
Proof.
  unfold well_shaped. rewrite !andb_true_iff, negb_true_iff, !Nat.ltb_lt, Nat.eqb_eq.
  intros [[[[[[[[[? ?] ?] ?] ?] ?] ?] ?] ?] ?]. constructor; assumption.
Qed.

Lemma render_line_fields l stale :
  render_line l ++ NUL :: stale =
  ml_path l ++ ","%char :: (lit "BIN_0x" ++ ml_hex l) ++ ","%char ::
  ml_offset l ++ ","%char :: ml_size l ++ ","%char :: (ml_unk l ++ [CR; LF]) ++ NUL :: stale.
Proof. unfold render_line. rewrite <- !app_assoc. reflexivity. Qed.

Lemma path_plain l : shape g_options l -> forallb plain (ml_path l) = true.
Proof.
  intros H. unfold ml_path. rewrite !forallb_app, (shape_prefix g_options l H), (shape_name g_options l H).
  reflexivity.
Qed.

Lemma path_not_empty l : ml_path l <> [].
Proof. unfold ml_path. intros H. apply app_eq_nil in H as [_ H]. discriminate H. Qed.

Lemma decimal_field_plain t : decimal_field t = true -> forallb plain t = true.
Proof. intros (c & t' & -> & H & _)%decimal_field_spec. eapply digits_plain, H. Qed.

Lemma decimal_field_cons t : decimal_field t = true -> exists c t', t = c :: t'.
Proof. intros (c & t' & -> & _)%decimal_field_spec. eauto. Qed.

Lemma parse_line_shaped l stale :
  shape g_options l ->
  parse_line g_options (render_line l ++ NUL :: stale) =
  if number 16 (ml_hex l) <? MAX_BIN_COUNT
  then Ret (entry_of g_options l, number 10 (ml_size l), cut_line l stale)
  else Stop AssertionFailed.
Proof.
  intros H. rewrite render_line_fields. unfold parse_line.
  pose proof (path_plain l H) as Hpath.
  destruct (strtol_hex (ml_hex l) (ml_offset l ++ ","%char :: ml_size l ++ ","%char ::
                                   (ml_unk l ++ [CR; LF]) ++ NUL :: stale)
              (shape_hex_length g_options l H) (shape_hex g_options l H)) as [_ Hid].
  destruct (decimal_field_cons _ (shape_offset g_options l H)) as (co & to & Eo).
  destruct (decimal_field_cons _ (shape_size g_options l H)) as (cs & ts & Es).
  destruct (decimal_field_cons _ (shape_unk g_options l H)) as (cu & tu & Eu).
  pose proof (decimal_field_plain _ (shape_offset g_options l H)) as Hpo.
  pose proof (decimal_field_plain _ (shape_size g_options l H)) as Hps.
  pose proof (decimal_field_plain _ (shape_unk g_options l H)) as Hpu.
  set (R4 := (ml_unk l ++ [CR; LF]) ++ NUL :: stale).
  set (R3 := ml_size l ++ ","%char :: R4).
  set (R2 := ml_offset l ++ ","%char :: R3).
  set (R1 := (lit "BIN_0x" ++ ml_hex l) ++ ","%char :: R2).
  (* the path *)
  destruct (ml_path l) as [|c path] eqn:Epath; [apply path_not_empty in Epath; contradiction|].
  cbn [app]. rewrite strtok_field by exact Hpath.
  cbn [defined rbind tok tok_before tok_saved].
  replace (([] ++ (c :: path) ++ [NUL]) ++ R1)
    with (ml_prefix l ++ lit "files/" ++ ml_name l ++ NUL :: R1)
    by (rewrite <- Epath; unfold ml_path; rewrite <- !app_assoc; reflexivity).
  rewrite strstr_marker by (apply H).
  cbn [defined rbind]. rewrite strchr_marker. cbn [defined rbind].
  change ("/"%char :: ml_name l ++ NUL :: R1) with (("/"%char :: ml_name l) ++ NUL :: R1).
  rewrite c_str_app
    by (apply plain_no_NUL; cbn [forallb]; rewrite (shape_name g_options l H); reflexivity).
  cbn [defined rbind].
  change (c :: path ++ NUL :: R1) with ((c :: path) ++ NUL :: R1).
  rewrite c_str_app by (apply plain_no_NUL, Hpath).
  cbn [defined rbind]. unfold sprintf.
  rewrite <- Epath.
  destruct (Nat.ltb_spec (length (downloadURL g_options ++ downloadPath g_options ++ ml_path l))
                         MAX_URL_LENGTH) as [_|Hbad];
    [|pose proof (shape_link g_options l H); lia].
  cbn [rbind].
  (* the archive tag *)
  unfold R1 at 1.
  change ((lit "BIN_0x" ++ ml_hex l) ++ ","%char :: R2)
    with ("B"%char :: (lit "IN_0x" ++ ml_hex l) ++ ","%char :: R2).
  rewrite strtok_field
    by (change ("B"%char :: lit "IN_0x" ++ ml_hex l) with (lit "BIN_0x" ++ ml_hex l);
        rewrite forallb_app, (digits_plain 16 _ (shape_hex g_options l H)); reflexivity).
  cbn [defined rbind tok tok_before tok_saved].
  change (drop 6 ("B"%char :: (lit "IN_0x" ++ ml_hex l) ++ NUL :: R2))
    with (drop 0 ((ml_hex l) ++ NUL :: R2)).
  rewrite drop_0.
  rewrite (proj1 (strtol_hex (ml_hex l) R2 (shape_hex_length g_options l H) (shape_hex g_options l H))).
  cbn [defined rbind]. rewrite (u32_id _ Hid).
  destruct (number 16 (ml_hex l) <? MAX_BIN_COUNT); [|reflexivity].
  cbn [negb].
  (* the offset *)
  unfold R2 at 1. rewrite Eo at 1. cbn [app].
  rewrite strtok_field by (rewrite <- Eo; exact Hpo).
  cbn [defined rbind tok tok_before tok_saved].
  change (co :: to ++ NUL :: R3) with ((co :: to) ++ NUL :: R3). rewrite <- Eo.
  rewrite atoi_field by (apply H || reflexivity).
  cbn [defined rbind].
  (* the size *)
  unfold R3 at 1. rewrite Es at 1. cbn [app].
  rewrite strtok_field by (rewrite <- Es; exact Hps).
  cbn [defined rbind tok tok_before tok_saved].
  change (cs :: ts ++ NUL :: R4) with ((cs :: ts) ++ NUL :: R4). rewrite <- Es.
  rewrite atoi_field by (apply H || reflexivity).
  cbn [defined rbind].
  (* the last field, up to the end of the line *)
  unfold R4 at 1. rewrite Eu at 1. cbn [app].
  rewrite strtok_last.
  2:{ change (cu :: tu ++ [CR; LF]) with ((cu :: tu) ++ [CR; LF]). rewrite <- Eu.
      rewrite forallb_app. apply andb_true_intro. split; [|reflexivity].
      rewrite forallb_forall in Hpu |- *. intros x Hx.
      apply Hpu, plain_spec in Hx as (-> & -> & _). reflexivity. }
  cbn [defined rbind tok tok_before tok_saved].
  replace (cu :: (tu ++ [CR; LF]) ++ NUL :: stale)
    with (ml_unk l ++ CR :: LF :: NUL :: stale)
    by (rewrite Eu, <- app_assoc; reflexivity).
  rewrite atoi_field by (apply H || reflexivity).
  cbn [defined rbind].
  pose proof (decimal_field_spec _ (shape_offset g_options l H)) as (? & ? & _ & _ & Hno).
  pose proof (decimal_field_spec _ (shape_size g_options l H)) as (? & ? & _ & _ & Hns).
  rewrite !u32_id by lia.
  unfold entry_of, cut_line. do 2 f_equal.
  rewrite Eu. repeat (rewrite <- ?app_assoc; cbn [app]). reflexivity.
Qed.
End Parser.

Section Scan.
Variable g_options : Options.

Lemma plain_no_LF t :
  forallb plain t = true -> forallb (fun c => negb (ascii_eqb c LF)) t = true.
Proof.
  rewrite !forallb_forall. intros H c Hc. apply H, plain_spec in Hc.
  destruct Hc as (_ & _ & ->). reflexivity.
Qed.

Lemma render_line_body l :
  shape g_options l ->
  exists body,
    render_line l = body ++ [LF] /\
    forallb (fun c => negb (ascii_eqb c LF)) body = true /\
    forallb (fun c => negb (ascii_eqb c NUL)) (render_line l) = true.
Proof.
  intros H.
  pose proof (path_plain g_options l H) as Hp.
  pose proof (digits_plain 16 _ (shape_hex g_options l H)) as Hh.
  pose proof (decimal_field_plain _ (shape_offset g_options l H)) as Ho.
  pose proof (decimal_field_plain _ (shape_size g_options l H)) as Hs.
  pose proof (decimal_field_plain _ (shape_unk g_options l H)) as Hu.
  exists (ml_path l ++ lit ",BIN_0x" ++ ml_hex l ++ lit "," ++ ml_offset l ++ lit "," ++
          ml_size l ++ lit "," ++ ml_unk l ++ [CR]).
  split; [unfold render_line; rewrite <- !app_assoc; reflexivity|].
  split.
  - rewrite !forallb_app, (plain_no_LF _ Hp), (plain_no_LF _ Hh), (plain_no_LF _ Ho),
      (plain_no_LF _ Hs), (plain_no_LF _ Hu). reflexivity.
  - unfold render_line.
    rewrite !forallb_app, (plain_no_NUL _ Hp), (plain_no_NUL _ Hh), (plain_no_NUL _ Ho),
      (plain_no_NUL _ Hs), (plain_no_NUL _ Hu). reflexivity.
Qed.

Lemma set_fileList_twice l1 l2 w : set_fileList l2 (set_fileList l1 w) = set_fileList l2 w.
Proof. destruct w; reflexivity. Qed.

Lemma g_fileList_set l w : g_fileList (set_fileList l w) = l.
Proof. destruct w; reflexivity. Qed.

Lemma set_fileList_same w : set_fileList (g_fileList w) w = w.
Proof. destruct w; reflexivity. Qed.

Lemma scan_lines_line fuel st l rest w :
  shape g_options l ->
  scan_lines g_options (S fuel) st (render_line l ++ rest) w =
  if number 16 (ml_hex l) <? MAX_BIN_COUNT then
    scan_lines g_options fuel (scan_step st l) rest
      (set_fileList (g_fileList w ++ [entry_of g_options l]) w)
  else (Stop AssertionFailed, w).
Proof.
  intros H. destruct (render_line_body l H) as (body & Ebody & HLF & HNUL).
  cbn [scan_lines].
  replace (render_line l ++ rest) with (body ++ LF :: rest)
    by (rewrite Ebody, <- app_assoc; reflexivity).
  rewrite fgets_line; [|exact HLF|rewrite <- Ebody; apply (shape_line g_options l H)].
  rewrite <- Ebody.
  unfold pbind at 1. unfold plift at 1.
  rewrite c_str_app by exact HNUL. cbn [defined].
  unfold pbind at 1. unfold plift at 1.
  rewrite parse_line_shaped by exact H.
  destruct (number 16 (ml_hex l) <? MAX_BIN_COUNT); [|reflexivity].
  unfold pbind at 1. unfold add_file_entry, update, list_add.
  cbn [FileEntry.BIN entry_of]. reflexivity.
Qed.

Lemma scan_lines_lines ls : forall fuel st tail w,
  Forall (fun l => well_formed g_options l = true) ls ->
  scan_lines g_options (length ls + fuel) st (concat (map render_line ls) ++ tail) w =
  scan_lines g_options fuel (fold_left scan_step ls st) tail
    (set_fileList (g_fileList w ++ map (entry_of g_options) ls) w).
Proof.
  induction ls as [|l ls IH]; intros fuel st tail w Hwf.
  - cbn [length map concat fold_left app Nat.add]. rewrite app_nil_r, set_fileList_same.
    reflexivity.
  - apply Forall_cons in Hwf as [Hl Hls].
    unfold well_formed in Hl. apply andb_prop in Hl as [Hshape Hid].
    apply well_shaped_shape in Hshape.
    cbn [length map concat fold_left Nat.add]. rewrite <- app_assoc.
    rewrite scan_lines_line by exact Hshape. rewrite Hid.
    rewrite IH by exact Hls.
    rewrite set_fileList_twice, g_fileList_set, <- app_assoc. reflexivity.
Qed.

Lemma hasBIN_after ls : forall st (i : nat),
  Forall (fun l => well_formed g_options l = true) ls ->
  (i < length (hasBIN st))%nat ->
  length (hasBIN (fold_left scan_step ls st)) = length (hasBIN st) /\
  hasBIN (fold_left scan_step ls st) !! i =
  Some (default false (hasBIN st !! i) || bool_decide (Z.of_nat i ∈ archive_ids ls)).
Proof.
  induction ls as [|l ls IH]; intros st i Hwf Hi.
  - cbn [fold_left archive_ids map]. split; [reflexivity|].
    rewrite bool_decide_false by apply not_elem_of_nil. rewrite orb_false_r.
    destruct (lookup_lt_is_Some_2 (hasBIN st) i Hi) as [b ->]. reflexivity.
  - apply Forall_cons in Hwf as [Hl Hls].
    cbn [fold_left archive_ids map].
    assert (Hlen : length (hasBIN (scan_step st l)) = length (hasBIN st))
      by (cbn [scan_step hasBIN]; apply length_insert).
    destruct (IH (scan_step st l) i Hls ltac:(lia)) as [-> ->].
    split; [exact Hlen|]. f_equal.
    cbn [scan_step hasBIN].
    unfold well_formed in Hl. apply andb_prop in Hl as [Hshape Hid%Z.ltb_lt].
    apply well_shaped_shape in Hshape.
    pose proof (number_bound 16 _ ltac:(lia) (shape_hex _ _ Hshape)) as [Hnn _].
    destruct (decide (Z.to_nat (number 16 (ml_hex l)) = i)) as [Heq|Hne].
    + rewrite Heq, list_lookup_insert_eq by exact Hi. cbn [default orb].
      symmetry. rewrite bool_decide_true; [apply orb_true_r|].
      apply elem_of_cons. left. lia.
    + rewrite list_lookup_insert_ne by exact Hne.
      destruct (default false (hasBIN st !! i)); [reflexivity|]. cbn [orb].
      apply bool_decide_ext. rewrite elem_of_cons. split; [auto|].
      intros [Heq|Hin]; [|exact Hin]. exfalso. apply Hne. lia.
Qed.

End Scan.

Lemma c_str_terminated r x : exists h, c_str (r ++ NUL :: x) = Some h /\ h `prefix_of` r.
Proof.
  induction r as [|c r (h & IH & Hp)]; cbn [app c_str].
  - exists []. split; [reflexivity|apply prefix_nil].
  - destruct (ascii_eqb c NUL).
    + exists []. split; [reflexivity|apply prefix_nil].
    + exists (c :: h). rewrite IH. split; [reflexivity|apply prefix_cons, Hp].
Qed.

Lemma fgets_chars_split n s : s = fst (fgets_chars n s) ++ snd (fgets_chars n s).
Proof.
  revert s. induction n as [|n IH]; intros s; [reflexivity|].
  destruct s as [|c s]; [reflexivity|]. cbn [fgets_chars].
  destruct (ascii_eqb c LF); [reflexivity|].
  specialize (IH s). destruct (fgets_chars n s) as [r rest]. cbn [fst snd] in *.
  rewrite IH at 1. reflexivity.
Qed.

Lemma fgets_prefix buf n s buf' rest :
  fgets buf n s = Some (buf', rest) ->
  exists h, c_str buf' = Some h /\ h `prefix_of` s.
Proof.
  unfold fgets. pose proof (fgets_chars_split (n - 1) s) as Hs.
  destruct (fgets_chars (n - 1) s) as [r rest']. cbn [fst snd] in Hs.
  destruct r as [|c r]; [discriminate|]. intros [= <- <-].
  destruct (c_str_terminated (c :: r) (drop (S (length (c :: r))) buf)) as (h & Hh & Hp).
  exists h. split; [exact Hh|]. rewrite Hs. apply prefix_app_r, Hp.
Qed.

Lemma render_lines_length ls :
  (length ls <= length (concat (map render_line ls)))%nat.
Proof.
  induction ls as [|l ls IH]; [reflexivity|].
  cbn [map concat length]. rewrite length_app.
  assert (2 <= length (render_line l))%nat.
  { unfold render_line. rewrite !length_app. cbn [length]. lia. }
  lia.
Qed.

Section ManifestParser.
Variable E : environment.
Variable g_options : Options.

Lemma parse_header_ok body w :
  parse_packagemanifest E g_options (lit "PKG1" ++ [CR; LF] ++ body) w =
  (st <- scan_lines g_options (S (length body))
           (mkScan ((lit "PKG1" ++ [CR; LF]) ++ NUL :: skipn 7 (fresh_bytes E MAX_LINE_LENGTH))
                   0 0 0 (replicate (Z.to_nat MAX_BIN_COUNT) false)) body;;
   update (fun w =>
     set_stats (mkStatistics (fileCount st) (numBINArchives (g_stats w))
                             (totalSize st) (numBytesFromBINArchives (g_stats w))) w);;;
   pret st)%prog w.
Proof.
  unfold parse_packagemanifest.
  change (lit "PKG1" ++ [CR; LF] ++ body) with ((lit "PKG1" ++ [CR]) ++ LF :: body).
  rewrite fgets_line by (reflexivity || (apply Nat.ltb_lt; reflexivity)).
  reflexivity.
Qed.

End ManifestParser.

Section ManifestTheorems.
Variable E : environment.
Variable g_options : Options.

(** C2.  For every manifest made of the header line [PKG1] and N
    well-formed lines, parsing returns; the descriptors added to the file
    list are exactly those of the N lines, in the order of the lines; and
    the membership array marks exactly the archive identifiers that the
    lines refer to. *)
Theorem manifest_parse (ls : list manifest_line) (w : world) :
  Forall (fun l => well_formed g_options l = true) ls ->
  exists st w',
    parse_packagemanifest E g_options (render_manifest ls) w = (Ret st, w') /\
    g_fileList w' = g_fileList w ++ map (entry_of g_options) ls /\
    length (map (entry_of g_options) ls) = length ls /\
    length (hasBIN st) = Z.to_nat MAX_BIN_COUNT /\
    forall i : Z,
      (0 <= i < MAX_BIN_COUNT /\ hasBIN st !! Z.to_nat i = Some true) <-> i ∈ archive_ids ls.
Proof.
  intros Hwf. unfold render_manifest. rewrite parse_header_ok.
  set (st0 := mkScan _ 0 0 0 _).
  pose proof (render_lines_length ls) as Hlen.
  replace (S (length (concat (map render_line ls))))
    with (length ls + S (length (concat (map render_line ls)) - length ls))%nat by lia.
  unfold pbind at 1.
  pose proof (scan_lines_lines g_options ls
                (S (length (concat (map render_line ls)) - length ls)) st0 [] w Hwf) as Hrun.
  rewrite app_nil_r in Hrun. rewrite Hrun. clear Hrun.
  cbn [scan_lines]. rewrite fgets_eof. unfold pret at 1.
  unfold pbind, update, pret.
  eexists _, _. split; [reflexivity|].
  split; [destruct w; reflexivity|].
  split; [apply length_map|].
  assert (H32 : length (hasBIN st0) = Z.to_nat MAX_BIN_COUNT) by apply length_replicate.
  split.
  - destruct (hasBIN_after g_options ls st0 0 Hwf) as [-> _]; [rewrite H32; unfold MAX_BIN_COUNT; lia|exact H32].
  - intros i. split.
    + intros [Hi Hb].
      destruct (hasBIN_after g_options ls st0 (Z.to_nat i) Hwf) as [_ Hl];
        [rewrite H32; unfold MAX_BIN_COUNT in *; lia|].
      assert (H0 : hasBIN st0 !! Z.to_nat i = Some false).
      { apply lookup_replicate_2. unfold MAX_BIN_COUNT in *; lia. }
      rewrite H0 in Hl. cbn [default orb] in Hl.
      rewrite Hl in Hb. injection Hb as Hb.
      apply bool_decide_eq_true in Hb. rewrite Z2Nat.id in Hb by lia. exact Hb.
    + intros Hin.
      assert (Hi : 0 <= i < MAX_BIN_COUNT).
      { unfold archive_ids in Hin. apply list_elem_of_fmap in Hin as (l & -> & Hl).
        rewrite Forall_forall in Hwf. specialize (Hwf l Hl).
        unfold well_formed in Hwf. apply andb_prop in Hwf as [Hs Hid%Z.ltb_lt].
        apply well_shaped_shape in Hs.
        pose proof (number_bound 16 _ ltac:(lia) (shape_hex _ _ Hs)). lia. }
      split; [exact Hi|].
      destruct (hasBIN_after g_options ls st0 (Z.to_nat i) Hwf) as [_ Hl];
        [rewrite H32; unfold MAX_BIN_COUNT in *; lia|].
      rewrite Hl. f_equal. rewrite Z2Nat.id by lia.
      rewrite (bool_decide_true _ Hin). apply orb_true_r.
Qed.

Lemma parse_line_BIN_bound line :
  match parse_line g_options line with
  | Ret (entry, _, _) => 0 <= FileEntry.BIN entry < MAX_BIN_COUNT
  | Stop _ => True
  end.
Proof.
  unfold parse_line. step_binds.
  match goal with
  | |- context [u32 ?bin <? MAX_BIN_COUNT] =>
      destruct (Z.ltb_spec (u32 bin) MAX_BIN_COUNT) as [Hlt|_]; cbn [negb]; [|exact I]
  end.
  step_binds.
  cbn [FileEntry.BIN]. split; [|exact Hlt].
  unfold u32. apply Z.mod_pos_bound. reflexivity.
Qed.

(** C7.  For every manifest that does not begin with the header line
    [PKG1] and its CRLF, the run stops, by [exit] after the two
    diagnostics or by the failed [assert] when the file is empty, and no
    descriptor has been added to the file list or to the archive list. *)
Theorem bad_header_is_fatal (manifest : list ascii) (w : world) :
  ~ (lit "PKG1" ++ [CR; LF]) `prefix_of` manifest ->
  exists k w',
    get_files_using_packagemanifest E g_options manifest w = (Stop k, w') /\
    (k = ExitCalled \/ k = AssertionFailed) /\
    g_fileList w' = g_fileList w /\
    g_fileArchiveList w' = g_fileArchiveList w /\
    files w' = files w.
Proof.
  intros Hbad. unfold get_files_using_packagemanifest.
  unfold pbind at 1. unfold parse_packagemanifest.
  destruct (fgets _ _ manifest) as [[buf rest]|] eqn:Hgets.
  - destruct (fgets_prefix _ _ _ _ _ Hgets) as (h & Hh & Hp).
    unfold pbind at 1. unfold plift at 1. rewrite Hh. cbn [defined].
    destruct (decide (h = lit "PKG1" ++ [CR; LF])) as [->|Hne]; [contradiction|].
    rewrite bool_decide_false by exact Hne. cbn [negb].
    eexists ExitCalled, _. split; [reflexivity|].
    split; [left; reflexivity|]. destruct w; repeat split; reflexivity.
  - eexists AssertionFailed, _. split; [reflexivity|].
    split; [right; reflexivity|]. repeat split; reflexivity.
Qed.

(** C8.  No line is ever accepted with an archive identifier of 32 or
    more: whenever [parse_line] returns an entry its identifier is below
    32.  And a line of the manifest whose eight hexadecimal digits denote
    32 or more stops the whole run by the failed [assert], whatever
    follows it; the well-formed lines before it have been read. *)
Theorem archive_id_out_of_range_is_fatal
    (ls : list manifest_line) (l : manifest_line) (tail : list ascii) (w : world) :
  Forall (fun l => well_formed g_options l = true) ls ->
  well_shaped g_options l = true ->
  MAX_BIN_COUNT <= number 16 (ml_hex l) ->
  (forall line,
      match parse_line g_options line with
      | Ret (entry, _, _) => 0 <= FileEntry.BIN entry < MAX_BIN_COUNT
      | Stop _ => True
      end) /\
  exists w',
    get_files_using_packagemanifest E g_options
      (render_manifest ls ++ render_line l ++ tail) w = (Stop AssertionFailed, w') /\
    g_fileList w' = g_fileList w ++ map (entry_of g_options) ls.
Proof.
  intros Hwf Hshape Hid. split; [exact parse_line_BIN_bound|].
  apply well_shaped_shape in Hshape.
  unfold get_files_using_packagemanifest, render_manifest.
  unfold pbind at 1. rewrite <- !app_assoc. rewrite parse_header_ok.
  set (st0 := mkScan _ 0 0 0 _).
  set (body := concat (map render_line ls) ++ render_line l ++ tail).
  pose proof (render_lines_length ls) as Hlen.
  assert (Hfuel : exists fuel, S (length body) = (length ls + S fuel)%nat).
  { exists (length body - length ls)%nat. unfold body. rewrite length_app. lia. }
  destruct Hfuel as [fuel ->].
  unfold pbind at 1. unfold body.
  rewrite scan_lines_lines by exact Hwf.
  rewrite scan_lines_line by exact Hshape.
  destruct (Z.ltb_spec (number 16 (ml_hex l)) MAX_BIN_COUNT) as [Hlt|_]; [lia|].
  eexists. split; [reflexivity|]. apply g_fileList_set.
Qed.

End ManifestTheorems.

Lemma example_lines_well_formed :
  Forall (fun l => well_formed default_options l = true) example_lines.
Proof. repeat constructor. Qed.

Lemma manifest_parse_witness :
  Forall (fun l => well_formed default_options l = true) example_lines /\
  exists st w',
    parse_packagemanifest (plain_environment []) default_options
      (render_manifest example_lines) (world_with ∅) = (Ret st, w') /\
    g_fileList w' = map (entry_of default_options) example_lines /\
    forall i : Z,
      (0 <= i < MAX_BIN_COUNT /\ hasBIN st !! Z.to_nat i = Some true) <->
      i ∈ archive_ids example_lines.
Proof.
  split; [exact example_lines_well_formed|].
  destruct (manifest_parse (plain_environment []) default_options example_lines
              (world_with ∅) example_lines_well_formed)
    as (st & w' & Hrun & Hlist & _ & _ & Hids).
  exists st, w'. split; [exact Hrun|]. split; [exact Hlist|exact Hids].
Defined.

Lemma bad_header_is_fatal_witness :
  ~ (lit "PKG1" ++ [CR; LF]) `prefix_of` (lit "PKG2" ++ [CR; LF] ++ render_line example_bad_line) /\
  exists k w',
    get_files_using_packagemanifest (plain_environment []) default_options
      (lit "PKG2" ++ [CR; LF] ++ render_line example_bad_line) (world_with ∅) = (Stop k, w') /\
    (k = ExitCalled \/ k = AssertionFailed) /\
    g_fileList w' = [].
Proof.
  assert (Hbad : ~ (lit "PKG1" ++ [CR; LF]) `prefix_of`
                   (lit "PKG2" ++ [CR; LF] ++ render_line example_bad_line))
    by (intros [k Hk]; vm_compute in Hk; discriminate Hk).
  split; [exact Hbad|].
  destruct (bad_header_is_fatal (plain_environment []) default_options _ (world_with ∅) Hbad)
    as (k & w' & Hrun & Hk & Hlist & _).
  exists k, w'. split; [exact Hrun|]. split; [exact Hk|exact Hlist].
Defined.

Lemma archive_id_out_of_range_is_fatal_witness :
  Forall (fun l => well_formed default_options l = true) example_lines /\
  well_shaped default_options example_bad_line = true /\
  MAX_BIN_COUNT <= number 16 (ml_hex example_bad_line) /\
  exists w',
    get_files_using_packagemanifest (plain_environment []) default_options
      (render_manifest example_lines ++ render_line example_bad_line ++
       render_line example_bad_line) (world_with ∅) = (Stop AssertionFailed, w') /\
    g_fileList w' = map (entry_of default_options) example_lines.
Proof.
  split; [exact example_lines_well_formed|].
  split; [reflexivity|]. split; [vm_compute; discriminate|].
  exact (proj2 (archive_id_out_of_range_is_fatal (plain_environment []) default_options
                  example_lines example_bad_line (render_line example_bad_line)
                  (world_with ∅) example_lines_well_formed eq_refl
                  ltac:(vm_compute; discriminate))).
Defined.


Lemma fgets_chars_length n s :
  length s = (length (fst (fgets_chars n s)) + length (snd (fgets_chars n s)))%nat.
Proof. rewrite (fgets_chars_split n s) at 1. apply length_app. Qed.

Lemma fgets_consumes buf n s buf' rest :
  fgets buf n s = Some (buf', rest) -> (length rest < length s)%nat.
Proof.
  unfold fgets. pose proof (fgets_chars_length (n - 1) s) as Hs.
  destruct (fgets_chars (n - 1) s) as [r rest']. cbn [fst snd] in Hs.
  destruct r as [|c r]; [discriminate|]. intros [= _ <-].
  cbn [length] in Hs. lia.
Qed.

Section Fuel.
Variable E : environment.
Variable g_options : Options.

Lemma defined_stop {A} (o : option A) k : defined o = Stop k -> k = UndefinedBehaviour.
Proof. destruct o; [discriminate|]. intros [= <-]. reflexivity. Qed.

Lemma parse_line_stop line k :
  parse_line g_options line = Stop k -> k = UndefinedBehaviour \/ k = AssertionFailed.
Proof.
  unfold parse_line.
  repeat match goal with
         | |- rbind ?r _ = _ -> _ =>
             let H := fresh in
             destruct r eqn:H; cbn [rbind];
             [|first [apply defined_stop in H
                     |unfold sprintf in H; destruct (_ <? _)%nat in H; [discriminate|];
                      injection H as H; symmetry in H];
               intros [= <-]; left; exact H]
         end.
  match goal with
  | |- context [negb ?b] => destruct b; cbn [negb]
  end; [|intros [= <-]; right; reflexivity].
  repeat match goal with
         | |- rbind ?r _ = _ -> _ =>
             let H := fresh in
             destruct r eqn:H; cbn [rbind];
             [|apply defined_stop in H; intros [= <-]; left; exact H]
         end.
  discriminate.
Qed.

Lemma scan_lines_fuel fuel : forall st stream w,
  (length stream < fuel)%nat ->
  fst (scan_lines g_options fuel st stream w) <> Stop OutOfFuel.
Proof.
  induction fuel as [|fuel IH]; intros st stream w Hfuel; [lia|].
  cbn [scan_lines].
  destruct (fgets (line st) MAX_LINE_LENGTH stream) as [[buf rest]|] eqn:Hgets;
    [|discriminate].
  apply fgets_consumes in Hgets.
  unfold pbind at 1. unfold plift at 1.
  destruct (defined (c_str buf)) as [text|k] eqn:Htext;
    [|apply defined_stop in Htext; subst k; discriminate].
  unfold pbind at 1. unfold plift at 1.
  destruct (parse_line g_options buf) as [[[entry size] buf']|k] eqn:Hparse;
    [|apply parse_line_stop in Hparse as [->| ->]; discriminate].
  unfold pbind at 1. unfold add_file_entry, update.
  apply IH. lia.
Qed.

Lemma parse_packagemanifest_fuel packagemanifest w :
  fst (parse_packagemanifest E g_options packagemanifest w) <> Stop OutOfFuel.
Proof.
  unfold parse_packagemanifest.
  destruct (fgets _ _ packagemanifest) as [[buf rest]|]; [|discriminate].
  unfold pbind at 1. unfold plift at 1.
  destruct (defined (c_str buf)) as [text|k] eqn:Htext;
    [|apply defined_stop in Htext; subst k; discriminate].
  destruct (negb _); [discriminate|].
  unfold pbind at 1.
  pose proof (scan_lines_fuel (S (length rest))
                (mkScan buf 0 0 0 (replicate (Z.to_nat MAX_BIN_COUNT) false)) rest w
                ltac:(lia)) as Hfuel.
  destruct (scan_lines _ _ _ _ _) as [[st|k] w']; cbn [fst] in Hfuel.
  - discriminate.
  - cbn [fst]. exact Hfuel.
Qed.

End Fuel.

(** ** The lists of entries *)

Section NodeTheorems.

Context {A : Type}.
Implicit Types (h : gmap nat (ListNodes.ListNode A)) (l : ListNodes.FileList) (xs : list A).

Lemma entries_from h locs xs :
  length locs = length xs ->
  (forall (i : nat) p, locs !! i = Some p ->
     exists x, xs !! i = Some x /\ h !! p = Some (ListNodes.mkListNode x (locs !! S i))) ->
  forall (k i : nat), (length xs <= i + k)%nat ->
    ListNodes.entries (S k) (locs !! i) h = Ret (drop i xs).
Proof.
  intros Hlen Hnodes k. induction k as [|k IH]; intros i Hk.
  - destruct (locs !! i) as [p|] eqn:Hp.
    + apply lookup_lt_Some in Hp. lia.
    + simpl. rewrite drop_ge by lia. reflexivity.
  - destruct (locs !! i) as [p|] eqn:Hp.
    + destruct (Hnodes i p Hp) as (x & Hx & Hh).
      change (ListNodes.entries (S (S k)) (Some p) h)
        with (match h !! p with
              | Some node =>
                  rbind (ListNodes.entries (S k) (ListNodes.next node) h)
                        (fun rest => Ret (ListNodes.data node :: rest))
              | None => Stop UndefinedBehaviour
              end).
      rewrite Hh. cbn [ListNodes.next ListNodes.data].
      rewrite (IH (S i)) by lia. cbn [rbind].
      rewrite (drop_S _ _ _ Hx). reflexivity.
    + apply lookup_ge_None in Hp. simpl. rewrite drop_ge by lia. reflexivity.
Qed.

Lemma entries_represents h l xs :
  ListNodes.represents h l xs ->
  ListNodes.entries (S (length xs)) (ListNodes.head l) h = Ret xs.
Proof.
  intros (locs & Hlen & _ & Hhead & _ & Hnodes). rewrite Hhead.
  rewrite (entries_from h locs xs Hlen Hnodes (length xs) 0) by lia. reflexivity.
Qed.

Lemma represents_nil : ListNodes.represents (∅ : gmap nat (ListNodes.ListNode A)) (ListNodes.mkFileList None None) [].
Proof.
  exists []. repeat split; try constructor. intros i p Hp. rewrite lookup_nil in Hp. discriminate.
Qed.

Lemma list_add_represents h l xs n d :
  ListNodes.represents h l xs -> h !! n = None ->
  exists l' h',
    ListNodes.list_add (Some n) l d h = Ret (l', h') /\
    ListNodes.represents h' l' (xs ++ [d]) /\
    forall p, p <> n -> is_Some (h' !! p) <-> is_Some (h !! p).
Proof.
  intros (locs & Hlen & Hnd & Hhead & Htail & Hnodes) Hfresh.
  assert (Hnotin : n ∉ locs).
  { intros Hin. apply list_elem_of_lookup in Hin as (i & Hi).
    destruct (Hnodes i n Hi) as (x & _ & Hh). congruence. }
  destruct (decide (locs = [])) as [->|Hne].
  - (* the first entry *)
    destruct xs; [|discriminate]. simpl in Hhead, Htail.
    unfold ListNodes.list_add. rewrite Hhead. cbn [ListNodes.tail ListNodes.head]. rewrite Htail.
    cbn [rbind]. eexists _, _. split; [reflexivity|]. split.
    + exists [n]. repeat split; try (constructor; [set_solver|constructor]).
      intros i p Hp. destruct i; [|simpl in Hp; rewrite lookup_nil in Hp; discriminate].
      injection Hp as <-. exists d. split; [reflexivity|]. rewrite lookup_insert_eq. reflexivity.
    + intros p Hp. rewrite lookup_insert_ne by congruence. reflexivity.
  - (* behind the last entry *)
    destruct (last locs) as [t|] eqn:Hlast; [|apply last_None in Hlast; contradiction].
    assert (Hti : locs !! (length locs - 1)%nat = Some t).
    { rewrite <- Hlast. rewrite last_lookup. f_equal. lia. }
    destruct (Hnodes _ _ Hti) as (x & Hx & Hht).
    assert (Htn : t <> n).
    { intros ->. apply Hnotin. eapply list_elem_of_lookup_2, Hti. }
    assert (Hhd : is_Some (locs !! 0%nat)).
    { apply lookup_lt_is_Some. destruct locs; [contradiction|simpl; lia]. }
    destruct Hhd as (p0 & Hp0).
    unfold ListNodes.list_add. rewrite Hhead, Hp0. rewrite Htail.
    rewrite lookup_insert_ne by congruence. rewrite Hht. cbn [rbind ListNodes.data ListNodes.head].
    eexists _, _. split; [reflexivity|]. split.
    + exists (locs ++ [n]). split; [rewrite !length_app; simpl; lia|].
      split; [apply NoDup_app; repeat split; [assumption| |constructor; [set_solver|constructor]]|].
      { intros y Hy Hy'. apply list_elem_of_singleton in Hy'. subst. contradiction. }
      split; [cbn [ListNodes.head]; rewrite lookup_app_l; [congruence|]; destruct locs; [contradiction|simpl; lia]|].
      split; [cbn [ListNodes.tail]; rewrite last_snoc; reflexivity|].
      intros i p Hp.
      destruct (decide (i < length locs)%nat) as [Hi|Hi].
      * rewrite lookup_app_l in Hp by assumption.
        destruct (Hnodes i p Hp) as (y & Hy & Hhp).
        exists y. split; [rewrite lookup_app_l by lia; assumption|].
        assert (Hpn : p <> n).
        { intros ->. apply Hnotin. eapply list_elem_of_lookup_2, Hp. }
        destruct (decide (p = t)) as [->|Hpt].
        -- assert (i = (length locs - 1)%nat) as -> by (eapply NoDup_lookup; eassumption).
           rewrite lookup_insert_eq. rewrite Hx in Hy. injection Hy as <-.
           f_equal. f_equal.
           replace (S (length locs - 1)) with (length locs + 0)%nat by lia.
           rewrite lookup_app_r by lia. replace (length locs + 0 - length locs)%nat with 0%nat by lia.
           reflexivity.
        -- rewrite lookup_insert_ne by congruence. rewrite lookup_insert_ne by congruence.
           rewrite Hhp. f_equal. f_equal.
           destruct (decide (S i < length locs)%nat).
           ++ rewrite lookup_app_l by lia. reflexivity.
           ++ exfalso. assert (i = (length locs - 1)%nat) as -> by lia.
              rewrite Hti in Hp. congruence.
      * rewrite lookup_app_r in Hp by lia.
        destruct (i - length locs)%nat eqn:Hd; [|simpl in Hp; rewrite lookup_nil in Hp; discriminate].
        injection Hp as <-. exists d. split.
        -- rewrite lookup_app_r by lia. replace (i - length xs)%nat with 0%nat by lia. reflexivity.
        -- rewrite lookup_insert_ne by congruence. rewrite lookup_insert_eq.
           f_equal. f_equal. symmetry. apply lookup_ge_None. rewrite length_app. simpl. lia.
    + intros p Hp. destruct (decide (p = t)) as [->|Hpt].
      * rewrite lookup_insert_eq. rewrite Hht. split; intros _; eexists; reflexivity.
      * rewrite lookup_insert_ne by congruence. rewrite lookup_insert_ne by congruence. reflexivity.
Qed.

(** X1.  [list_add] appends.  When the heap lays out the list [xs] from
    [head] to [tail] and [malloc] returns an address that is not in use,
    the call returns, the heap then lays out [xs ++ [d]] (the head is kept,
    or set when the list was empty; the tail is the new node), and the loop
    from [head] along [next] visits exactly [xs ++ [d]], in this order. *)
Theorem list_add_appends h l xs n d :
  ListNodes.represents h l xs -> h !! n = None ->
  exists l' h',
    ListNodes.list_add (Some n) l d h = Ret (l', h') /\
    ListNodes.represents h' l' (xs ++ [d]) /\
    ListNodes.entries (S (length (xs ++ [d]))) (ListNodes.head l') h' = Ret (xs ++ [d]).
Proof.
  intros Hr Hn. destruct (list_add_represents h l xs n d Hr Hn) as (l' & h' & Hadd & Hr' & _).
  exists l', h'. split; [assumption|]. split; [assumption|].
  apply entries_represents. assumption.
Qed.

End NodeTheorems.

(** ** [replace_char] and [make_path] *)

Lemma replace_char_text text rest c r :
  no_NUL text = true ->
  replace_char (text ++ NUL :: rest) c r = Some (map (replaced c r) text ++ NUL :: rest).
Proof.
  induction text as [|x text IH]; intros Ht.
  - reflexivity.
  - simpl in Ht. apply andb_prop in Ht as [Hx Ht].
    simpl. destruct (ascii_eqb x NUL); [discriminate|].
    rewrite (IH Ht). reflexivity.
Qed.

Lemma replaced_not c r x : r <> c -> replaced c r x <> c.
Proof.
  intros Hrc. unfold replaced. destruct (ascii_eqb x c) eqn:Hx; [assumption|].
  intros ->. rewrite ascii_eqb_refl in Hx. discriminate.
Qed.

Lemma replaced_other c r x : x <> c -> replaced c r x = x.
Proof.
  intros Hxc. unfold replaced. destruct (ascii_eqb x c) eqn:Hx; [|reflexivity].
  apply ascii_eqb_true in Hx. contradiction.
Qed.

(** X2.  On a C string (the text up to the first NUL of the array)
    [replace_char] returns with every [c] of the text replaced by [r]; every
    other character, the terminator and what lies behind it are as before.
    The length is kept, no [c] is left when [r] differs from [c], and the
    array still holds a C string of that length when [r] is not NUL. *)
Theorem replace_char_replaces text rest c r :
  no_NUL text = true ->
  let text' := map (replaced c r) text in
  replace_char (text ++ NUL :: rest) c r = Some (text' ++ NUL :: rest) /\
  length text' = length text /\
  (r <> c -> c ∉ text') /\
  (forall i x, text !! i = Some x -> x <> c -> text' !! i = Some x) /\
  (r <> NUL -> c_str (text' ++ NUL :: rest) = Some text').
Proof.
  intros Ht text'. split; [apply replace_char_text; assumption|].
  split; [apply length_map|]. split; [|split].
  - intros Hrc Hin. apply list_elem_of_fmap in Hin as (x & Hx & _).
    symmetry in Hx. revert Hx. apply replaced_not. assumption.
  - intros i x Hi Hx. unfold text'. rewrite list_lookup_fmap, Hi. simpl.
    rewrite replaced_other by assumption. reflexivity.
  - intros Hr. apply c_str_app. unfold text'. unfold no_NUL in Ht.
    rewrite forallb_forall in *. intros y Hy. apply in_map_iff in Hy as (x & <- & Hx).
    unfold replaced. destruct (ascii_eqb x c).
    + destruct (ascii_eqb r NUL) eqn:E; [apply ascii_eqb_true in E; contradiction|reflexivity].
    + apply Ht. assumption.
Qed.

Lemma replace_char_replaces_witness :
  no_NUL (lit "C:\lol\data") = true /\
  replace_char (lit "C:\lol\data" ++ NUL :: lit "xyz") "\" "/" =
    Some (lit "C:/lol/data" ++ NUL :: lit "xyz").
Proof.
  split; [reflexivity|].
  exact (proj1 (replace_char_replaces (lit "C:\lol\data") (lit "xyz") "\" "/" eq_refl)).
Defined.

Lemma strchr_found a r :
  no_NUL a = true -> no_slash a = true ->
  strchr (a ++ "/"%char :: r) "/" = Some (Some ("/"%char :: r)).
Proof.
  induction a as [|x a IH]; intros Hn Hs.
  - reflexivity.
  - simpl in Hn, Hs. apply andb_prop in Hn as [Hx Hn]. apply andb_prop in Hs as [Hy Hs].
    simpl. destruct (ascii_eqb x "/"); [discriminate|]. destruct (ascii_eqb x NUL); [discriminate|].
    apply IH; assumption.
Qed.

Lemma strchr_missing a r :
  no_NUL a = true -> no_slash a = true ->
  strchr (a ++ NUL :: r) "/" = Some None.
Proof.
  induction a as [|x a IH]; intros Hn Hs.
  - reflexivity.
  - simpl in Hn, Hs. apply andb_prop in Hn as [Hx Hn]. apply andb_prop in Hs as [Hy Hs].
    simpl. destruct (ascii_eqb x "/"); [discriminate|]. destruct (ascii_eqb x NUL); [discriminate|].
    apply IH; assumption.
Qed.

Lemma slash_prefixes_no_slash a : forall pre rest,
  no_slash a = true ->
  Paths.slash_prefixes pre (a ++ rest) = Paths.slash_prefixes (pre ++ a) rest.
Proof.
  induction a as [|x a IH]; intros pre rest Hs.
  - rewrite app_nil_r. reflexivity.
  - simpl in Hs. apply andb_prop in Hs as [Hx Hs]. simpl.
    destruct (ascii_eqb x "/"); [discriminate|]. simpl.
    rewrite IH by assumption. rewrite <- app_assoc. reflexivity.
Qed.

(** a text is cut at its first slash, if it has one *)
Lemma first_slash text :
  (exists a r, text = a ++ "/"%char :: r /\ no_slash a = true) \/ no_slash text = true.
Proof.
  induction text as [|x text IH].
  - right. reflexivity.
  - destruct (ascii_eqb x "/") eqn:Hx.
    + left. apply ascii_eqb_true in Hx as ->. exists [], text. split; reflexivity.
    + destruct IH as [(a & r & -> & Ha)|Hs].
      * left. exists (x :: a), r. split; [reflexivity|]. simpl. rewrite Hx. assumption.
      * right. simpl. rewrite Hx. assumption.
Qed.

Lemma no_NUL_app a b : no_NUL (a ++ b) = true -> no_NUL a = true /\ no_NUL b = true.
Proof. unfold no_NUL. rewrite forallb_app. apply andb_prop. Qed.

Lemma make_path_loop_slashes temp stale : forall (n : nat) rest pre made fuel,
  (length rest < n)%nat ->
  temp = pre ++ "/"%char :: rest ++ NUL :: stale ->
  no_NUL pre = true -> no_NUL rest = true ->
  (length rest < fuel)%nat ->
  Paths.make_path_loop fuel temp (Some ("/"%char :: rest ++ NUL :: stale)) made =
  Ret (made ++ pre :: Paths.slash_prefixes (pre ++ ["/"%char]) rest).
Proof.
  induction n as [|n IH]; intros rest pre made fuel Hn Htemp Hpre Hrest Hfuel; [lia|].
  destruct fuel; [lia|].
  cbn [Paths.make_path_loop].
  assert (Hbefore : take (length temp - length ("/"%char :: rest ++ NUL :: stale)) temp = pre).
  { rewrite Htemp. rewrite length_app.
    replace (length pre + length ("/"%char :: rest ++ NUL :: stale)
             - length ("/"%char :: rest ++ NUL :: stale))%nat with (length pre) by lia.
    apply take_app_length. }
  rewrite Hbefore. cbn [skipn]. rewrite drop_0.
  rewrite c_str_app by exact Hpre.
  cbn [defined rbind].
  destruct (first_slash rest) as [(a & r & -> & Ha)|Hs].
  - apply no_NUL_app in Hrest as [Hna Hnr].
    rewrite <- (app_assoc a). cbn [app].
    rewrite strchr_found by assumption. cbn [defined rbind].
    rewrite (IH r (pre ++ "/"%char :: a) (made ++ [pre]) fuel).
    + rewrite slash_prefixes_no_slash by assumption.
      cbn [Paths.slash_prefixes].
      replace (ascii_eqb "/" "/") with true by reflexivity. cbn [app].
      repeat (rewrite <- ?app_assoc; cbn [app]). reflexivity.
    + rewrite length_app in Hn. simpl in Hn. lia.
    + rewrite Htemp. repeat (rewrite <- ?app_assoc; cbn [app]). reflexivity.
    + unfold no_NUL in *. rewrite forallb_app. simpl. rewrite Hpre, Hna. reflexivity.
    + unfold no_NUL in *. simpl in Hnr. exact Hnr.
    + rewrite length_app in Hfuel. simpl in Hfuel. lia.
  - rewrite strchr_missing by assumption. cbn [defined rbind].
    rewrite <- (app_nil_r rest). rewrite slash_prefixes_no_slash by assumption.
    cbn [Paths.slash_prefixes]. destruct fuel; reflexivity.
Qed.

Lemma make_path_dirs path stale :
  no_NUL path = true -> (length path < MAX_PATH)%nat ->
  Paths.make_path path stale = Ret (Paths.slash_prefixes [] path ++ [path]).
Proof.
  intros Hnul Hlen. unfold Paths.make_path, strcpy.
  apply Nat.ltb_lt in Hlen. rewrite Hlen. cbn [rbind].
  rewrite (c_str_app path stale Hnul).
  destruct (first_slash path) as [(a & r & Hp & Ha)|Hs].
  - pose proof Hnul as Hnul'. rewrite Hp in Hnul'. apply no_NUL_app in Hnul' as [Hna Hnr].
    assert (Htemp : path ++ NUL :: stale = a ++ "/"%char :: r ++ NUL :: stale).
    { rewrite Hp. rewrite <- app_assoc. reflexivity. }
    rewrite Htemp at 1.
    rewrite strchr_found by assumption. cbn [defined rbind].
    rewrite (make_path_loop_slashes (path ++ NUL :: stale) stale (S (length r)) r a []);
      try assumption; try lia.
    + cbn [rbind defined app]. rewrite Hp at 2.
      rewrite slash_prefixes_no_slash by assumption. cbn [Paths.slash_prefixes app].
      replace (ascii_eqb "/" "/") with true by reflexivity. reflexivity.
    + rewrite length_app. simpl. rewrite Hp, length_app. simpl. lia.
  - rewrite strchr_missing by assumption. cbn [defined rbind Paths.make_path_loop app].
    rewrite <- (app_nil_r path) at 2. rewrite slash_prefixes_no_slash by assumption.
    reflexivity.
Qed.

Lemma slashes_app a b : slashes (a ++ b) = (slashes a + slashes b)%nat.
Proof. unfold slashes. rewrite List.filter_app, length_app. reflexivity. Qed.

Lemma slashes_slash text : slashes ("/"%char :: text) = S (slashes text).
Proof. reflexivity. Qed.

Lemma slash_prefixes_length rest : forall pre,
  length (Paths.slash_prefixes pre rest) = slashes rest.
Proof.
  induction rest as [|c rest IH]; intros pre; [reflexivity|].
  cbn [Paths.slash_prefixes]. rewrite length_app, IH. unfold slashes. simpl.
  destruct (ascii_eqb c "/"); reflexivity.
Qed.

Lemma slash_prefixes_at a : forall pre b,
  Paths.slash_prefixes pre (a ++ "/"%char :: b) !! slashes a = Some (pre ++ a).
Proof.
  induction a as [|c a IH]; intros pre b.
  - rewrite app_nil_r. reflexivity.
  - cbn [Paths.slash_prefixes app]. unfold slashes. cbn [List.filter].
    destruct (ascii_eqb c "/").
    + transitivity (Paths.slash_prefixes (pre ++ [c]) (a ++ "/"%char :: b) !! slashes a);
        [reflexivity|].
      rewrite IH, <- app_assoc. reflexivity.
    + transitivity (Paths.slash_prefixes (pre ++ [c]) (a ++ "/"%char :: b) !! slashes a);
        [reflexivity|].
      rewrite IH, <- app_assoc. reflexivity.
Qed.

Lemma slash_prefixes_lookup rest : forall pre (i : nat) d,
  Paths.slash_prefixes pre rest !! i = Some d ->
  exists a b, rest = a ++ "/"%char :: b /\ d = pre ++ a /\ i = slashes a.
Proof.
  induction rest as [|c rest IH]; intros pre i d Hd.
  - simpl in Hd. rewrite lookup_nil in Hd. discriminate.
  - cbn [Paths.slash_prefixes] in Hd. destruct (ascii_eqb c "/") eqn:Hc.
    + apply ascii_eqb_true in Hc. subst c. destruct i as [|i].
      * injection Hd as <-. exists [], rest. rewrite app_nil_r. repeat split.
      * simpl in Hd. destruct (IH _ _ _ Hd) as (a & b & -> & -> & ->).
        exists ("/"%char :: a), b. rewrite <- app_assoc. repeat split.
    + simpl in Hd. destruct (IH _ _ _ Hd) as (a & b & -> & -> & ->).
      exists (c :: a), b. rewrite <- app_assoc. repeat split.
      unfold slashes. simpl. rewrite Hc. reflexivity.
Qed.

Lemma cut_at_last_split s ch pre :
  cut_at_last s ch = Some pre -> exists suf, s = pre ++ ch :: suf.
Proof.
  revert pre. induction s as [|c s IH]; intros pre H; [discriminate|].
  simpl in H. destruct (cut_at_last s ch) as [p|] eqn:Hs.
  - injection H as <-. destruct (IH p eq_refl) as (suf & ->). exists suf. reflexivity.
  - destruct (ascii_eqb c ch) eqn:Hc; [|discriminate]. injection H as <-.
    apply ascii_eqb_true in Hc as ->. exists s. reflexivity.
Qed.

(** X3.  For a path shorter than MAX_PATH, [make_path] hands to
    [make_directory] every beginning of the path that ends just before a
    slash, the shortest first, and at last the whole path.  So a directory
    is made only after its parent: whenever a name handed over has a slash,
    the part before its last slash was handed over earlier. *)
Theorem make_path_parents_first path stale :
  no_NUL path = true -> (length path < MAX_PATH)%nat ->
  let dirs := Paths.slash_prefixes [] path ++ [path] in
  Paths.make_path path stale = Ret dirs /\
  forall (i : nat) dir parent,
    dirs !! i = Some dir -> cut_at_last dir "/" = Some parent ->
    exists j : nat, (j < i)%nat /\ dirs !! j = Some parent.
Proof.
  intros Hnul Hlen dirs. split; [apply make_path_dirs; assumption|].
  intros i dir parent Hi Hcut.
  apply cut_at_last_split in Hcut as (suf & Hdir).
  assert (Hdecomp : exists rest, path = dir ++ rest /\ (slashes dir <= i)%nat).
  { unfold dirs in Hi. apply lookup_app_Some in Hi as [Hi|[Hge Hi]].
    - apply slash_prefixes_lookup in Hi as (a & b & Hp & Hd & Hslash).
      exists ("/"%char :: b). simpl in Hd. subst. split; [reflexivity|lia].
    - rewrite slash_prefixes_length in Hge, Hi.
      destruct (i - slashes path)%nat eqn:E; [|simpl in Hi; rewrite lookup_nil in Hi; discriminate].
      injection Hi as <-. exists []. rewrite app_nil_r. split; [reflexivity|lia]. }
  destruct Hdecomp as (rest & Hpath & Hle).
  exists (slashes parent). split.
  - rewrite Hdir, slashes_app, slashes_slash in Hle. lia.
  - unfold dirs. rewrite lookup_app_l.
    + rewrite Hpath, Hdir. rewrite <- app_assoc. cbn [app].
      apply (slash_prefixes_at parent [] (suf ++ rest)).
    + rewrite slash_prefixes_length. rewrite Hpath, Hdir, !slashes_app, slashes_slash. lia.
Qed.

Lemma make_path_parents_first_witness :
  no_NUL (lit "lol/DATA/Menu") = true /\ (length (lit "lol/DATA/Menu") < MAX_PATH)%nat /\
  Paths.make_path (lit "lol/DATA/Menu") [] =
    Ret [lit "lol"; lit "lol/DATA"; lit "lol/DATA/Menu"].
Proof.
  split; [reflexivity|]. split; [unfold MAX_PATH; simpl; lia|].
  apply (make_path_parents_first (lit "lol/DATA/Menu") []); [reflexivity|unfold MAX_PATH; simpl; lia].
Defined.

(** ** The progress bar *)

Lemma f_to_int_range lo hi v t : f_to_int lo hi v = Ret t -> lo <= t <= hi.
Proof.
  unfold f_to_int. destruct v as [m e| |]; try discriminate.
  destruct ((lo <=? ftrunc m e) && (ftrunc m e <=? hi)) eqn:H; [|discriminate].
  intros [= <-]. apply andb_prop in H as [H1 H2]. lia.
Qed.

Lemma bar_shown (k : nat) :
  (k <= 36)%nat -> c_str (skipn k bar) = Some (skipn k bar_text).
Proof.
  intros Hk. unfold bar. fold bar_text.
  rewrite skipn_app. replace (k - length bar_text)%nat with 0%nat by (unfold bar_text; simpl; lia).
  cbn [skipn]. apply c_str_app.
  do 37 (destruct k as [|k]; [reflexivity|]). lia.
Qed.

Lemma sprintf_fits cap text : (length text < cap)%nat -> sprintf cap text = Ret text.
Proof. intros H. unfold sprintf. apply Nat.ltb_lt in H. rewrite H. reflexivity. Qed.

Lemma sprintf_overflow cap text :
  (cap <= length text)%nat -> sprintf cap text = Stop UndefinedBehaviour.
Proof. intros H. unfold sprintf. apply Nat.ltb_ge in H. rewrite H. reflexivity. Qed.

Section Bar.

Variables (percentage : fval) (maxWidth index : Z).
Hypothesis Hwidth : 0 <= maxWidth < 2 ^ 32.
Hypothesis Hindex :
  f_to_i32 (fmul FLT (f_of_Z FLT (Z.min maxWidth 37)) percentage) = Ret index.

Let width := Z.min maxWidth 37.

Lemma bar_clamp :
  (if Z.of_nat (length bar) <? maxWidth then Z.of_nat (length bar) else maxWidth) = width.
Proof.
  change (Z.of_nat (length bar)) with 37. unfold width.
  destruct (37 <? maxWidth) eqn:H; lia.
Qed.

Lemma bar_in_range :
  1 <= index <= width ->
  build_progress_bar_string percentage maxWidth =
    Ret (lit "[" ++ skipn (Z.to_nat (37 - index)) bar_text ++
         replicate (Z.to_nat (width - index)) " "%char ++ lit "]") /\
  Z.of_nat (length (skipn (Z.to_nat (37 - index)) bar_text)) = index - 1 /\
  Z.of_nat (length (lit "[" ++ skipn (Z.to_nat (37 - index)) bar_text ++
                    replicate (Z.to_nat (width - index)) " "%char ++ lit "]")) = width + 1.
Proof.
  intros Hi.
  assert (Hw37 : 0 <= width <= 37) by (unfold width; lia).
  unfold build_progress_bar_string. rewrite bar_clamp. fold width in Hindex.
  rewrite Hindex. cbn [rbind]. change (Z.of_nat (length bar)) with 37.
  rewrite (Z.mod_small (37 - index)) by lia.
  replace (37 <? 37 - index) with false by (symmetry; apply Z.ltb_ge; lia).
  rewrite bar_shown by lia. cbn [defined rbind].
  unfold u32. rewrite (Z.mod_small (width - index)) by lia.
  assert (Hshown : Z.of_nat (length (skipn (Z.to_nat (37 - index)) bar_text)) = index - 1).
  { rewrite length_skipn. change (length bar_text) with 36%nat. lia. }
  assert (Hlen : Z.of_nat (length (lit "[" ++ skipn (Z.to_nat (37 - index)) bar_text ++
                    replicate (Z.to_nat (width - index)) " "%char ++ lit "]")) = width + 1).
  { rewrite !length_app, length_replicate. simpl length.
    rewrite !Nat2Z.inj_add, Hshown. lia. }
  split; [|split; assumption].
  apply sprintf_fits. lia.
Qed.

Lemma bar_out_of_range :
  ~ 1 <= index <= width ->
  build_progress_bar_string percentage maxWidth = Stop UndefinedBehaviour.
Proof.
  intros Hi.
  assert (Hw37 : 0 <= width <= 37) by (unfold width; lia).
  pose proof (f_to_int_range _ _ _ _ Hindex) as Hrange.
  unfold build_progress_bar_string. rewrite bar_clamp. fold width in Hindex.
  rewrite Hindex. cbn [rbind]. change (Z.of_nat (length bar)) with 37.
  destruct (Z_le_gt_dec index 0) as [H0|H0].
  - (* nothing of the bar, or a pointer behind it *)
    rewrite (Z.mod_small (37 - index)) by lia.
    destruct (Z.eq_dec index 0) as [->|Hn].
    + reflexivity.
    + replace (37 <? 37 - index) with true by (symmetry; apply Z.ltb_lt; lia). reflexivity.
  - destruct (Z_le_gt_dec index 37) as [H37|H37].
    + (* the number of blanks wraps around *)
      rewrite (Z.mod_small (37 - index)) by lia.
      replace (37 <? 37 - index) with false by (symmetry; apply Z.ltb_ge; lia).
      rewrite bar_shown by lia. cbn [defined rbind].
      apply sprintf_overflow. rewrite !length_app, length_replicate.
      assert (2 ^ 32 - 37 <= u32 (width - index)).
      { unfold u32. replace (width - index) with ((width - index + 2 ^ 32) + (-1) * 2 ^ 32) by ring.
        rewrite Z.mod_add by lia. rewrite Z.mod_small by lia. lia. }
      lia.
    + (* a pointer before the array *)
      replace ((37 - index) mod 2 ^ 64) with (37 - index + 2 ^ 64).
      * replace (37 <? 37 - index + 2 ^ 64) with true by (symmetry; apply Z.ltb_lt; lia).
        reflexivity.
      * replace (37 - index) with ((37 - index + 2 ^ 64) + (-1) * 2 ^ 64) at 2 by ring.
        rewrite Z.mod_add by lia. rewrite Z.mod_small by lia. reflexivity.
Qed.

End Bar.

(** X4.  With [width] the smaller of [maxWidth] and [sizeof(bar) = 37]
    and [index = (int)(width * percentage)]: when [1 <= index <= width] the
    bar is an opening bracket, the last [index - 1] characters of the arrow,
    [width - index] spaces and a closing bracket, [width + 1] characters in
    all.  For every other [index] the call is undefined: the text is read
    from outside the array [bar], or the loop of spaces, whose bound is
    computed in [unsigned int], runs over the buffer. *)
Theorem build_progress_bar_string_defined (percentage : fval) (maxWidth index : Z) :
  0 <= maxWidth < 2 ^ 32 ->
  let width := Z.min maxWidth 37 in
  f_to_i32 (fmul FLT (f_of_Z FLT width) percentage) = Ret index ->
  let text := lit "[" ++ skipn (Z.to_nat (37 - index)) bar_text ++
              replicate (Z.to_nat (width - index)) " "%char ++ lit "]" in
  (1 <= index <= width ->
   build_progress_bar_string percentage maxWidth = Ret text /\
   Z.of_nat (length (skipn (Z.to_nat (37 - index)) bar_text)) = index - 1 /\
   Z.of_nat (length text) = width + 1) /\
  (~ 1 <= index <= width ->
   build_progress_bar_string percentage maxWidth = Stop UndefinedBehaviour).
Proof.
  intros Hw width Hindex text. split.
  - apply bar_in_range; assumption.
  - apply bar_out_of_range; assumption.
Qed.

Lemma build_progress_bar_string_defined_witness :
  0 <= 20 < 2 ^ 32 /\
  f_to_i32 (fmul FLT (f_of_Z FLT (Z.min 20 37)) (fraction 1 2)) = Ret 10 /\
  build_progress_bar_string (fraction 1 2) 20 = Ret (lit "[========>          ]").
Proof.
  split; [lia|]. split; [reflexivity|].
  refine (proj1 (proj1 (build_progress_bar_string_defined (fraction 1 2) 20 10 _ _) _));
    [lia|reflexivity|lia].
Defined.

Lemma fmul_zero_r prec a : fmul prec a (FFin 0 0) = FFin 0 0 \/ fmul prec a (FFin 0 0) = FNaN.
Proof.
  destruct a as [m e| |]; [left|right; reflexivity|right; reflexivity].
  unfold fmul. rewrite Z.mul_0_r. reflexivity.
Qed.

Lemma fmul_zero_l prec b : fmul prec (FFin 0 0) b = FFin 0 0 \/ fmul prec (FFin 0 0) b = FNaN.
Proof.
  destruct b as [m e| |]; [left|right; reflexivity|right; reflexivity].
  unfold fmul. reflexivity.
Qed.

Lemma fraction_zero total : 1 <= total -> fraction 0 total = FFin 0 0.
Proof.
  intros Ht. unfold fraction. rewrite f_of_Z_zero.
  destruct (f_of_Z_positive FLT total) as (m & e & -> & Hm); [reflexivity|lia|].
  unfold fdiv. replace (m =? 0) with false by (symmetry; apply Z.eqb_neq; lia).
  reflexivity.
Qed.

(** X5.  An empty bar cannot be drawn.  For a percentage of zero,
    whatever the width, and for a width of zero, whatever the percentage,
    [index] is 0 and the text is read from [&bar[sizeof(bar)]], behind the
    terminator of the array: undefined behaviour.  This is the case of every
    callback that sees no byte yet, whatever the total. *)
Theorem build_progress_bar_string_empty :
  (forall maxWidth, build_progress_bar_string (FFin 0 0) maxWidth = Stop UndefinedBehaviour) /\
  (forall percentage, build_progress_bar_string percentage 0 = Stop UndefinedBehaviour) /\
  (forall bytesTotal maxWidth,
      build_progress_bar_string (fraction 0 (clamp_total bytesTotal)) maxWidth
      = Stop UndefinedBehaviour).
Proof.
  assert (H0 : forall maxWidth,
             build_progress_bar_string (FFin 0 0) maxWidth = Stop UndefinedBehaviour).
  { intros maxWidth. unfold build_progress_bar_string.
    destruct (fmul_zero_r FLT
                (f_of_Z FLT (if Z.of_nat (length bar) <? maxWidth
                             then Z.of_nat (length bar) else maxWidth))) as [-> | ->];
      reflexivity. }
  split; [exact H0|]. split.
  - intros percentage. unfold build_progress_bar_string.
    change (if Z.of_nat (length bar) <? 0 then Z.of_nat (length bar) else 0) with 0.
    rewrite f_of_Z_zero. destruct (fmul_zero_l FLT percentage) as [-> | ->]; reflexivity.
  - intros bytesTotal maxWidth. rewrite fraction_zero by apply clamp_total_positive.
    apply H0.
Qed.

(** ** The command line *)

Lemma set_trace_same w : set_trace (trace w) w = w.
Proof. destruct w. reflexivity. Qed.

Lemma set_trace_twice t1 t2 w : set_trace t2 (set_trace t1 w) = set_trace t2 w.
Proof. reflexivity. Qed.

Lemma trace_set_trace t w : trace (set_trace t w) = t.
Proof. reflexivity. Qed.

Lemma print_all_run texts : forall w,
  print_all texts w = (Ret tt, set_trace (trace w ++ map EPrintf texts) w).
Proof.
  induction texts as [|t texts IH]; intros w.
  - simpl. rewrite app_nil_r, set_trace_same. reflexivity.
  - cbn [print_all]. unfold pbind, printf, emit. rewrite IH.
    rewrite trace_set_trace, set_trace_twice, <- app_assoc. reflexivity.
Qed.

Lemma strcpy_fits cap text : (length text <? cap)%nat = true -> strcpy cap (Some text) = Ret text.
Proof. intros H. unfold strcpy. rewrite H. reflexivity. Qed.

Lemma other_word word :
  negb (bool_decide (word ∈ option_words)) = true ->
  word <> lit "-u" /\ word <> lit "-p" /\ word <> lit "-v" /\ word <> lit "-d" /\
  word <> lit "-h" /\ word <> lit "-i" /\ word <> lit "-r" /\ word <> lit "-k".
Proof.
  intros H. apply negb_true_iff, bool_decide_eq_false in H.
  unfold option_words in H. repeat split; intros ->; apply H; set_solver.
Qed.

Lemma parse_options_argument programName a tail o has w :
  argument_ok a = true ->
  parse_options programName (render_argument a ++ tail) o has w =
  parse_options programName tail (fst (apply_argument (o, has) a)) (snd (apply_argument (o, has) a))
                (set_trace (trace w ++ reported a) w).
Proof.
  intros Hok.
  assert (Hw : set_trace (trace w ++ []) w = w) by (rewrite app_nil_r; apply set_trace_same).
  destruct a as [v|v|v|v| | | |word]; cbn [render_argument app parse_options reported apply_argument fst snd];
    rewrite ?Hw.
  - decide_words. simpl in Hok. rewrite strcpy_fits by assumption. reflexivity.
  - decide_words. simpl in Hok. rewrite strcpy_fits by assumption. reflexivity.
  - decide_words. simpl in Hok. rewrite strcpy_fits by assumption. reflexivity.
  - decide_words. simpl in Hok. apply andb_prop in Hok as [Hlen Hnul].
    rewrite replace_char_text by exact Hnul. cbn [defined rbind].
    rewrite c_str_app.
    + rewrite strcpy_fits by (rewrite length_map; assumption). reflexivity.
    + unfold no_NUL in Hnul. rewrite forallb_forall in *. intros y Hy.
      apply in_map_iff in Hy as (x & <- & Hx). unfold replaced.
      destruct (ascii_eqb x "\"); [reflexivity|]. apply Hnul. assumption.
  - decide_words. reflexivity.
  - decide_words. reflexivity.
  - decide_words. reflexivity.
  - simpl in Hok. apply other_word in Hok as (H1 & H2 & H3 & H4 & H5 & H6 & H7 & H8).
    rewrite !bool_decide_eq_false_2 by assumption.
    destruct (bool_decide (head word = Some "-"%char)); [|rewrite Hw; reflexivity].
    reflexivity.
Qed.

Lemma parse_options_arguments programName args : forall tail o has w,
  Forall (fun a => argument_ok a = true) args ->
  parse_options programName (concat (map render_argument args) ++ tail) o has w =
  parse_options programName tail
    (fst (fold_left apply_argument args (o, has)))
    (snd (fold_left apply_argument args (o, has)))
    (set_trace (trace w ++ concat (map reported args)) w).
Proof.
  induction args as [|a args IH]; intros tail o has w Hok.
  - simpl. rewrite app_nil_r, set_trace_same. reflexivity.
  - inversion Hok as [|? ? Ha Hargs]; subst.
    cbn [map concat]. rewrite <- app_assoc.
    rewrite parse_options_argument by assumption.
    rewrite IH by assumption.
    rewrite trace_set_trace, set_trace_twice, <- app_assoc.
    cbn [fold_left]. rewrite <- surjective_pairing. reflexivity.
Qed.

(** X6.  The loop of [main] over [argv] reads the command line from left
    to right.  For options with their values (each shorter than the 64
    bytes of its field), switches and other words, -h not among them, the
    result is the fold of [apply_argument] over the arguments: a later
    option overrides an earlier one, -d stores the directory with every
    backslash turned into a slash, -v sets [hasSpecifiedGameVersion], a
    word that is no option changes nothing.  The only output is one line
    [Unknown option] for each such word that starts with a dash. *)
Theorem parse_options_reads_arguments programName args o has w :
  Forall (fun a => argument_ok a = true) args ->
  parse_options programName (concat (map render_argument args)) o has w =
  (Ret (fold_left apply_argument args (o, has)),
   set_trace (trace w ++ concat (map reported args)) w).
Proof.
  intros Hok.
  rewrite <- (app_nil_r (concat (map render_argument args))).
  rewrite parse_options_arguments by assumption.
  cbn [parse_options]. unfold pret. rewrite <- surjective_pairing. reflexivity.
Qed.

Lemma parse_options_reads_arguments_witness :
  let args := [ArgDest (lit "C:\games\lol"); ArgVersion (lit "0.0.0.1"); ArgOther (lit "-x");
               ArgRemove; ArgVersion (lit "0.0.0.130")] in
  Forall (fun a => argument_ok a = true) args /\
  parse_options (lit "loldownloader")
    [lit "-d"; lit "C:\games\lol"; lit "-v"; lit "0.0.0.1"; lit "-x"; lit "-r";
     lit "-v"; lit "0.0.0.130"] initial_options false (world_with ∅) =
  (Ret (mkOptions true true false DEFAULT_URL DEFAULT_PATH (lit "0.0.0.130")
                  (lit "C:/games/lol"), true),
   set_trace [EPrintf (lit "Unknown option -x" ++ [LF])] (world_with ∅)).
Proof.
  assert (H : Forall (fun a => argument_ok a = true)
                [ArgDest (lit "C:\games\lol"); ArgVersion (lit "0.0.0.1"); ArgOther (lit "-x");
                 ArgRemove; ArgVersion (lit "0.0.0.130")]) by (repeat constructor).
  split; [exact H|].
  exact (parse_options_reads_arguments (lit "loldownloader") _ initial_options false
           (world_with ∅) H).
Defined.

(** X7.  -h prints the ten lines of the usage text and exits.  What
    precedes it on the command line is read, what follows is not, and no
    download is started, a version given or not. *)
Theorem help_exits programName args rest (E : environment) w :
  Forall (fun a => argument_ok a = true) args ->
  main E programName (concat (map render_argument args) ++ lit "-h" :: rest) w =
  (Stop ExitCalled,
   set_trace (trace w ++ concat (map reported args) ++ map EPrintf (usage programName)) w).
Proof.
  intros Hok. unfold main. unfold pbind at 1.
  rewrite parse_options_arguments by assumption.
  cbn [parse_options]. decide_words.
  unfold pbind, pstop. rewrite print_all_run.
  rewrite trace_set_trace, set_trace_twice, <- app_assoc. reflexivity.
Qed.

Lemma help_exits_witness :
  Forall (fun a => argument_ok a = true) [ArgVersion (lit "0.0.0.130")] /\
  fst (main (plain_environment []) (lit "loldownloader")
            [lit "-v"; lit "0.0.0.130"; lit "-h"; lit "-u"] (world_with ∅)) = Stop ExitCalled.
Proof.
  assert (H : Forall (fun a => argument_ok a = true) [ArgVersion (lit "0.0.0.130")])
    by (repeat constructor).
  split; [exact H|].
  exact (f_equal fst (help_exits (lit "loldownloader") _ [lit "-u"] (plain_environment [])
                        (world_with ∅) H)).
Defined.

(** X8.  A command line that ends in -u, -p, -v or -d has no value for
    this option: [argv[++i]] is the null pointer that ends [argv], and
    [strcpy] (for -d, [replace_char]) reads through it.  The behaviour is
    undefined; nothing is printed for it. *)
Theorem missing_value_is_undefined programName args flag (E : environment) w :
  Forall (fun a => argument_ok a = true) args ->
  flag ∈ [lit "-u"; lit "-p"; lit "-v"; lit "-d"] ->
  main E programName (concat (map render_argument args) ++ [flag]) w =
  (Stop UndefinedBehaviour, set_trace (trace w ++ concat (map reported args)) w).
Proof.
  intros Hok Hflag. unfold main. unfold pbind at 1.
  rewrite parse_options_arguments by assumption.
  repeat (apply elem_of_cons in Hflag as [->|Hflag]);
    [| | | |apply elem_of_nil in Hflag; contradiction];
    cbn [parse_options]; decide_words; reflexivity.
Qed.

Lemma missing_value_is_undefined_witness :
  Forall (fun a => argument_ok a = true) [ArgRemove] /\
  (lit "-v" ∈ [lit "-u"; lit "-p"; lit "-v"; lit "-d"]) /\
  fst (main (plain_environment []) (lit "loldownloader") [lit "-r"; lit "-v"] (world_with ∅))
  = Stop UndefinedBehaviour.
Proof.
  assert (H : Forall (fun a => argument_ok a = true) [ArgRemove]) by (repeat constructor).
  assert (H' : lit "-v" ∈ [lit "-u"; lit "-p"; lit "-v"; lit "-d"]) by set_solver.
  split; [exact H|]. split; [exact H'|].
  exact (f_equal fst (missing_value_is_undefined (lit "loldownloader") _ (lit "-v")
                        (plain_environment []) (world_with ∅) H H')).
Defined.

Lemma only_printed_refl w : only_printed w w.
Proof. exists []. simpl. rewrite app_nil_r, set_trace_same. reflexivity. Qed.

Lemma only_printed_trans w1 w2 w3 :
  only_printed w1 w2 -> only_printed w2 w3 -> only_printed w1 w3.
Proof.
  intros (t1 & ->) (t2 & ->). exists (t1 ++ t2).
  rewrite trace_set_trace, set_trace_twice, map_app, app_assoc. reflexivity.
Qed.

Lemma only_printed_printf text w : only_printed w (set_trace (trace w ++ [EPrintf text]) w).
Proof. exists [text]. reflexivity. Qed.

Lemma parse_options_without_version programName : forall (n : nat) args o w,
  (length args <= n)%nat -> lit "-v" ∉ args ->
  match parse_options programName args o false w with
  | (Ret (_, has), w') => has = false /\ only_printed w w'
  | (Stop k, w') => (k = ExitCalled \/ k = UndefinedBehaviour) /\ only_printed w w'
  end.
Proof.
  induction n as [|n IH]; intros args o w Hn Hv.
  - destruct args; [|simpl in Hn; lia]. simpl. split; [reflexivity|apply only_printed_refl].
  - destruct args as [|arg args]; [simpl; split; [reflexivity|apply only_printed_refl]|].
    apply not_elem_of_cons in Hv as [Harg Hv]. simpl in Hn.
    assert (Hvalue : forall (set : list ascii -> Options -> Options),
      match
        match args with
        | [] => plift (s <- strcpy 64 None;; Ret (o, false))%result
        | value :: argv'' =>
            (s <- plift (strcpy 64 (Some value));;
             parse_options programName argv'' (set s o) false)%prog
        end w
      with
      | (Ret (_, has), w') => has = false /\ only_printed w w'
      | (Stop k, w') => (k = ExitCalled \/ k = UndefinedBehaviour) /\ only_printed w w'
      end).
    { intros set. destruct args as [|value args].
      - simpl. split; [right; reflexivity|apply only_printed_refl].
      - apply not_elem_of_cons in Hv as [_ Hv]. simpl in Hn.
        unfold pbind, plift. unfold strcpy. destruct (length value <? 64)%nat.
        + apply IH; [lia|assumption].
        + split; [right; reflexivity|apply only_printed_refl]. }
    cbn [parse_options].
    destruct (bool_decide (arg = lit "-u")); [apply Hvalue|].
    destruct (bool_decide (arg = lit "-p")); [apply Hvalue|].
    rewrite (bool_decide_eq_false_2 (arg = lit "-v")) by congruence.
    destruct (bool_decide (arg = lit "-d")).
    { destruct args as [|value args].
      - simpl. split; [right; reflexivity|apply only_printed_refl].
      - apply not_elem_of_cons in Hv as [_ Hv]. simpl in Hn.
        unfold pbind, plift.
        destruct (defined (replace_char (value ++ [NUL]) "\" "/")) as [array|k] eqn:Hr;
          cbn [rbind].
        + unfold strcpy. destruct (c_str array) as [text|].
          * destruct (length text <? 64)%nat.
            -- apply IH; [lia|assumption].
            -- split; [right; reflexivity|apply only_printed_refl].
          * split; [right; reflexivity|apply only_printed_refl].
        + apply defined_stop in Hr as ->. split; [right; reflexivity|apply only_printed_refl]. }
    destruct (bool_decide (arg = lit "-h")).
    { unfold pbind, pstop. rewrite print_all_run. split; [left; reflexivity|].
      eexists. reflexivity. }
    destruct (bool_decide (arg = lit "-i")); [apply IH; [lia|assumption]|].
    destruct (bool_decide (arg = lit "-r")); [apply IH; [lia|assumption]|].
    destruct (bool_decide (arg = lit "-k")); [apply IH; [lia|assumption]|].
    destruct (bool_decide (head arg = Some "-"%char)); [|apply IH; [lia|assumption]].
    unfold pbind, printf, emit.
    specialize (IH args o (set_trace (trace w ++ [EPrintf (lit "Unknown option " ++ arg ++ [LF])]) w)).
    destruct (parse_options programName args o false _) as [[[o' has]|k] w'].
    + destruct IH as [-> Hp]; [lia|assumption|]. split; [reflexivity|].
      eapply only_printed_trans; [apply only_printed_printf|exact Hp].
    + destruct IH as [Hk Hp]; [lia|assumption|]. split; [exact Hk|].
      eapply only_printed_trans; [apply only_printed_printf|exact Hp].
Qed.

(** X9.  Without the word -v among the arguments [main] does not get to the
    downloads: it stops, by [exit] or by undefined behaviour, and has done
    nothing but print. *)
Theorem no_version_no_download (E : environment) programName args w :
  lit "-v" ∉ args ->
  exists k texts,
    main E programName args w = (Stop k, set_trace (trace w ++ map EPrintf texts) w) /\
    (k = ExitCalled \/ k = UndefinedBehaviour).
Proof.
  intros Hv. unfold main. unfold pbind at 1.
  pose proof (parse_options_without_version programName (length args) args initial_options w
                (Nat.le_refl _) Hv) as H.
  destruct (parse_options programName args initial_options false w) as [[[o has]|k] w'].
  - destruct H as [-> (texts & ->)]. cbn [negb].
    unfold pbind, pstop, printf, emit. rewrite trace_set_trace, set_trace_twice.
    eexists ExitCalled, (texts ++ [_]). rewrite map_app, <- app_assoc. split; [reflexivity|].
    left. reflexivity.
  - destruct H as [Hk (texts & ->)]. exists k, texts. split; [reflexivity|exact Hk].
Qed.

Lemma no_version_no_download_witness :
  (lit "-v" ∉ [lit "-r"; lit "-d"; lit "lol"]) /\
  exists k texts,
    main (plain_environment []) (lit "loldownloader") [lit "-r"; lit "-d"; lit "lol"]
         (world_with ∅) =
    (Stop k, set_trace (trace (world_with ∅) ++ map EPrintf texts) (world_with ∅)) /\
    (k = ExitCalled \/ k = UndefinedBehaviour).
Proof.
  assert (H : lit "-v" ∉ [lit "-r"; lit "-d"; lit "lol"]).
  { intros Hin. repeat (apply elem_of_cons in Hin as [Hin|Hin]; [discriminate Hin|]).
    apply elem_of_nil in Hin. exact Hin. }
  split; [exact H|].
  exact (no_version_no_download (plain_environment []) (lit "loldownloader") _ (world_with ∅) H).
Defined.

(** ** Extraction, continued *)

Section ExtractionMore.
Variable E : environment.
Variable g_options : Options.






End ExtractionMore.

(** ** Single files *)

Section IndividualFiles.
Variable E : environment.
Variable g_options : Options.

Lemma download_individual_file_run (entry : FileEntry.t) (w : world) :
  let fileName := FileEntry.fileName entry in
  let final := strip_suffix fileName in
  let link := FileEntry.link entry in
  fileName <> final ->
  handle_idle (g_CURL w) ->
  removeExistingFiles g_options = true \/ files w !! final = None ->
  let compressed :=
    match files w !! fileName with
    | Some bytes => bytes
    | None => http_body E link 0
    end in
  let out := download_individual_file E g_options entry w in
  fst out = Ret tt /\
  files (snd out) = delete fileName (<[final := inflate E compressed]> (files w)) /\
  transfers (trace (snd out)) =
    transfers (trace w) ++
    match files w !! fileName with
    | Some _ => []
    | None => [ETransfer link 0 (Some fileName) zero_progress (CURLOPT_NOPROGRESS (g_CURL w))]
    end /\
  g_fileList (snd out) = g_fileList w /\
  g_fileArchiveList (snd out) = g_fileArchiveList w /\
  handle_idle (g_CURL (snd out)).
Proof.
  destruct entry as [link fileName BIN offsetInBIN size0 unk].
  cbn [FileEntry.fileName FileEntry.link].
  set (final := strip_suffix fileName).
  destruct w as [fs [url np nb rf wd] fl al st pd tr]. unfold handle_idle at 1.
  cbn [files g_CURL trace g_fileList g_fileArchiveList CURLOPT_NOBODY CURLOPT_RESUME_FROM CURLOPT_NOPROGRESS].
  unfold handle_idle.
  intros Hnf [-> ->] Hcase.
  unfold download_individual_file, fetch_and_inflate.
  cbn [FileEntry.fileName FileEntry.link]. fold final.
  assert (Hparent : forall tr0 : list event,
             transfers match cut_at_last fileName "/" with
                       | Some dir => tr0 ++ [EMakePath dir]
                       | None => tr0
                       end = transfers tr0).
  { intros tr0. destruct (cut_at_last fileName "/"); [|reflexivity].
    rewrite transfers_app. simpl. apply app_nil_r. }
  run_prog.
  destruct (fs !! final) as [old|] eqn:Hfinal.
  - (* the final file is there: it is removed first *)
    destruct Hcase as [Hremove|?]; [|discriminate].
    rewrite bool_decide_true by (eexists; reflexivity). rewrite Hremove. run_prog.
    rewrite lookup_delete_ne by congruence.
    destruct (fs !! fileName) as [stale|] eqn:Hname.
    + rewrite bool_decide_true by (eexists; reflexivity). run_prog.
      lookup_files. rewrite Hname. cbn [take drop app].
      split; [reflexivity|]. split; [|split].
      * rewrite drop_nil, app_nil_r. same_files fileName final.
      * rewrite !transfers_app. simpl. rewrite !app_nil_r. reflexivity.
      * repeat split.
    + rewrite bool_decide_false by (intros [? ?]; discriminate). run_prog.
      destruct (cut_at_last fileName "/") as [dir|] eqn:Hdir; run_prog.
      all: lookup_files; cbn [take drop app].
      all: split; [reflexivity|]; split; [|split];
             [rewrite drop_nil, app_nil_r; same_files fileName final
             |rewrite !transfers_app; simpl; rewrite ?app_nil_r; reflexivity
             |repeat split].
  - rewrite bool_decide_false by (intros [? ?]; discriminate). run_prog.
    destruct (fs !! fileName) as [stale|] eqn:Hname.
    + rewrite bool_decide_true by (eexists; reflexivity). run_prog.
      lookup_files. rewrite Hname. cbn [take drop app].
      split; [reflexivity|]. split; [|split].
      * rewrite drop_nil, app_nil_r. same_files fileName final.
      * rewrite !transfers_app. simpl. rewrite !app_nil_r. reflexivity.
      * repeat split.
    + rewrite bool_decide_false by (intros [? ?]; discriminate). run_prog.
      destruct (cut_at_last fileName "/") as [dir|] eqn:Hdir; run_prog.
      all: lookup_files; cbn [take drop app].
      all: split; [reflexivity|]; split; [|split];
             [rewrite drop_nil, app_nil_r; same_files fileName final
             |rewrite !transfers_app; simpl; rewrite ?app_nil_r; reflexivity
             |repeat split].
Qed.

(** X12.  [download_individual_file], when the final file is absent or
    existing files are to be removed, returns, and then the final file is
    what [inf] makes of the compressed file, and the compressed file is
    gone.  The compressed file is the one found on disk, whatever it holds
    and with no transfer made, or else the body fetched in full by one
    transfer. *)
Theorem download_individual_file_result (entry : FileEntry.t) (w : world) :
  let fileName := FileEntry.fileName entry in
  let final := strip_suffix fileName in
  let link := FileEntry.link entry in
  fileName <> final ->
  handle_idle (g_CURL w) ->
  removeExistingFiles g_options = true \/ files w !! final = None ->
  let compressed :=
    match files w !! fileName with
    | Some bytes => bytes
    | None => http_body E link 0
    end in
  let out := download_individual_file E g_options entry w in
  fst out = Ret tt /\
  files (snd out) = delete fileName (<[final := inflate E compressed]> (files w)) /\
  transfers (trace (snd out)) =
    transfers (trace w) ++
    match files w !! fileName with
    | Some _ => []
    | None => [ETransfer link 0 (Some fileName) zero_progress (CURLOPT_NOPROGRESS (g_CURL w))]
    end.
Proof.
  intros fileName final link Hnf Hidle Hcase compressed out.
  destruct (download_individual_file_run entry w Hnf Hidle Hcase) as (R1 & R2 & R3 & _).
  repeat split; assumption.
Qed.

End IndividualFiles.

(** ** The archives of a run *)

Section ArchivePhase.
Variable E : environment.
Variable g_options : Options.

(** X13.  With removal of existing files requested, an archive that is on
    disk is removed by [download_BIN_archive] and not fetched again (lines
    401-403 fall through to the end of the function); the extraction of an
    entry of this archive then prints [BIN file not found] and exits. *)
Theorem remove_existing_loses_archive (archive : FileArchiveEntry.t) (entry : FileEntry.t)
    (w : world) :
  removeExistingFiles g_options = true ->
  is_Some (files w !! FileArchiveEntry.fileName archive) ->
  FileArchiveEntry.fileName archive = BIN_file_name g_options (FileEntry.BIN entry) ->
  let name := FileArchiveEntry.fileName archive in
  let w1 := set_trace (trace w ++ [ERemove name]) (set_files (delete name (files w)) w) in
  download_BIN_archive E g_options archive w = (Ret tt, w1) /\
  extract_from_BIN E g_options entry w1 =
    (Stop ExitCalled,
     set_trace (trace w1 ++ [EPrintf (lit "[ERROR]: BIN file not found: " ++ name ++ [LF])]) w1).
Proof.
  destruct archive as [alink name]. destruct entry as [link fileName BIN offsetInBIN size0 unk].
  cbn [FileArchiveEntry.fileName FileEntry.BIN].
  intros Hremove Hfound Hname.
  destruct w as [fs c fl al st pd tr]. cbn [files] in Hfound.
  split.
  - unfold download_BIN_archive. cbn [FileArchiveEntry.fileName FileArchiveEntry.link].
    run_prog. rewrite bool_decide_true by exact Hfound. rewrite Hremove. run_prog. reflexivity.
  - unfold extract_from_BIN. cbn [FileEntry.fileName FileEntry.BIN]. rewrite <- Hname.
    run_prog. rewrite lookup_delete_eq.
    rewrite bool_decide_false by (intros [? ?]; discriminate). run_prog. reflexivity.
Qed.

Lemma pbind_Ret {A B} (c : prog A) (f : A -> prog B) w b w' :
  pbind c f w = (Ret b, w') -> exists a w1, c w = (Ret a, w1) /\ f a w1 = (Ret b, w').
Proof.
  unfold pbind. destruct (c w) as [[a|k] w1]; [|discriminate].
  intros H. exists a, w1. split; [reflexivity|exact H].
Qed.

Lemma for_each_remove (l : list FileArchiveEntry.t) : forall i w,
  for_each (fun _ entry => remove (FileArchiveEntry.fileName entry)) i l w =
  (Ret tt,
   set_trace (trace w ++ map (fun e => ERemove (FileArchiveEntry.fileName e)) l)
     (set_files (fold_left (fun fs e => delete (FileArchiveEntry.fileName e) fs) l (files w)) w)).
Proof.
  induction l as [|e l IH]; intros i w.
  - simpl. rewrite app_nil_r. destruct w. reflexivity.
  - cbn [for_each]. unfold pbind at 1. unfold remove at 1. run_prog.
    rewrite IH. destruct w. run_prog. cbn [fold_left map]. rewrite <- app_assoc. reflexivity.
Qed.

Lemma lookup_fold_delete (l : list FileArchiveEntry.t) : forall (fs : gmap (list ascii) (list ascii)) e,
  e ∈ l ->
  fold_left (fun fs e => delete (FileArchiveEntry.fileName e) fs) l fs
    !! FileArchiveEntry.fileName e = None.
Proof.
  induction l as [|x l IH]; intros fs e He.
  - apply elem_of_nil in He. contradiction.
  - cbn [fold_left]. apply elem_of_cons in He as [->|He].
    + clear IH. generalize (delete (FileArchiveEntry.fileName x) fs) (lookup_delete_eq fs (FileArchiveEntry.fileName x)).
      induction l as [|y l IH]; intros m Hm; [exact Hm|].
      cbn [fold_left]. apply IH.
      destruct (decide (FileArchiveEntry.fileName x = FileArchiveEntry.fileName y)) as [->|Hne].
      * apply lookup_delete_eq.
      * rewrite lookup_delete_ne by congruence. exact Hm.
    + apply IH. exact He.
Qed.

(** X14.  When archives are used and not to be kept, after every run of
    [get_files_using_packagemanifest] that returns, no archive of
    [g_fileArchiveList] is on disk. *)
Theorem archives_removed_after_run (manifest : list ascii) (w : world) :
  useBINFiles g_options = true -> keepBINFiles g_options = false ->
  let out := get_files_using_packagemanifest E g_options manifest w in
  fst out = Ret tt ->
  forall a, a ∈ g_fileArchiveList (snd out) ->
            files (snd out) !! FileArchiveEntry.fileName a = None.
Proof.
  intros Huse Hkeep out Hret a Ha. subst out.
  destruct (get_files_using_packagemanifest E g_options manifest w) as [r w'] eqn:Hrun.
  cbn [fst snd] in *. subst r.
  unfold get_files_using_packagemanifest in Hrun. rewrite Huse, Hkeep in Hrun.
  cbn [andb negb] in Hrun.
  repeat (apply pbind_Ret in Hrun as (? & ? & _ & Hrun)).
  rewrite for_each_remove in Hrun. injection Hrun as <-.
  cbn [files g_fileArchiveList set_trace set_files] in *.
  apply lookup_fold_delete. exact Ha.
Qed.

End ArchivePhase.

Section ArchiveList.
Variable E : environment.
Variable g_options : Options.

Lemma collect_archives_step (hasBIN : list bool) (i : Z) (ids : list Z) (total : Z) (w : world) :
  default false (hasBIN !! Z.to_nat i) = true ->
  collect_archives E g_options hasBIN (i :: ids) total w =
  collect_archives E g_options hasBIN ids
    (u32 (total + u32 (content_length E (release_url g_options (BINName i)))))
    (mkWorld (files w)
       (mkCURL (release_url g_options (BINName i)) false false
               (CURLOPT_RESUME_FROM (g_CURL w)) (CURLOPT_WRITEDATA (g_CURL w)))
       (g_fileList w)
       (g_fileArchiveList w ++ [archive_entry g_options i])
       (mkStatistics (numFilesInPackageManifest (g_stats w))
                     (i32 (numBINArchives (g_stats w) + 1))
                     (numBytesFromFileList (g_stats w))
                     (numBytesFromBINArchives (g_stats w)))
       zero_progress
       (trace w ++ [EProbe (release_url g_options (BINName i))])).
Proof.
  intros Hi. cbn [collect_archives]. rewrite Hi. fold (BINName i).
  destruct w as [fs [url np nb rf wd] fl al st pd tr].
  unfold file_size_remote, add_file_archive_entry. run_prog. reflexivity.
Qed.

(** X15.  The loop of lines 562-574 always returns.  For the identifiers
    marked in [hasBIN], in increasing order, it makes one header-only
    request each, appends one entry each to [g_fileArchiveList] (the link
    under [packages/files/], the name under the destination folder), counts
    them in [numBINArchives] and adds up their remote sizes in [unsigned
    int]; files and [g_fileList] are as before. *)
Theorem collect_archives_result (hasBIN : list bool) (ids : list Z) : forall (total : Z) (w : world),
  let chosen := marked hasBIN ids in
  let out := collect_archives E g_options hasBIN ids total w in
  fst out =
    Ret (fold_left (fun t i => u32 (t + u32 (content_length E (release_url g_options (BINName i)))))
                   chosen total) /\
  g_fileArchiveList (snd out) = g_fileArchiveList w ++ map (archive_entry g_options) chosen /\
  numBINArchives (g_stats (snd out)) =
    fold_left (fun n _ => i32 (n + 1)) chosen (numBINArchives (g_stats w)) /\
  trace (snd out) =
    trace w ++ map (fun i => EProbe (release_url g_options (BINName i))) chosen /\
  files (snd out) = files w /\
  g_fileList (snd out) = g_fileList w.
Proof.
  induction ids as [|i ids IH]; intros total w.
  - cbn. rewrite !app_nil_r. repeat split.
  - cbn zeta. unfold marked. cbn [List.filter].
    destruct (default false (hasBIN !! Z.to_nat i)) eqn:Hi.
    + fold (marked hasBIN ids). rewrite collect_archives_step by exact Hi.
      match goal with
      | |- context [collect_archives E g_options hasBIN ids ?t ?w1] =>
          specialize (IH t w1)
      end.
      cbn zeta in IH.
      destruct IH as (H1 & H2 & H3 & H4 & H5 & H6).
      rewrite H1, H2, H3, H4, H5, H6.
      cbn [files g_fileArchiveList g_stats numBINArchives trace g_fileList fold_left map].
      rewrite <- !app_assoc. repeat split.
    + cbn [collect_archives]. rewrite Hi. apply IH.
Qed.

End ArchiveList.

(** ** The statistics of a manifest *)

Lemma i32_add_l a b : i32 (i32 a + b) = i32 (a + b).
Proof.
  unfold i32. f_equal.
  replace (a + 2 ^ 31) with ((a + 2 ^ 31)) by ring.
  replace ((a + 2 ^ 31) mod 2 ^ 32 - 2 ^ 31 + b + 2 ^ 31)
    with ((a + 2 ^ 31) mod 2 ^ 32 + b) by ring.
  rewrite Z.add_mod_idemp_l by lia. f_equal. ring.
Qed.

Lemma fileCount_after ls : forall st a,
  fileCount st = i32 a ->
  fileCount (fold_left scan_step ls st) = i32 (a + Z.of_nat (length ls)).
Proof.
  induction ls as [|l ls IH]; intros st a Ha.
  - simpl. rewrite Z.add_0_r. exact Ha.
  - cbn [fold_left]. rewrite (IH (scan_step st l) (a + 1)).
    + f_equal. simpl length. lia.
    + cbn [scan_step fileCount]. rewrite Ha. apply i32_add_l.
Qed.

Lemma totalSize_after ls : forall st a,
  totalSize st = i32 a ->
  totalSize (fold_left scan_step ls st) = i32 (a + listed_bytes ls).
Proof.
  induction ls as [|l ls IH]; intros st a Ha.
  - simpl. rewrite Z.add_0_r. exact Ha.
  - cbn [fold_left]. rewrite (IH (scan_step st l) (a + number 10 (ml_size l))).
    + f_equal. unfold listed_bytes. simpl. lia.
    + cbn [scan_step totalSize]. rewrite Ha. apply i32_add_l.
Qed.

Lemma maxLineLength_after ls : forall st,
  0 <= maxLineLength st ->
  maxLineLength (fold_left scan_step ls st) = Z.max (maxLineLength st) (longest_line ls).
Proof.
  induction ls as [|l ls IH]; intros st Hst.
  - unfold longest_line. simpl. lia.
  - cbn [fold_left]. rewrite IH.
    + cbn [scan_step maxLineLength]. unfold longest_line. cbn [map fold_right].
      destruct (maxLineLength st <? Z.of_nat (length (render_line l))) eqn:H; lia.
    + cbn [scan_step maxLineLength].
      destruct (maxLineLength st <? Z.of_nat (length (render_line l))) eqn:H; lia.
Qed.

Section Statistics.
Variable E : environment.
Variable g_options : Options.

Lemma marked_after (ls : list manifest_line) (st : scan) (ids : list Z) :
  Forall (fun l => well_formed g_options l = true) ls ->
  Forall (fun i => 0 <= i < Z.of_nat (length (hasBIN st))) ids ->
  Forall (fun b => b = false) (hasBIN st) ->
  marked (hasBIN (fold_left scan_step ls st)) ids =
  List.filter (fun i => bool_decide (i ∈ archive_ids ls)) ids.
Proof.
  intros Hwf Hids Hclear. unfold marked.
  induction ids as [|i ids IH]; [reflexivity|].
  apply Forall_cons in Hids as [Hi Hids]. cbn [List.filter].
  rewrite (IH Hids).
  destruct (hasBIN_after g_options ls st (Z.to_nat i) Hwf) as [_ Hl]; [lia|].
  rewrite Hl. cbn [default].
  assert (H0 : default false (hasBIN st !! Z.to_nat i) = false).
  { destruct (hasBIN st !! Z.to_nat i) as [b|] eqn:Hb; [|reflexivity].
    rewrite Forall_forall in Hclear. apply (Hclear b).
    eapply list_elem_of_lookup_2. exact Hb. }
  rewrite H0. cbn [orb]. rewrite Z2Nat.id by lia. reflexivity.
Qed.

(** X16.  For a manifest of well-formed lines the first loop of
    [get_files_using_packagemanifest] returns with
    [numFilesInPackageManifest] the number of lines and
    [numBytesFromFileList] the sum of their size fields (both wrapped to
    [int]), [maxLineLength] the length of the longest line, and [hasBIN]
    marking exactly the archives named. *)
Theorem manifest_statistics (ls : list manifest_line) (w : world) :
  Forall (fun l => well_formed g_options l = true) ls ->
  exists st w',
    parse_packagemanifest E g_options (render_manifest ls) w = (Ret st, w') /\
    numFilesInPackageManifest (g_stats w') = i32 (Z.of_nat (length ls)) /\
    numBytesFromFileList (g_stats w') = i32 (listed_bytes ls) /\
    maxLineLength st = longest_line ls /\
    marked (hasBIN st) (map Z.of_nat (seq 0 (Z.to_nat MAX_BIN_COUNT))) =
      List.filter (fun i => bool_decide (i ∈ archive_ids ls))
                  (map Z.of_nat (seq 0 (Z.to_nat MAX_BIN_COUNT))).
Proof.
  intros Hwf. unfold render_manifest. rewrite parse_header_ok.
  set (st0 := mkScan _ 0 0 0 _).
  pose proof (render_lines_length ls) as Hlen.
  replace (S (length (concat (map render_line ls))))
    with (length ls + S (length (concat (map render_line ls)) - length ls))%nat by lia.
  unfold pbind at 1.
  pose proof (scan_lines_lines g_options ls
                (S (length (concat (map render_line ls)) - length ls)) st0 [] w Hwf) as Hrun.
  rewrite app_nil_r in Hrun. rewrite Hrun. clear Hrun.
  cbn [scan_lines]. rewrite fgets_eof. unfold pret at 1.
  unfold pbind, update, pret.
  eexists _, _. split; [reflexivity|].
  cbn [g_stats set_stats numFilesInPackageManifest numBytesFromFileList].
  split; [apply (fileCount_after ls st0 0); reflexivity|].
  split; [apply (totalSize_after ls st0 0); reflexivity|].
  split.
  - rewrite maxLineLength_after by (cbn; lia). cbn [st0 maxLineLength].
    assert (0 <= longest_line ls).
    { unfold longest_line. induction ls as [|l ls' IH]; simpl; [lia|].
      apply Forall_cons in Hwf as [_ Hwf]. simpl in Hlen. lia. }
    lia.
  - apply marked_after; [exact Hwf| |].
    + cbn [st0 hasBIN]. rewrite length_replicate. apply Forall_forall. intros i Hi.
      apply list_elem_of_fmap in Hi as (n & -> & Hn). apply elem_of_seq in Hn. lia.
    + cbn [st0 hasBIN]. apply Forall_forall. intros b Hb.
      apply elem_of_replicate in Hb as [-> _]. reflexivity.
Qed.

End Statistics.

(** ** A line without the marker *)

Lemma no_NUL_cons c t : no_NUL (c :: t) = true <-> ascii_eqb c NUL = false /\ no_NUL t = true.
Proof.
  unfold no_NUL. simpl. rewrite andb_true_iff, negb_true_iff. reflexivity.
Qed.

Lemma no_NUL_app_iff a b : no_NUL (a ++ b) = true <-> no_NUL a = true /\ no_NUL b = true.
Proof. unfold no_NUL. rewrite forallb_app, andb_true_iff. reflexivity. Qed.

(** the first terminator of an array is where it is *)
Lemma first_NUL a b c x y :
  no_NUL a = true -> no_NUL b = true ->
  a ++ NUL :: x = b ++ c :: y ->
  (c = NUL /\ a = b) \/ (c <> NUL /\ exists a', a = b ++ c :: a').
Proof.
  revert b. induction a as [|h a IH]; intros b Ha Hb Heq.
  - destruct b as [|h' b].
    + injection Heq as <- _. left. split; reflexivity.
    + injection Heq as <- _. apply no_NUL_cons in Hb as [Hb _]. discriminate.
  - apply no_NUL_cons in Ha as [Hh Ha]. destruct b as [|h' b].
    + injection Heq as <- _. right. split.
      * intros ->. discriminate.
      * exists a. reflexivity.
    + injection Heq as <- Heq. apply no_NUL_cons in Hb as [_ Hb].
      destruct (IH b Ha Hb Heq) as [[-> ->]|[Hc (a' & ->)]].
      * left. split; reflexivity.
      * right. split; [exact Hc|]. exists a'. reflexivity.
Qed.

Lemma starts_with_within pat s r :
  no_NUL pat = true ->
  starts_with pat (s ++ NUL :: r) = true -> exists b, s = pat ++ b.
Proof.
  revert s. induction pat as [|c pat IH]; intros s Hpat H.
  - exists s. reflexivity.
  - apply no_NUL_cons in Hpat as [Hc Hpat].
    destruct s as [|d s]; simpl in H.
    + apply andb_prop in H as [H _]. apply ascii_eqb_true in H. subst c. discriminate.
    + apply andb_prop in H as [H1 H2]. apply ascii_eqb_true in H1. subst d.
      destruct (IH s Hpat H2) as (b & ->). exists b. reflexivity.
Qed.

Lemma strstr_absent pat s r :
  no_NUL pat = true -> no_NUL s = true ->
  (forall a b, s <> a ++ pat ++ b) ->
  strstr (s ++ NUL :: r) pat = Some None.
Proof.
  intros Hpat. induction s as [|c s IH]; intros Hs Habsent.
  - reflexivity.
  - apply no_NUL_cons in Hs as [Hc Hs]. cbn [app strstr]. rewrite Hc.
    destruct (starts_with pat (c :: s ++ NUL :: r)) eqn:Hstart.
    + exfalso. destruct (starts_with_within pat (c :: s) r Hpat Hstart) as (b & Hb).
      apply (Habsent [] b). exact Hb.
    + apply IH; [exact Hs|]. intros a b ->. apply (Habsent (c :: a) b). reflexivity.
Qed.

Lemma skip_delims_split d p :
  p = fst (skip_delims d p) ++ snd (skip_delims d p) /\
  forallb (fun c => ascii_eqb c d) (fst (skip_delims d p)) = true.
Proof.
  induction p as [|c p IH]; [split; reflexivity|].
  simpl. destruct (ascii_eqb c d) eqn:Hc.
  - destruct (skip_delims d p) as [sk q]. simpl in *. destruct IH as [IH1 IH2].
    rewrite Hc, IH2. split; [f_equal; exact IH1|reflexivity].
  - split; reflexivity.
Qed.

Lemma end_token_split d q t by_delim r :
  end_token d q = Some (t, by_delim, r) ->
  q = t ++ (if by_delim then d else NUL) :: r /\ no_NUL t = true.
Proof.
  revert t. induction q as [|c q IH]; intros t H; [discriminate|].
  simpl in H. destruct (ascii_eqb c NUL) eqn:Hn.
  - injection H as <- <- <-. apply ascii_eqb_true in Hn. subst c. split; reflexivity.
  - destruct (ascii_eqb c d) eqn:Hd.
    + injection H as <- <- <-. apply ascii_eqb_true in Hd. subst c. split; reflexivity.
    + destruct (end_token d q) as [[[t' b'] r']|]; [|discriminate].
      injection H as <- <- <-. destruct (IH t' eq_refl) as [-> Ht].
      split; [reflexivity|]. apply no_NUL_cons. split; assumption.
Qed.

Section Marker.
Variable g_options : Options.

(** X17.  A line of the manifest that does not hold [files/] makes
    [parse_line] undefined, whatever its other fields: [strstr] returns a
    null pointer, which line 527 hands to [strchr]. *)
Theorem line_without_marker_is_undefined (text stale : list ascii) :
  no_NUL text = true ->
  (forall a b, text <> a ++ lit "files/" ++ b) ->
  parse_line g_options (text ++ NUL :: stale) = Stop UndefinedBehaviour.
Proof.
  intros Htext Habsent. unfold parse_line.
  destruct (strtok [] (text ++ NUL :: stale) ",") as [t1|] eqn:Htok; [|reflexivity].
  cbn [defined rbind].
  assert (Hline : exists s r, tok_before t1 ++ tok_saved t1 = s ++ NUL :: r /\
                              no_NUL s = true /\ exists b, text = s ++ b).
  { unfold strtok in Htok.
    destruct (skip_delims_split "," (text ++ NUL :: stale)) as [Hsplit Hsk].
    destruct (skip_delims "," (text ++ NUL :: stale)) as [sk q]. cbn [fst snd] in *.
    assert (Hsk' : no_NUL sk = true).
    { unfold no_NUL. rewrite forallb_forall in *. intros x Hx. specialize (Hsk x Hx).
      apply ascii_eqb_true in Hsk. subst x. reflexivity. }
    destruct q as [|c q]; [discriminate|].
    destruct (ascii_eqb c NUL) eqn:Hc.
    - injection Htok as <-. cbn [tok_before tok_saved app].
      apply ascii_eqb_true in Hc. subst c.
      destruct (first_NUL text sk NUL stale q Htext Hsk' Hsplit) as [[_ ->]|[Hne _]];
        [|contradiction].
      exists sk, q. split; [reflexivity|]. split; [exact Hsk'|]. exists []. symmetry. apply app_nil_r.
    - destruct (end_token "," (c :: q)) as [[[t by_delim] r]|] eqn:Hend; [|discriminate].
      apply end_token_split in Hend as [Hq Ht].
      assert (Hst : no_NUL (sk ++ t) = true) by (apply no_NUL_app_iff; split; assumption).
      rewrite Hq in Hsplit. rewrite app_assoc in Hsplit.
      destruct by_delim; injection Htok as <-; cbn [tok_before tok_saved app].
      + exists (sk ++ t), r. split; [rewrite <- !app_assoc; reflexivity|].
        split; [exact Hst|].
        destruct (first_NUL text (sk ++ t) "," stale r Htext Hst Hsplit) as [[Hx _]|[_ (a' & ->)]];
          [discriminate|].
        eexists. reflexivity.
      + exists (sk ++ t), r. split; [rewrite <- !app_assoc; reflexivity|].
        split; [exact Hst|].
        destruct (first_NUL text (sk ++ t) NUL stale r Htext Hst Hsplit) as [[_ ->]|[Hne _]];
          [|contradiction].
        exists []. symmetry. apply app_nil_r. }
  destruct Hline as (s & r & -> & Hs & b & Hb).
  rewrite strstr_absent; [reflexivity|reflexivity|exact Hs|].
  intros a b' Heq. apply (Habsent a (b' ++ b)). rewrite Hb, Heq, <- !app_assoc. reflexivity.
Qed.

End Marker.

Lemma line_without_marker_is_undefined_witness :
  no_NUL [CR; LF] = true /\
  parse_line default_options ([CR; LF] ++ NUL :: lit "stale") = Stop UndefinedBehaviour.
Proof.
  split; [reflexivity|].
  apply (line_without_marker_is_undefined default_options); [reflexivity|].
  intros a b H. destruct a as [|x [|y [|z a]]]; discriminate H.
Defined.

(** ** Bounds of rounded values *)

Lemma up_pos k : 0 < up k.
Proof. unfold up. apply Z.pow_pos_nonneg; lia. Qed.

Ltac up_norm :=
  repeat match goal with
         | |- context [up ?z] =>
             first [rewrite (up_nonneg z) by lia | rewrite (up_nonpos z) by lia]
         end;
  rewrite ?Z.mul_1_r, ?Z.mul_1_l.

Ltac up_norm_in H :=
  repeat match type of H with
         | context [up ?z] =>
             first [rewrite (up_nonneg z) in H by lia | rewrite (up_nonpos z) in H by lia]
         end;
  rewrite ?Z.mul_1_r, ?Z.mul_1_l in H.

(** [2^(a+b) = 2^a * 2^b], with the negative exponents moved across *)
Lemma up_add a b :
  up (a + b) * (up (- a) * up (- b)) = up a * up b * up (- (a + b)).
Proof.
  destruct (Z.le_gt_cases 0 a), (Z.le_gt_cases 0 b), (Z.le_gt_cases 0 (a + b));
    try lia; up_norm; pow_eq.
Qed.

Lemma div_rne_upper n d k : 0 <= n -> 0 < d -> n <= d * k -> div_rne n d <= k.
Proof.
  intros Hn Hd Hk. unfold div_rne.
  pose proof (Z.div_mod n d ltac:(lia)) as Hdm.
  pose proof (Z.mod_pos_bound n d Hd) as Hr.
  assert (n / d <= k) by (apply Z.div_le_upper_bound; lia).
  destruct (Z.ltb_spec (2 * (n mod d)) d); [lia|].
  destruct (Z.eq_dec (n / d) k) as [Heq|Hne]; [|destruct (d <? 2 * (n mod d)), (Z.even (n / d)); lia].
  (* the quotient is [k]: the remainder is zero *)
  exfalso. nia.
Qed.

Lemma div_rne_at_least n d k : 0 < d -> d * k <= n -> k <= div_rne n d.
Proof.
  intros Hd Hk. etransitivity; [|apply div_rne_lower].
  apply Z.div_le_lower_bound; lia.
Qed.

Lemma div_rne_monotone n1 n2 d : 0 <= n1 -> 0 < d -> n1 <= n2 -> div_rne n1 d <= div_rne n2 d.
Proof.
  intros Hn Hd Hle.
  destruct (Z.eq_dec (n1 / d) (n2 / d)) as [Hq|Hq].
  - (* the same quotient: the remainders are in order *)
    unfold div_rne. rewrite <- Hq.
    pose proof (Z.div_mod n1 d ltac:(lia)). pose proof (Z.div_mod n2 d ltac:(lia)).
    assert (n1 mod d <= n2 mod d) by nia.
    destruct (Z.ltb_spec (2 * (n1 mod d)) d), (Z.ltb_spec (2 * (n2 mod d)) d); try lia.
    + destruct (d <? 2 * (n2 mod d)), (Z.even (n1 / d)); lia.
    + destruct (Z.ltb_spec d (2 * (n1 mod d))), (Z.ltb_spec d (2 * (n2 mod d))); try lia.
      destruct (Z.even (n1 / d)); lia.
  - assert (n1 / d <= n2 / d) by (apply Z.div_le_mono; lia).
    etransitivity; [|apply div_rne_lower].
    apply div_rne_upper; [lia|lia|].
    pose proof (Z.div_mod n1 d ltac:(lia)). pose proof (Z.mod_pos_bound n1 d Hd).
    nia.
Qed.

(** the exponent that [round_pos] chooses: [2^e <= n / d < 2^(e+1)] *)
Lemma round_pos_exponent n d :
  0 < n -> 0 < d ->
  let e0 := Z.log2 n - Z.log2 d in
  let e := if d * up e0 <=? n * up (- e0) then e0 else e0 - 1 in
  d * up e <= n * up (- e) /\ n * up (- e) < 2 * d * up e.
Proof.
  intros Hn Hd e0 e.
  pose proof (Z.log2_spec n Hn) as [Hn1 Hn2].
  pose proof (Z.log2_spec d Hd) as [Hd1 Hd2].
  pose proof (Z.log2_nonneg n). pose proof (Z.log2_nonneg d).
  rewrite Z.pow_succ_r in Hn2, Hd2 by lia.
  set (a := Z.log2 n) in *. set (b := Z.log2 d) in *.
  assert (Ha : 0 < 2 ^ a) by (apply Z.pow_pos_nonneg; lia).
  assert (Hb : 0 < 2 ^ b) by (apply Z.pow_pos_nonneg; lia).
  subst e. destruct (Z.leb_spec (d * up e0) (n * up (- e0))) as [Htest|Htest].
  - split; [exact Htest|].
    subst e0. destruct (Z.le_gt_cases 0 (a - b)).
    + up_norm.
      assert (2 ^ a = 2 ^ b * 2 ^ (a - b)) by pow_eq.
      assert (0 < 2 ^ (a - b)) by (apply Z.pow_pos_nonneg; lia). nia.
    + up_norm.
      assert (2 ^ b = 2 ^ a * 2 ^ (- (a - b))) by pow_eq.
      assert (0 < 2 ^ (- (a - b))) by (apply Z.pow_pos_nonneg; lia). nia.
  - subst e0. destruct (Z.le_gt_cases 1 (a - b)).
    + up_norm_in Htest.
      up_norm.
      assert (2 ^ (a - b) = 2 * 2 ^ (a - b - 1)).
      { rewrite <- Z.pow_succ_r by lia. f_equal. lia. }
      assert (2 ^ a = 2 ^ b * 2 ^ (a - b)) by pow_eq.
      assert (0 < 2 ^ (a - b - 1)) by (apply Z.pow_pos_nonneg; lia). nia.
    + up_norm.
      destruct (Z.le_gt_cases 0 (a - b)).
      * assert (a - b = 0) as Hz by lia. rewrite Hz in *.
        change (up 0) with 1 in Htest. change (up (- 0)) with 1 in Htest.
        change (- (0 - 1)) with 1. change (2 ^ 1) with 2.
        assert (a = b) as Hab by lia. rewrite Hab in *. lia.
      * up_norm_in Htest.
        assert (2 ^ (- (a - b - 1)) = 2 * 2 ^ (- (a - b))).
        { rewrite <- Z.pow_succ_r by lia. f_equal. lia. }
        assert (2 ^ b = 2 ^ a * 2 ^ (- (a - b))) by pow_eq.
        assert (0 < 2 ^ (- (a - b))) by (apply Z.pow_pos_nonneg; lia). nia.
Qed.

(** the mantissa that [round_pos] computes is normalised *)
Lemma round_pos_mantissa prec n d :
  0 < prec -> 0 < n -> 0 < d ->
  exists m s,
    round_pos prec n d = (m, s) /\
    m = div_rne (n * up (- s)) (d * up s) /\
    d * up s * 2 ^ (prec - 1) <= n * up (- s) /\
    n * up (- s) < d * up s * 2 ^ prec /\
    2 ^ (prec - 1) <= m <= 2 ^ prec.
Proof.
  intros Hp Hn Hd.
  pose proof (round_pos_exponent n d Hn Hd) as He. cbv zeta in He.
  unfold round_pos. cbv zeta.
  set (e := if d * up (Z.log2 n - Z.log2 d) <=? n * up (- (Z.log2 n - Z.log2 d))
            then Z.log2 n - Z.log2 d else Z.log2 n - Z.log2 d - 1) in *.
  destruct He as [Hlo Hhi].
  set (s := e - (prec - 1)).
  assert (Hpp : 0 < 2 ^ (prec - 1)) by (apply Z.pow_pos_nonneg; lia).
  assert (H2p : 2 ^ prec = 2 * 2 ^ (prec - 1)).
  { rewrite <- Z.pow_succ_r by lia. f_equal. lia. }
  assert (Hbounds : d * up s * 2 ^ (prec - 1) <= n * up (- s) /\
                    n * up (- s) < d * up s * 2 ^ prec).
  { rewrite H2p.
    destruct (Z.le_gt_cases 0 s).
    - up_norm. up_norm_in Hlo. up_norm_in Hhi.
      assert (2 ^ e = 2 ^ s * 2 ^ (prec - 1)) by (subst s; pow_eq).
      assert (0 < 2 ^ s) by (apply Z.pow_pos_nonneg; lia). nia.
    - destruct (Z.le_gt_cases 0 e).
      + up_norm. up_norm_in Hlo. up_norm_in Hhi.
        assert (2 ^ (prec - 1) = 2 ^ e * 2 ^ (- s)) by (subst s; pow_eq).
        assert (0 < 2 ^ e) by (apply Z.pow_pos_nonneg; lia).
        assert (0 < 2 ^ (- s)) by (apply Z.pow_pos_nonneg; lia). nia.
      + up_norm. up_norm_in Hlo. up_norm_in Hhi.
        assert (2 ^ (- s) = 2 ^ (- e) * 2 ^ (prec - 1)) by (subst s; pow_eq).
        assert (0 < 2 ^ (- e)) by (apply Z.pow_pos_nonneg; lia). nia. }
  destruct Hbounds as [Hb1 Hb2].
  eexists _, _. split; [reflexivity|]. split; [reflexivity|].
  split; [exact Hb1|]. split; [exact Hb2|].
  pose proof (up_pos s). pose proof (up_pos (- s)).
  split.
  - apply div_rne_at_least; [nia|]. lia.
  - apply div_rne_upper; [nia|nia|]. lia.
Qed.

(** a rounded quotient does not pass an integer bound that the format
    holds: [M * 2^E] with [M] below [2^prec] *)
Lemma fround_upper prec n d M E :
  0 < prec -> 0 < n -> 0 < d -> 0 < M < 2 ^ prec -> 0 <= E ->
  n <= d * (M * 2 ^ E) ->
  exists m s, fround prec n d = FFin m s /\ 0 < m /\ m * up s <= M * 2 ^ E * up (- s).
Proof.
  intros Hp Hn Hd HM HE Hle.
  destruct (round_pos_mantissa prec n d Hp Hn Hd) as (m & s & Hr & Hm & Hb1 & Hb2 & Hm1 & Hm2).
  unfold fround. destruct (Z.eqb_spec n 0); [lia|].
  rewrite Z.abs_eq, Z.sgn_pos, Hr by lia. rewrite Z.mul_1_l.
  assert (Hpp : 0 < 2 ^ (prec - 1)) by (apply Z.pow_pos_nonneg; lia).
  assert (H2p : 2 ^ prec = 2 * 2 ^ (prec - 1)).
  { rewrite <- Z.pow_succ_r by lia. f_equal. lia. }
  assert (HE2 : 0 < 2 ^ E) by (apply Z.pow_pos_nonneg; lia).
  exists m, s. split; [reflexivity|]. split; [lia|].
  destruct (Z.le_gt_cases s 0).
  - up_norm. up_norm_in Hm. subst m.
    assert (0 < 2 ^ (- s)) by (apply Z.pow_pos_nonneg; lia).
    apply div_rne_upper; nia.
  - up_norm. up_norm_in Hm. up_norm_in Hb1. assert (0 < 2 ^ s) by (apply Z.pow_pos_nonneg; lia).
    destruct (Z.le_gt_cases s E).
    + assert (2 ^ E = 2 ^ s * 2 ^ (E - s)) by pow_eq.
      assert (0 < 2 ^ (E - s)) by (apply Z.pow_pos_nonneg; lia).
      assert (m <= M * 2 ^ (E - s)); [|nia].
      subst m. apply div_rne_upper; nia.
    + exfalso.
      assert (Hs : 2 ^ s = 2 ^ E * 2 ^ (s - E)) by pow_eq.
      assert (2 <= 2 ^ (s - E)).
      { change 2 with (2 ^ 1) at 1. apply Z.pow_le_mono_r; lia. }
      assert (Hx : d * 2 ^ E * (2 ^ (s - E) * 2 ^ (prec - 1)) <= d * 2 ^ E * M).
      { etransitivity; [|etransitivity; [exact Hb1|]]; [rewrite Hs|]; lia. }
      apply Z.mul_le_mono_pos_l in Hx; nia.
Qed.

Lemma fround_lower prec n d M E :
  0 < prec -> 0 < n -> 0 < d -> 0 < M < 2 ^ prec -> 0 <= E ->
  d * (M * 2 ^ E) <= n ->
  exists m s, fround prec n d = FFin m s /\ 0 < m /\ M * 2 ^ E * up (- s) <= m * up s.
Proof.
  intros Hp Hn Hd HM HE Hle.
  destruct (round_pos_mantissa prec n d Hp Hn Hd) as (m & s & Hr & Hm & Hb1 & Hb2 & Hm1 & Hm2).
  unfold fround. destruct (Z.eqb_spec n 0); [lia|].
  rewrite Z.abs_eq, Z.sgn_pos, Hr by lia. rewrite Z.mul_1_l.
  assert (Hpp : 0 < 2 ^ (prec - 1)) by (apply Z.pow_pos_nonneg; lia).
  assert (H2p : 2 ^ prec = 2 * 2 ^ (prec - 1)).
  { rewrite <- Z.pow_succ_r by lia. f_equal. lia. }
  assert (HE2 : 0 < 2 ^ E) by (apply Z.pow_pos_nonneg; lia).
  exists m, s. split; [reflexivity|]. split; [lia|].
  destruct (Z.le_gt_cases s 0).
  - up_norm. up_norm_in Hm. subst m.
    assert (0 < 2 ^ (- s)) by (apply Z.pow_pos_nonneg; lia).
    apply div_rne_at_least; nia.
  - up_norm. up_norm_in Hm. assert (0 < 2 ^ s) by (apply Z.pow_pos_nonneg; lia).
    destruct (Z.le_gt_cases s E).
    + assert (2 ^ E = 2 ^ s * 2 ^ (E - s)) by pow_eq.
      assert (0 < 2 ^ (E - s)) by (apply Z.pow_pos_nonneg; lia).
      assert (M * 2 ^ (E - s) <= m); [|nia].
      subst m. apply div_rne_at_least; nia.
    + assert (2 ^ s = 2 ^ E * 2 ^ (s - E)) by pow_eq.
      assert (2 <= 2 ^ (s - E)).
      { change 2 with (2 ^ 1) at 1. apply Z.pow_le_mono_r; lia. }
      nia.
Qed.

Lemma ftrunc_upper m s Y : 0 <= m -> m * up s <= Y * up (- s) -> ftrunc m s <= Y.
Proof.
  intros Hm H. unfold ftrunc. destruct (Z.leb_spec 0 s).
  - up_norm_in H. exact H.
  - up_norm_in H. assert (0 < 2 ^ (- s)) by (apply Z.pow_pos_nonneg; lia).
    rewrite Z.quot_div_nonneg by lia. apply Z.div_le_upper_bound; lia.
Qed.

Lemma ftrunc_lower m s Y : 0 <= m -> Y * up (- s) <= m * up s -> Y <= ftrunc m s.
Proof.
  intros Hm H. unfold ftrunc. destruct (Z.leb_spec 0 s).
  - up_norm_in H. exact H.
  - up_norm_in H. assert (0 < 2 ^ (- s)) by (apply Z.pow_pos_nonneg; lia).
    rewrite Z.quot_div_nonneg by lia. apply Z.div_le_lower_bound; lia.
Qed.

Lemma ftrunc_nonneg m s : 0 <= m -> 0 <= ftrunc m s.
Proof.
  intros Hm. apply ftrunc_lower; [exact Hm|]. pose proof (up_pos s). nia.
Qed.

Lemma at_most_zero Y : 0 <= Y -> at_most (FFin 0 0) Y.
Proof. intros H. exists 0, 0. split; [reflexivity|]. split; [lia|]. change (up (- 0)) with 1. lia. Qed.

Lemma f_of_Z_at_most prec z M E :
  0 < prec -> 0 <= z -> 0 < M < 2 ^ prec -> 0 <= E -> z <= M * 2 ^ E ->
  at_most (f_of_Z prec z) (M * 2 ^ E).
Proof.
  intros Hp Hz HM HE Hle.
  assert (0 < 2 ^ E) by (apply Z.pow_pos_nonneg; lia).
  destruct (Z.eq_dec z 0) as [->|Hz0]; [apply at_most_zero; nia|].
  destruct (fround_upper prec z 1 M E) as (m & s & Hr1 & Hr2 & Hr3); try lia.
  exists m, s. split; [exact Hr1|]. split; [lia|exact Hr3].
Qed.

Lemma f_of_Z_at_least prec z M E :
  0 < prec -> 0 < M < 2 ^ prec -> 0 <= E -> M * 2 ^ E <= z ->
  at_least (f_of_Z prec z) (M * 2 ^ E).
Proof.
  intros Hp HM HE Hle.
  assert (0 < 2 ^ E) by (apply Z.pow_pos_nonneg; lia).
  destruct (fround_lower prec z 1 M E) as (m & s & Hr1 & Hr2 & Hr3); try lia; try nia.
  exists m, s. split; [exact Hr1|]. split; [lia|exact Hr3].
Qed.

Lemma fdiv_at_most prec a b Ya Yb M E :
  0 < prec -> 0 < M < 2 ^ prec -> 0 <= E -> 0 < Yb ->
  at_most a Ya -> at_least b Yb -> Ya <= Yb * (M * 2 ^ E) ->
  at_most (fdiv prec a b) (M * 2 ^ E).
Proof.
  intros Hp HM HE HYb (ma & sa & -> & Hma & Ha) (mb & sb & -> & Hmb & Hb) Hle.
  assert (0 < 2 ^ E) by (apply Z.pow_pos_nonneg; lia).
  unfold fdiv. destruct (Z.eqb_spec mb 0); [lia|].
  rewrite Z.sgn_pos, Z.abs_eq, Z.mul_1_r by lia.
  destruct (Z.eq_dec ma 0) as [->|Hma0].
  { rewrite Z.mul_0_l. apply at_most_zero. nia. }
  pose proof (up_pos sa). pose proof (up_pos (- sa)).
  pose proof (up_pos sb). pose proof (up_pos (- sb)).
  pose proof (up_pos (sa - sb)). pose proof (up_pos (- (sa - sb))).
  pose proof (up_add sa (- sb)) as Hid.
  replace (sa + - sb) with (sa - sb) in Hid by lia.
  replace (- - sb) with sb in Hid by lia.
  destruct (fround_upper prec (ma * up (sa - sb)) (mb * up (- (sa - sb))) M E)
    as (m & s & Hr1 & Hr2 & Hr3); try lia; try nia.
  - apply (Z.mul_le_mono_pos_r _ _ (up (- sa) * up sb)); [nia|].
    transitivity (ma * up sa * (up (- sb) * up (- (sa - sb)))); [nia|].
    transitivity (Ya * up (- sa) * (up (- sb) * up (- (sa - sb)))).
    { apply Z.mul_le_mono_nonneg_r; nia. }
    transitivity (Yb * (M * 2 ^ E) * up (- sa) * (up (- sb) * up (- (sa - sb)))).
    { apply Z.mul_le_mono_nonneg_r; [nia|]. apply Z.mul_le_mono_nonneg_r; lia. }
    transitivity (mb * up sb * ((M * 2 ^ E) * up (- sa) * up (- (sa - sb)))); [|nia].
    transitivity (Yb * up (- sb) * ((M * 2 ^ E) * up (- sa) * up (- (sa - sb)))); [nia|].
    apply Z.mul_le_mono_nonneg_r; nia.
  - exists m, s. split; [exact Hr1|]. split; [lia|exact Hr3].
Qed.

Lemma fdiv_at_least prec a b Ya Yb M E :
  0 < prec -> 0 < M < 2 ^ prec -> 0 <= E -> 0 < Yb ->
  at_least a Ya -> at_most b Yb -> at_least b 1 -> Yb * (M * 2 ^ E) <= Ya ->
  at_least (fdiv prec a b) (M * 2 ^ E).
Proof.
  intros Hp HM HE HYb (ma & sa & -> & Hma & Ha) (mb & sb & Hbeq & Hmb & Hb)
         (mb' & sb' & -> & Hmb' & _) Hle.
  injection Hbeq as <- <-.
  assert (0 < 2 ^ E) by (apply Z.pow_pos_nonneg; lia).
  unfold fdiv. destruct (Z.eqb_spec mb' 0); [lia|].
  rewrite Z.sgn_pos, Z.abs_eq, Z.mul_1_r by lia.
  pose proof (up_pos sa). pose proof (up_pos (- sa)).
  pose proof (up_pos sb'). pose proof (up_pos (- sb')).
  pose proof (up_pos (sa - sb')). pose proof (up_pos (- (sa - sb'))).
  pose proof (up_add sa (- sb')) as Hid.
  replace (sa + - sb') with (sa - sb') in Hid by lia.
  replace (- - sb') with sb' in Hid by lia.
  destruct (fround_lower prec (ma * up (sa - sb')) (mb' * up (- (sa - sb'))) M E)
    as (m & s & Hr1 & Hr2 & Hr3); try lia; try nia.
  - apply (Z.mul_le_mono_pos_r _ _ (up (- sa) * up sb')); [nia|].
    transitivity (ma * up sa * (up (- sb') * up (- (sa - sb')))); [|nia].
    transitivity (Ya * up (- sa) * (up (- sb') * up (- (sa - sb')))).
    2:{ apply Z.mul_le_mono_nonneg_r; nia. }
    transitivity (Yb * (M * 2 ^ E) * up (- sa) * (up (- sb') * up (- (sa - sb')))).
    2:{ apply Z.mul_le_mono_nonneg_r; [nia|]. apply Z.mul_le_mono_nonneg_r; lia. }
    transitivity (mb' * up sb' * ((M * 2 ^ E) * up (- sa) * up (- (sa - sb')))); [nia|].
    transitivity (Yb * up (- sb') * ((M * 2 ^ E) * up (- sa) * up (- (sa - sb')))); [|nia].
    apply Z.mul_le_mono_nonneg_r; nia.
  - exists m, s. split; [exact Hr1|]. split; [lia|exact Hr3].
Qed.

Lemma fmul_at_most prec a b Ya Yb M E :
  0 < prec -> 0 < M < 2 ^ prec -> 0 <= E -> 0 <= Ya -> 0 <= Yb ->
  at_most a Ya -> at_most b Yb -> Ya * Yb <= M * 2 ^ E ->
  at_most (fmul prec a b) (M * 2 ^ E).
Proof.
  intros Hp HM HE HYa HYb (ma & sa & -> & Hma & Ha) (mb & sb & -> & Hmb & Hb) Hle.
  assert (0 < 2 ^ E) by (apply Z.pow_pos_nonneg; lia).
  unfold fmul. cbv zeta.
  destruct (Z.eq_dec (ma * mb) 0) as [H0|H0].
  { rewrite H0, Z.mul_0_l. apply at_most_zero. nia. }
  pose proof (up_pos sa). pose proof (up_pos (- sa)).
  pose proof (up_pos sb). pose proof (up_pos (- sb)).
  pose proof (up_pos (sa + sb)). pose proof (up_pos (- (sa + sb))).
  pose proof (up_add sa sb) as Hid.
  destruct (fround_upper prec (ma * mb * up (sa + sb)) (up (- (sa + sb))) M E)
    as (m & s & Hr1 & Hr2 & Hr3); try lia; try nia.
  - apply (Z.mul_le_mono_pos_r _ _ (up (- sa) * up (- sb))); [nia|].
    transitivity ((ma * up sa) * (mb * up sb) * up (- (sa + sb))); [nia|].
    transitivity ((Ya * up (- sa)) * (Yb * up (- sb)) * up (- (sa + sb))).
    { apply Z.mul_le_mono_nonneg_r; [lia|]. apply Z.mul_le_mono_nonneg; nia. }
    transitivity (Ya * Yb * (up (- sa) * up (- sb) * up (- (sa + sb)))); [nia|].
    transitivity (M * 2 ^ E * (up (- sa) * up (- sb) * up (- (sa + sb)))); [|nia].
    apply Z.mul_le_mono_nonneg_r; nia.
  - exists m, s. split; [exact Hr1|]. split; [lia|exact Hr3].
Qed.

Lemma fmul_at_least prec a b Ya Yb M E :
  0 < prec -> 0 < M < 2 ^ prec -> 0 <= E -> 0 <= Ya -> 0 <= Yb ->
  at_least a Ya -> at_least b Yb -> M * 2 ^ E <= Ya * Yb ->
  at_least (fmul prec a b) (M * 2 ^ E).
Proof.
  intros Hp HM HE HYa HYb (ma & sa & -> & Hma & Ha) (mb & sb & -> & Hmb & Hb) Hle.
  assert (0 < 2 ^ E) by (apply Z.pow_pos_nonneg; lia).
  unfold fmul. cbv zeta.
  pose proof (up_pos sa). pose proof (up_pos (- sa)).
  pose proof (up_pos sb). pose proof (up_pos (- sb)).
  pose proof (up_pos (sa + sb)). pose proof (up_pos (- (sa + sb))).
  pose proof (up_add sa sb) as Hid.
  destruct (fround_lower prec (ma * mb * up (sa + sb)) (up (- (sa + sb))) M E)
    as (m & s & Hr1 & Hr2 & Hr3); try lia; try nia.
  - apply (Z.mul_le_mono_pos_r _ _ (up (- sa) * up (- sb))); [nia|].
    transitivity ((ma * up sa) * (mb * up sb) * up (- (sa + sb))); [|nia].
    transitivity ((Ya * up (- sa)) * (Yb * up (- sb)) * up (- (sa + sb))).
    2:{ apply Z.mul_le_mono_nonneg_r; [lia|]. apply Z.mul_le_mono_nonneg; nia. }
    transitivity (Ya * Yb * (up (- sa) * up (- sb) * up (- (sa + sb)))); [|nia].
    transitivity (M * 2 ^ E * (up (- sa) * up (- sb) * up (- (sa + sb)))); [nia|].
    apply Z.mul_le_mono_nonneg_r; nia.
  - exists m, s. split; [exact Hr1|]. split; [lia|exact Hr3].
Qed.

Lemma f_to_int_at_most lo hi a Y :
  lo <= 0 -> Y <= hi -> at_most a Y ->
  exists t, f_to_int lo hi a = Ret t /\ 0 <= t <= Y.
Proof.
  intros Hlo Hhi (m & s & -> & Hm & Ha).
  pose proof (ftrunc_upper m s Y Hm Ha). pose proof (ftrunc_nonneg m s Hm).
  unfold f_to_int.
  replace (lo <=? ftrunc m s) with true by (symmetry; apply Z.leb_le; lia).
  replace (ftrunc m s <=? hi) with true by (symmetry; apply Z.leb_le; lia).
  eexists. split; [reflexivity|lia].
Qed.

Lemma f_to_int_at_least lo hi a Y :
  hi < Y -> at_least a Y -> f_to_int lo hi a = Stop UndefinedBehaviour.
Proof.
  intros Hhi (m & s & -> & Hm & Ha).
  pose proof (ftrunc_lower m s Y ltac:(lia) Ha).
  unfold f_to_int.
  replace (ftrunc m s <=? hi) with false by (symmetry; apply Z.leb_gt; lia).
  rewrite andb_false_r. reflexivity.
Qed.

(** ** The percentage, the bar and the time left *)

Lemma f_to_int_Ret_at_least lo hi a Y t :
  at_least a Y -> f_to_int lo hi a = Ret t -> Y <= t.
Proof.
  intros (m & s & -> & Hm & Ha). unfold f_to_int.
  destruct ((lo <=? ftrunc m s) && (ftrunc m s <=? hi)); [|discriminate].
  intros [= <-]. apply ftrunc_lower; [lia|exact Ha].
Qed.

(** the fraction shown when the total is not known *)
Lemma fraction_unknown_total now E :
  0 <= E < 32 -> 2 ^ E <= now ->
  at_least (fraction now (clamp_total 0)) (1 * 2 ^ E).
Proof.
  intros HE Hnow. change (clamp_total 0) with 1. unfold fraction.
  assert (0 < 2 ^ E) by (apply Z.pow_pos_nonneg; lia).
  apply (fdiv_at_least FLT _ _ (1 * 2 ^ E) 1 1 E); try (unfold FLT; lia).
  - apply f_of_Z_at_least; unfold FLT; lia.
  - change 1 with (1 * 2 ^ 0) at 2. apply f_of_Z_at_most; unfold FLT; simpl; lia.
  - change 1 with (1 * 2 ^ 0) at 2. apply f_of_Z_at_least; unfold FLT; simpl; lia.
Qed.

(** X18.  While the total is not known, from [2^25] bytes on the
    percentage [(int)(p * 100)] of line 243 is out of the range of [int]:
    the conversion is undefined and [show_progress] has no result. *)
Theorem percentage_overflows_without_total (pd : ProgressData) (bytesNow speed : Z) :
  2 ^ 25 <= bytesNow ->
  show_progress pd bytesNow 0 speed = Stop UndefinedBehaviour.
Proof.
  intros Hnow. unfold show_progress.
  assert (Hp : at_least (fmul FLT (fraction bytesNow (clamp_total 0)) (f_of_Z FLT 100))
                        (1 * 2 ^ 31)).
  { apply (fmul_at_least FLT _ _ (1 * 2 ^ 25) (25 * 2 ^ 2)); try (unfold FLT; lia).
    - apply fraction_unknown_total; lia.
    - apply f_of_Z_at_least; unfold FLT; lia. }
  unfold f_to_i32. rewrite (f_to_int_at_least _ _ _ (1 * 2 ^ 31)); [reflexivity|lia|exact Hp].
Qed.

Lemma percentage_overflows_without_total_witness :
  2 ^ 25 <= 40000000 /\
  show_progress zero_progress 40000000 0 1000 = Stop UndefinedBehaviour.
Proof.
  split; [lia|]. apply percentage_overflows_without_total. lia.
Defined.

(** X19.  While the total is not known (it is reported as 0 and clamped
    to 1, line 239) the fraction of line 241 is the byte count itself.
    From the second byte on, and for every width from 1 on, [index] is then
    above the width (or out of the range of [int]) and the bar is
    undefined. *)
Theorem progress_bar_overflows_without_total (bytesNow maxWidth : Z) :
  2 <= bytesNow -> 1 <= maxWidth < 2 ^ 32 ->
  build_progress_bar_string (fraction bytesNow (clamp_total 0)) maxWidth
  = Stop UndefinedBehaviour.
Proof.
  intros Hnow Hw.
  set (width := Z.min maxWidth 37).
  assert (Hw37 : 1 <= width <= 37) by (unfold width; lia).
  assert (Hp : at_least (fmul FLT (f_of_Z FLT width) (fraction bytesNow (clamp_total 0)))
                        (width * 2 ^ 1)).
  { apply (fmul_at_least FLT _ _ (width * 2 ^ 0) (1 * 2 ^ 1)); try (unfold FLT; lia).
    - apply f_of_Z_at_least; unfold FLT; lia.
    - apply fraction_unknown_total; lia. }
  destruct (f_to_i32 (fmul FLT (f_of_Z FLT width) (fraction bytesNow (clamp_total 0))))
    as [index|k] eqn:Hindex.
  - apply (bar_out_of_range _ _ index); [lia|exact Hindex|].
    pose proof (f_to_int_Ret_at_least _ _ _ _ _ Hp Hindex). fold width. lia.
  - unfold build_progress_bar_string.
    rewrite bar_clamp by lia. fold width. rewrite Hindex. cbn [rbind].
    unfold f_to_i32, f_to_int in Hindex.
    destruct (fmul FLT (f_of_Z FLT width) (fraction bytesNow (clamp_total 0)));
      try (injection Hindex as <-; reflexivity).
    destruct (_ && _); [discriminate|]. injection Hindex as <-. reflexivity.
Qed.

Lemma progress_bar_overflows_without_total_witness :
  2 <= 2 /\ 1 <= 20 < 2 ^ 32 /\
  build_progress_bar_string (fraction 2 (clamp_total 0)) 20 = Stop UndefinedBehaviour.
Proof.
  split; [lia|]. split; [lia|]. apply progress_bar_overflows_without_total; lia.
Defined.

Lemma build_ETA_string_value (bytesTotal bytesNow speedInBytesPerSecond : Z) :
  0 < speedInBytesPerSecond < 2 ^ 32 ->
  u32 (bytesTotal - bytesNow) <= 2 ^ 30 * speedInBytesPerSecond ->
  exists secondsLeft,
    0 <= secondsLeft <= 2 ^ 30 /\
    build_ETA_string bytesTotal bytesNow speedInBytesPerSecond =
      Ret (fmt_02d (secondsLeft / 3600) ++ lit ":" ++
           fmt_02d (secondsLeft mod 3600 / 60) ++ lit ":" ++
           fmt_02d (secondsLeft mod 3600 mod 60)).
Proof.
  intros Hspeed Hremaining. unfold build_ETA_string.
  set (remaining := u32 (bytesTotal - bytesNow)) in *.
  assert (Hr : 0 <= remaining < 2 ^ 32) by (apply Z.mod_pos_bound; lia).
  assert (Hq : at_most (fdiv FLT (f_of_Z FLT remaining) (f_of_Z FLT speedInBytesPerSecond))
                       (1 * 2 ^ 30)).
  { destruct (Z_lt_ge_dec speedInBytesPerSecond 4) as [Hsmall|Hbig].
    - apply (fdiv_at_most FLT _ _ (speedInBytesPerSecond * 2 ^ 30)
                          (speedInBytesPerSecond * 2 ^ 0)); try (unfold FLT; lia).
      + apply f_of_Z_at_most; unfold FLT; lia.
      + apply f_of_Z_at_least; unfold FLT; lia.
    - apply (fdiv_at_most FLT _ _ (1 * 2 ^ 32) (1 * 2 ^ 2)); try (unfold FLT; lia).
      + apply f_of_Z_at_most; unfold FLT; lia.
      + apply f_of_Z_at_least; unfold FLT; lia. }
  destruct (f_to_int_at_most (- 2 ^ 31) (2 ^ 31 - 1) _ (1 * 2 ^ 30) ltac:(lia) ltac:(lia) Hq)
    as (secondsLeft & Hs & Hrange).
  unfold f_to_i32. rewrite Hs. cbn [rbind].
  exists secondsLeft. split; [lia|].
  change (60 * 60) with 3600.
  pose proof (Z.mod_pos_bound secondsLeft 3600 ltac:(lia)).
  rewrite (Z.rem_mod_nonneg secondsLeft 3600) by lia.
  rewrite (Z.quot_div_nonneg secondsLeft 3600) by lia.
  rewrite (Z.quot_div_nonneg (secondsLeft mod 3600) 60) by lia.
  rewrite (Z.rem_mod_nonneg (secondsLeft mod 3600) 60) by lia.
  reflexivity.
Qed.

(** X20.  For a speed above zero and a remainder
    [(unsigned)(bytesTotal - bytesNow)] of at most [2^30] times the speed,
    the conversion to [int] in [build_ETA_string] is defined, its result
    [secondsLeft] lies between 0 and [2^30], and the text is its hours,
    minutes and seconds, of two digits at least each, with colons in
    between. *)
Theorem build_ETA_string_defined (bytesTotal bytesNow speedInBytesPerSecond : Z) :
  0 < speedInBytesPerSecond < 2 ^ 32 ->
  u32 (bytesTotal - bytesNow) <= 2 ^ 30 * speedInBytesPerSecond ->
  exists secondsLeft,
    0 <= secondsLeft <= 2 ^ 30 /\
    build_ETA_string bytesTotal bytesNow speedInBytesPerSecond =
      Ret (fmt_02d (secondsLeft / 3600) ++ lit ":" ++
           fmt_02d (secondsLeft mod 3600 / 60) ++ lit ":" ++
           fmt_02d (secondsLeft mod 3600 mod 60)).
Proof. exact (build_ETA_string_value bytesTotal bytesNow speedInBytesPerSecond). Qed.

Lemma build_ETA_string_defined_witness :
  0 < 1000 < 2 ^ 32 /\ u32 (5000000 - 1000000) <= 2 ^ 30 * 1000 /\
  build_ETA_string 5000000 1000000 1000 = Ret (lit "01:06:40").
Proof.
  split; [lia|]. split; [vm_compute; discriminate|].
  destruct (build_ETA_string_defined 5000000 1000000 1000) as (s & _ & H);
    [lia|vm_compute; discriminate|].
  reflexivity.
Defined.

(** conversion of an integer to a floating type keeps the order *)
Lemma f_of_Z_monotone prec z1 z2 :
  0 < prec -> 0 < z1 <= z2 ->
  exists m1 s1 m2 s2,
    f_of_Z prec z1 = FFin m1 s1 /\ f_of_Z prec z2 = FFin m2 s2 /\
    0 < m1 /\ 0 < m2 /\ m1 * up (s1 - s2) <= m2 * up (- (s1 - s2)).
Proof.
  intros Hp [Hz1 Hle].
  destruct (round_pos_mantissa prec z1 1 Hp Hz1 ltac:(lia))
    as (m1 & s1 & Hr1 & Hm1 & Hl1 & Hu1 & Hn1 & Hx1).
  destruct (round_pos_mantissa prec z2 1 Hp ltac:(lia) ltac:(lia))
    as (m2 & s2 & Hr2 & Hm2 & Hl2 & Hu2 & Hn2 & Hx2).
  unfold f_of_Z, fround.
  destruct (Z.eqb_spec z1 0); [lia|]. destruct (Z.eqb_spec z2 0); [lia|].
  rewrite !Z.abs_eq, !Z.sgn_pos, Hr1, Hr2 by lia. rewrite !Z.mul_1_l.
  assert (Hpp : 0 < 2 ^ (prec - 1)) by (apply Z.pow_pos_nonneg; lia).
  assert (H2p : 2 ^ prec = 2 * 2 ^ (prec - 1)).
  { rewrite <- Z.pow_succ_r by lia. f_equal. lia. }
  exists m1, s1, m2, s2. split; [reflexivity|]. split; [reflexivity|].
  split; [lia|]. split; [lia|].
  rewrite !Z.mul_1_l in *.
  assert (Hs : s1 <= s2).
  { destruct (Z.le_gt_cases s1 s2) as [|Hgt]; [assumption|exfalso].
    destruct (Z.le_gt_cases 0 s2).
    - up_norm_in Hl1. up_norm_in Hu2.
      assert (2 ^ s1 = 2 ^ s2 * 2 ^ (s1 - s2)) by pow_eq.
      assert (2 <= 2 ^ (s1 - s2)).
      { change 2 with (2 ^ 1) at 1. apply Z.pow_le_mono_r; lia. }
      assert (0 < 2 ^ s2) by (apply Z.pow_pos_nonneg; lia). nia.
    - destruct (Z.le_gt_cases 0 s1).
      + up_norm_in Hl1. up_norm_in Hu2.
        assert (0 < 2 ^ s1) by (apply Z.pow_pos_nonneg; lia).
        assert (2 <= 2 ^ (- s2)).
        { change 2 with (2 ^ 1) at 1. apply Z.pow_le_mono_r; lia. }
        nia.
      + up_norm_in Hl1. up_norm_in Hu2.
        assert (2 ^ (- s2) = 2 ^ (- s1) * 2 ^ (s1 - s2)) by pow_eq.
        assert (2 <= 2 ^ (s1 - s2)).
        { change 2 with (2 ^ 1) at 1. apply Z.pow_le_mono_r; lia. }
        assert (0 < 2 ^ (- s1)) by (apply Z.pow_pos_nonneg; lia). nia. }
  destruct (Z.eq_dec s1 s2) as [Heq|Hne].
  - subst s2. rewrite Z.sub_diag. change (up 0) with 1. change (up (- 0)) with 1.
    rewrite !Z.mul_1_r. subst m1 m2.
    pose proof (up_pos s1). pose proof (up_pos (- s1)).
    apply div_rne_monotone; nia.
  - up_norm.
    assert (2 <= 2 ^ (- (s1 - s2))).
    { change 2 with (2 ^ 1) at 1. apply Z.pow_le_mono_r; lia. }
    nia.
Qed.

Lemma fraction_at_most_one now total :
  0 <= now <= total -> 1 <= total -> at_most (fraction now total) (1 * 2 ^ 0).
Proof.
  intros Hnow Htotal. unfold fraction.
  destruct (Z.eq_dec now 0) as [->|Hn0].
  { fold (fraction 0 total). rewrite fraction_zero by lia. apply at_most_zero. lia. }
  destruct (f_of_Z_monotone FLT now total) as (m1 & s1 & m2 & s2 & -> & -> & H1 & H2 & Hle);
    [reflexivity|lia|].
  unfold fdiv. destruct (Z.eqb_spec m2 0); [lia|].
  rewrite Z.sgn_pos, Z.abs_eq, Z.mul_1_r by lia.
  pose proof (up_pos (s1 - s2)). pose proof (up_pos (- (s1 - s2))).
  destruct (fround_upper FLT (m1 * up (s1 - s2)) (m2 * up (- (s1 - s2))) 1 0)
    as (m & s & Hr1 & Hr2 & Hr3); try (unfold FLT; lia); try nia.
  exists m, s. split; [exact Hr1|]. split; [lia|exact Hr3].
Qed.

(** the conversion [(int)(p * 100)] for a fraction of at most one *)
Lemma percent_defined now total :
  0 <= now <= total -> 1 <= total ->
  exists percent,
    f_to_i32 (fmul FLT (fraction now total) (f_of_Z FLT 100)) = Ret percent /\
    0 <= percent <= 100.
Proof.
  intros Hnow Htotal.
  assert (Hp : at_most (fmul FLT (fraction now total) (f_of_Z FLT 100)) (25 * 2 ^ 2)).
  { apply (fmul_at_most FLT _ _ (1 * 2 ^ 0) (25 * 2 ^ 2)); try (unfold FLT; lia).
    - apply fraction_at_most_one; lia.
    - apply f_of_Z_at_most; unfold FLT; lia. }
  destruct (f_to_int_at_most (- 2 ^ 31) (2 ^ 31 - 1) _ (25 * 2 ^ 2) ltac:(lia) ltac:(lia) Hp)
    as (percent & Hs & Hrange).
  exists percent. split; [exact Hs|lia].
Qed.

(** X21.  When the bytes received do not exceed the clamped total, the
    conversion [(int)(p * 100)] of line 243 is defined and its result lies
    between 0 and 100; it is the percentage of the line that
    [show_progress] returns, if it returns one. *)
Theorem percentage_within_range (pd : ProgressData) (bytesNow bytesTotal speed : Z) :
  0 <= bytesNow <= clamp_total bytesTotal ->
  exists percent,
    f_to_i32 (fmul FLT (fraction bytesNow (clamp_total bytesTotal)) (f_of_Z FLT 100))
    = Ret percent /\
    0 <= percent <= 100 /\
    forall line,
      show_progress pd bytesNow bytesTotal speed = Ret line -> shown_percent line = percent.
Proof.
  intros Hnow. pose proof (clamp_total_positive bytesTotal) as Htotal.
  destruct (percent_defined bytesNow (clamp_total bytesTotal) Hnow Htotal)
    as (percent & Hs & Hrange).
  exists percent. split; [exact Hs|]. split; [lia|].
  intros line. unfold show_progress. rewrite Hs. cbn [rbind].
  destruct (build_ETA_string _ _ _); cbn [rbind]; [|discriminate].
  intros [= <-]. reflexivity.
Qed.

Lemma percentage_within_range_witness :
  0 <= 1 <= clamp_total 3 /\
  f_to_i32 (fmul FLT (fraction 1 (clamp_total 3)) (f_of_Z FLT 100)) = Ret 33.
Proof.
  split; [vm_compute; split; discriminate|].
  destruct (percentage_within_range zero_progress 1 3 0) as (percent & H & _);
    [vm_compute; split; discriminate|].
  reflexivity.
Defined.

(** ** The length of printed numbers *)

Lemma double_digits d :
  (Decimal.nb_digits (Decimal.Little.double d) <= S (Decimal.nb_digits d))%nat /\
  (Decimal.nb_digits (Decimal.Little.succ_double d) <= S (Decimal.nb_digits d))%nat.
Proof.
  induction d as [|d [IH1 IH2]|d [IH1 IH2]|d [IH1 IH2]|d [IH1 IH2]|d [IH1 IH2]
                  |d [IH1 IH2]|d [IH1 IH2]|d [IH1 IH2]|d [IH1 IH2]|d [IH1 IH2]];
    simpl; lia.
Qed.

Lemma to_little_uint_digits p :
  Z.of_nat (Decimal.nb_digits (Pos.to_little_uint p)) <= Z.log2 (Z.pos p) + 1.
Proof.
  induction p as [p IH|p IH|].
  - cbn [Pos.to_little_uint].
    pose proof (proj2 (double_digits (Pos.to_little_uint p))).
    change (Z.pos p~1) with (2 * Z.pos p + 1).
    rewrite Z.log2_succ_double by lia. lia.
  - cbn [Pos.to_little_uint].
    pose proof (proj1 (double_digits (Pos.to_little_uint p))).
    change (Z.pos p~0) with (2 * Z.pos p).
    rewrite Z.log2_double by lia. lia.
  - simpl. lia.
Qed.

Lemma string_of_uint_length d :
  length (lit (NilEmpty.string_of_uint d)) = Decimal.nb_digits d.
Proof.
  unfold lit. induction d; simpl; congruence.
Qed.

Lemma fmt_d_length z k : 0 <= z < 2 ^ k -> 1 <= k -> Z.of_nat (length (fmt_d z)) <= k.
Proof.
  intros [Hz Hk] H1. unfold fmt_d. destruct z as [|p|p]; [simpl; lia| |lia].
  cbn [Z.to_int NilZero.string_of_int]. unfold NilZero.string_of_uint.
  assert (Hlen : Z.of_nat (length (lit (NilEmpty.string_of_uint (Pos.to_uint p)))) <= k).
  { rewrite string_of_uint_length. unfold Pos.to_uint.
    rewrite DecimalFacts.nb_digits_rev.
    pose proof (to_little_uint_digits p).
    assert (Z.log2 (Z.pos p) < k) by (apply Z.log2_lt_pow2; lia). lia. }
  destruct (Pos.to_uint p); try exact Hlen. simpl. lia.
Qed.

Lemma dec_digits_length k z : length (dec_digits k z) = k.
Proof.
  revert z. induction k as [|k IH]; intros z; [reflexivity|].
  cbn [dec_digits]. rewrite length_app, IH. simpl. lia.
Qed.

Lemma fmt_f_length (k : nat) a Y j :
  at_most a Y -> 0 <= Y < 2 ^ j -> 1 <= j -> (0 < k)%nat ->
  Z.of_nat (length (fmt_f k a)) <= j + 1 + Z.of_nat k.
Proof.
  intros (m & s & -> & Hm & Ha) HY Hj Hk. unfold fmt_f.
  set (unit := 10 ^ Z.of_nat k).
  assert (Hunit : 0 < unit) by (apply Z.pow_pos_nonneg; lia).
  replace (m <? 0) with false by (symmetry; apply Z.ltb_ge; lia).
  replace (k =? 0)%nat with false by (symmetry; apply Nat.eqb_neq; lia).
  rewrite Z.abs_eq by lia.
  set (scaled := if 0 <=? s then m * 2 ^ s * unit else div_rne (m * unit) (2 ^ (- s))).
  assert (Hscaled : 0 <= scaled <= Y * unit).
  { subst scaled. destruct (Z.leb_spec 0 s).
    - up_norm_in Ha. assert (0 < 2 ^ s) by (apply Z.pow_pos_nonneg; lia). nia.
    - up_norm_in Ha. assert (0 < 2 ^ (- s)) by (apply Z.pow_pos_nonneg; lia).
      split.
      + apply (div_rne_error (m * unit) (2 ^ (- s))); nia.
      + apply div_rne_upper; nia. }
  assert (Hint : 0 <= scaled / unit < 2 ^ j).
  { split; [apply Z.div_pos; lia|].
    apply Z.div_lt_upper_bound; [lia|]. nia. }
  pose proof (fmt_d_length (scaled / unit) j Hint Hj).
  cbn [app]. rewrite length_app. cbn [length lit list_ascii_of_string app].
  rewrite dec_digits_length. lia.
Qed.

(** ** Division by a power of two is exact *)

Lemma fround_scale prec n d j :
  0 < n -> 0 < d -> 0 <= j -> fround prec (n * 2 ^ j) (d * 2 ^ j) = fround prec n d.
Proof.
  intros Hn Hd Hj.
  assert (H2 : 0 < 2 ^ j) by (apply Z.pow_pos_nonneg; lia).
  unfold fround.
  destruct (Z.eqb_spec (n * 2 ^ j) 0); [nia|]. destruct (Z.eqb_spec n 0); [lia|].
  rewrite !Z.abs_eq, !Z.sgn_pos by nia.
  unfold round_pos. cbv zeta.
  rewrite !Z.log2_mul_pow2 by lia.
  replace (j + Z.log2 n - (j + Z.log2 d)) with (Z.log2 n - Z.log2 d) by lia.
  set (e0 := Z.log2 n - Z.log2 d).
  pose proof (up_pos e0). pose proof (up_pos (- e0)).
  replace (d * 2 ^ j * up e0 <=? n * 2 ^ j * up (- e0)) with (d * up e0 <=? n * up (- e0)).
  2:{ destruct (Z.leb_spec (d * up e0) (n * up (- e0))),
               (Z.leb_spec (d * 2 ^ j * up e0) (n * 2 ^ j * up (- e0))); try reflexivity; nia. }
  set (s := (if d * up e0 <=? n * up (- e0) then e0 else e0 - 1) - (prec - 1)).
  pose proof (up_pos s). pose proof (up_pos (- s)).
  replace (n * 2 ^ j * up (- s)) with (n * up (- s) * 2 ^ j) by ring.
  replace (d * 2 ^ j * up s) with (d * up s * 2 ^ j) by ring.
  rewrite div_rne_scale by nia. reflexivity.
Qed.

Lemma KiB_value : KiB = FFin (2 ^ 52) (- 42).
Proof. reflexivity. Qed.

Lemma fround_dyadic z k :
  0 < z < 2 ^ 53 -> 0 <= k -> fround DBL z (2 ^ k) = dyadic z k.
Proof.
  intros Hz Hk. rewrite fround_pow2 by lia. unfold dyadic, mantissa, DBL.
  assert (Z.log2 z < 53) by (apply Z.log2_lt_pow2; lia).
  replace (Z.log2 z - 53 + 1 <=? 0) with true by (symmetry; apply Z.leb_le; lia).
  f_equal; [f_equal; f_equal; lia|lia].
Qed.

Lemma f_of_Z_dyadic z : 0 < z < 2 ^ 53 -> f_of_Z DBL z = dyadic z 0.
Proof. intros Hz. unfold f_of_Z. change 1 with (2 ^ 0). apply fround_dyadic; lia. Qed.

Lemma fdiv_KiB z k :
  0 < z < 2 ^ 53 -> 0 <= k <= 100 -> fdiv DBL (dyadic z k) KiB = dyadic z (k + 10).
Proof.
  intros Hz Hk. rewrite KiB_value. unfold dyadic at 1. unfold fdiv.
  change (2 ^ 52 =? 0) with false. cbv iota.
  change (Z.sgn (2 ^ 52)) with 1. change (Z.abs (2 ^ 52)) with (2 ^ 52).
  rewrite Z.mul_1_r.
  pose proof (Z.log2_nonneg z) as Hl.
  assert (Hl53 : Z.log2 z < 53) by (apply Z.log2_lt_pow2; lia).
  set (L := Z.log2 z) in *.
  replace (L - 52 - k - -42) with (L - 10 - k) by lia.
  rewrite <- (fround_dyadic z (k + 10)) by lia.
  destruct (Z.le_gt_cases 0 (L - 10 - k)).
  - up_norm. rewrite <- Z.mul_assoc, <- Z.pow_add_r by lia.
    replace (52 - L + (L - 10 - k)) with (42 - k) by lia.
    replace (2 ^ 52) with (2 ^ (k + 10) * 2 ^ (42 - k)) by pow_eq.
    apply fround_scale; try lia; try (apply Z.pow_pos_nonneg; lia).
  - up_norm. rewrite <- Z.pow_add_r by lia.
    replace (52 + - (L - 10 - k)) with (k + 10 + (52 - L)) by lia.
    rewrite Z.pow_add_r by lia.
    apply fround_scale; try lia; try (apply Z.pow_pos_nonneg; lia).
Qed.

Lemma ftrunc_dyadic z k : 0 < z < 2 ^ 32 -> 0 <= k -> f_to_u32 (dyadic z k) = Ret (z / 2 ^ k).
Proof.
  intros Hz Hk. unfold dyadic, f_to_u32, f_to_int.
  pose proof (Z.log2_nonneg z) as Hl.
  assert (Hl32 : Z.log2 z < 32) by (apply Z.log2_lt_pow2; lia).
  assert (Ht : ftrunc (z * 2 ^ (52 - Z.log2 z)) (Z.log2 z - 52 - k) = z / 2 ^ k).
  { unfold ftrunc. replace (0 <=? Z.log2 z - 52 - k) with false by (symmetry; apply Z.leb_gt; lia).
    assert (0 < 2 ^ (52 - Z.log2 z)) by (apply Z.pow_pos_nonneg; lia).
    assert (0 < 2 ^ k) by (apply Z.pow_pos_nonneg; lia).
    rewrite Z.quot_div_nonneg by (try apply Z.pow_pos_nonneg; nia).
    replace (- (Z.log2 z - 52 - k)) with (k + (52 - Z.log2 z)) by lia.
    rewrite Z.pow_add_r by lia. apply Z.div_mul_cancel_r; lia. }
  rewrite Ht.
  assert (0 < 2 ^ k) by (apply Z.pow_pos_nonneg; lia).
  assert (0 <= z / 2 ^ k <= z).
  { split; [apply Z.div_pos; lia|]. apply Z.div_le_upper_bound; nia. }
  replace (0 <=? z / 2 ^ k) with true by (symmetry; apply Z.leb_le; lia).
  replace (z / 2 ^ k <=? 2 ^ 32 - 1) with true by (symmetry; apply Z.leb_le; lia).
  reflexivity.
Qed.

Lemma dyadic_at_most z k j :
  0 < z < 2 ^ 53 -> 0 <= k -> 0 <= j -> z <= 2 ^ (j + k) -> at_most (dyadic z k) (2 ^ j).
Proof.
  intros Hz Hk Hj Hle. unfold dyadic.
  pose proof (Z.log2_nonneg z) as Hl.
  assert (Hl53 : Z.log2 z < 53) by (apply Z.log2_lt_pow2; lia).
  eexists _, _. split; [reflexivity|].
  assert (0 < 2 ^ (52 - Z.log2 z)) by (apply Z.pow_pos_nonneg; lia).
  split; [nia|].
  up_norm. replace (- (Z.log2 z - 52 - k)) with (k + (52 - Z.log2 z)) by lia.
  rewrite (Z.pow_add_r 2 j k) in Hle by lia.
  rewrite (Z.pow_add_r 2 k) by lia.
  assert (0 < 2 ^ k) by (apply Z.pow_pos_nonneg; lia). nia.
Qed.

(** ** The speed and the byte counts *)

Lemma fmt_f_dyadic (k : nat) z j :
  0 < z < 2 ^ 32 -> 0 <= j -> (0 < k)%nat -> fmt_f k (dyadic z j) = fixed k z j.
Proof.
  intros Hz Hj Hk. unfold fmt_f, dyadic, fixed.
  pose proof (Z.log2_nonneg z) as Hl.
  assert (Hl32 : Z.log2 z < 32) by (apply Z.log2_lt_pow2; lia).
  assert (H2 : 0 < 2 ^ (52 - Z.log2 z)) by (apply Z.pow_pos_nonneg; lia).
  replace (z * 2 ^ (52 - Z.log2 z) <? 0) with false by (symmetry; apply Z.ltb_ge; nia).
  replace (0 <=? Z.log2 z - 52 - j) with false by (symmetry; apply Z.leb_gt; lia).
  replace (k =? 0)%nat with false by (symmetry; apply Nat.eqb_neq; lia).
  rewrite Z.abs_eq by nia.
  replace (- (Z.log2 z - 52 - j)) with (j + (52 - Z.log2 z)) by lia.
  rewrite Z.pow_add_r by lia.
  replace (z * 2 ^ (52 - Z.log2 z) * 10 ^ Z.of_nat k)
    with (z * 10 ^ Z.of_nat k * 2 ^ (52 - Z.log2 z)) by ring.
  rewrite div_rne_scale by (try apply Z.pow_pos_nonneg; lia).
  reflexivity.
Qed.

Lemma scaled_down_dyadic (i : nat) z :
  0 < z < 2 ^ 32 -> (i <= 3)%nat -> scaled_down i z = dyadic z (10 * Z.of_nat i).
Proof.
  intros Hz Hi. induction i as [|i IH].
  - apply f_of_Z_dyadic. lia.
  - cbn [scaled_down]. rewrite IH by lia. rewrite fdiv_KiB by lia. f_equal. lia.
Qed.

Lemma scaled_down_zero (i : nat) : scaled_down i 0 = FFin 0 0.
Proof. induction i as [|i IH]; [reflexivity|]. cbn [scaled_down]. rewrite IH. reflexivity. Qed.

Lemma fmt_f_scaled_down (k i : nat) z :
  0 <= z < 2 ^ 32 -> (0 < i <= 3)%nat -> (0 < k <= 2)%nat ->
  fmt_f k (scaled_down i z) = fixed k z (10 * Z.of_nat i).
Proof.
  intros Hz Hi Hk. destruct (Z.eq_dec z 0) as [->|Hz0].
  - rewrite scaled_down_zero. unfold fixed, fmt_f.
    assert (H0 : div_rne 0 (2 ^ (10 * Z.of_nat i)) = 0).
    { assert (0 < 2 ^ (10 * Z.of_nat i)) by (apply Z.pow_pos_nonneg; lia).
      unfold div_rne. rewrite Z.div_0_l, Z.mod_0_l by lia.
      replace (2 * 0 <? 2 ^ (10 * Z.of_nat i)) with true by (symmetry; apply Z.ltb_lt; lia).
      reflexivity. }
    replace (0 * 10 ^ Z.of_nat k) with 0 by ring. rewrite H0.
    change (0 <=? 0) with true. change (0 <? 0) with false. cbv iota.
    change (Z.abs 0 * 2 ^ 0) with 0. rewrite Z.mul_0_l.
    replace (k =? 0)%nat with false by (symmetry; apply Nat.eqb_neq; lia).
    reflexivity.
  - rewrite scaled_down_dyadic by lia. apply fmt_f_dyadic; lia.
Qed.

Lemma fixed_length (k : nat) z j jj :
  0 <= z <= 2 ^ (jj - 1) * 2 ^ j -> 0 <= j -> 2 <= jj ->
  Z.of_nat (length (fixed k z j)) <= jj + 1 + Z.of_nat k.
Proof.
  intros Hz Hj Hjj. unfold fixed.
  set (unit := 10 ^ Z.of_nat k).
  assert (Hunit : 0 < unit) by (apply Z.pow_pos_nonneg; lia).
  assert (H2j : 0 < 2 ^ j) by (apply Z.pow_pos_nonneg; lia).
  assert (H2jj : 0 < 2 ^ (jj - 1)) by (apply Z.pow_pos_nonneg; lia).
  assert (Hq : 0 <= div_rne (z * unit) (2 ^ j) <= 2 ^ (jj - 1) * unit).
  { split.
    - apply (div_rne_error (z * unit) (2 ^ j)); nia.
    - apply div_rne_upper; nia. }
  assert (Hint : 0 <= div_rne (z * unit) (2 ^ j) / unit < 2 ^ jj).
  { split; [apply Z.div_pos; lia|].
    apply Z.div_lt_upper_bound; [lia|].
    replace (2 ^ jj) with (2 * 2 ^ (jj - 1)); [nia|].
    rewrite <- Z.pow_succ_r by lia. f_equal. lia. }
  pose proof (fmt_d_length _ jj Hint ltac:(lia)).
  rewrite !length_app, dec_digits_length. cbn [length lit list_ascii_of_string]. lia.
Qed.

Lemma build_speed_string_value (speedInBytesPerSecond : Z) :
  0 <= speedInBytesPerSecond < 2 ^ 32 ->
  let speed := speedInBytesPerSecond in
  build_speed_string speed =
    Ret (if speed <? 1024 then fmt_u speed ++ lit " B/s"
         else if speed <? 1024 * 1024 then fmt_u (speed / 1024) ++ lit " KiB/s"
         else if speed <? 1024 * 1024 * 1024 then fixed 1 speed 20 ++ lit " MiB/s"
         else fixed 2 speed 30 ++ lit " GiB/s").
Proof.
  intros Hs speed. unfold build_speed_string. fold speed.
  destruct (Z.ltb_spec speed 1024) as [H1|H1].
  - apply sprintf_fits. rewrite length_app.
    pose proof (fmt_d_length speed 10 ltac:(lia) ltac:(lia)). unfold fmt_u. simpl length. lia.
  - destruct (Z.ltb_spec speed (1024 * 1024)) as [H2|H2].
    + change (fdiv DBL (f_of_Z DBL speed) KiB) with (scaled_down 1 speed).
      rewrite scaled_down_dyadic by lia. rewrite ftrunc_dyadic by lia. cbn [rbind].
      change (2 ^ (10 * Z.of_nat 1)) with 1024.
      apply sprintf_fits. rewrite length_app.
      assert (0 <= speed / 1024 < 2 ^ 10).
      { split; [apply Z.div_pos; lia|]. apply Z.div_lt_upper_bound; lia. }
      pose proof (fmt_d_length (speed / 1024) 10 ltac:(lia) ltac:(lia)).
      unfold fmt_u. simpl length. lia.
    + destruct (Z.ltb_spec speed (1024 * 1024 * 1024)) as [H3|H3].
      * change (fdiv DBL (fdiv DBL (f_of_Z DBL speed) KiB) KiB) with (scaled_down 2 speed).
        rewrite fmt_f_scaled_down by lia. change (10 * Z.of_nat 2) with 20.
        apply sprintf_fits. rewrite length_app.
        pose proof (fixed_length 1 speed 20 11 ltac:(lia) ltac:(lia) ltac:(lia)).
        simpl length. lia.
      * change (fdiv DBL (fdiv DBL (fdiv DBL (f_of_Z DBL speed) KiB) KiB) KiB)
          with (scaled_down 3 speed).
        rewrite fmt_f_scaled_down by lia. change (10 * Z.of_nat 3) with 30.
        apply sprintf_fits. rewrite length_app.
        pose proof (fixed_length 2 speed 30 3 ltac:(lia) ltac:(lia) ltac:(lia)).
        simpl length. lia.
Qed.

(** X22.  For every [unsigned int] speed [build_speed_string] returns
    (the text fits the buffer of 64 bytes) and shows: below 1024 the number
    of bytes; below [1024^2] the whole number of KiB, rounded down; below
    [1024^3] the speed over [2^20] with one decimal; otherwise the speed
    over [2^30] with two decimals, the decimals rounded to nearest (ties to
    even).  The divisions by [1024.0], made in [double], lose nothing. *)
Theorem build_speed_string_shows (speedInBytesPerSecond : Z) :
  0 <= speedInBytesPerSecond < 2 ^ 32 ->
  let speed := speedInBytesPerSecond in
  build_speed_string speed =
    Ret (if speed <? 1024 then fmt_u speed ++ lit " B/s"
         else if speed <? 1024 * 1024 then fmt_u (speed / 1024) ++ lit " KiB/s"
         else if speed <? 1024 * 1024 * 1024 then fixed 1 speed 20 ++ lit " MiB/s"
         else fixed 2 speed 30 ++ lit " GiB/s").
Proof. exact (build_speed_string_value speedInBytesPerSecond). Qed.

Lemma build_speed_string_shows_witness :
  0 <= 1500000 < 2 ^ 32 /\ build_speed_string 1500000 = Ret (lit "1.4 MiB/s").
Proof.
  split; [lia|].
  rewrite (build_speed_string_shows 1500000) by lia. reflexivity.
Defined.

Lemma build_progress_string_value (bytesTotal bytesNow : Z) :
  0 <= bytesTotal < 2 ^ 32 -> 0 <= bytesNow < 2 ^ 32 ->
  build_progress_string bytesTotal bytesNow =
    Ret (if bytesTotal <? 1024 then
           lit "(" ++ fmt_u bytesNow ++ lit "/" ++ fmt_u bytesTotal ++ lit " B)"
         else if bytesTotal <? 1024 * 1024 then
           lit "(" ++ fixed 2 bytesNow 10 ++ lit "/" ++ fixed 2 bytesTotal 10 ++ lit " KiB)"
         else if bytesTotal <? 1024 * 1024 * 1024 then
           lit "(" ++ fixed 2 bytesNow 20 ++ lit "/" ++ fixed 2 bytesTotal 20 ++ lit " MiB)"
         else
           lit "(" ++ fixed 2 bytesNow 30 ++ lit "/" ++ fixed 2 bytesTotal 30 ++ lit " GiB)").
Proof.
  intros Ht Hn. unfold build_progress_string.
  destruct (Z.ltb_spec bytesTotal 1024) as [H1|H1].
  - apply sprintf_fits. rewrite !length_app.
    pose proof (fmt_d_length bytesNow 32 ltac:(lia) ltac:(lia)).
    pose proof (fmt_d_length bytesTotal 10 ltac:(lia) ltac:(lia)).
    unfold fmt_u. simpl length. lia.
  - destruct (Z.ltb_spec bytesTotal (1024 * 1024)) as [H2|H2].
    + change (fdiv DBL (f_of_Z DBL bytesNow) KiB) with (scaled_down 1 bytesNow).
      change (fdiv DBL (f_of_Z DBL bytesTotal) KiB) with (scaled_down 1 bytesTotal).
      rewrite !fmt_f_scaled_down by lia. change (10 * Z.of_nat 1) with 10.
      apply sprintf_fits. rewrite !length_app.
      pose proof (fixed_length 2 bytesNow 10 23 ltac:(lia) ltac:(lia) ltac:(lia)).
      pose proof (fixed_length 2 bytesTotal 10 11 ltac:(lia) ltac:(lia) ltac:(lia)).
      simpl length. lia.
    + destruct (Z.ltb_spec bytesTotal (1024 * 1024 * 1024)) as [H3|H3].
      * change (fdiv DBL (fdiv DBL (f_of_Z DBL bytesNow) KiB) KiB) with (scaled_down 2 bytesNow).
        change (fdiv DBL (fdiv DBL (f_of_Z DBL bytesTotal) KiB) KiB)
          with (scaled_down 2 bytesTotal).
        rewrite !fmt_f_scaled_down by lia. change (10 * Z.of_nat 2) with 20.
        apply sprintf_fits. rewrite !length_app.
        pose proof (fixed_length 2 bytesNow 20 13 ltac:(lia) ltac:(lia) ltac:(lia)).
        pose proof (fixed_length 2 bytesTotal 20 11 ltac:(lia) ltac:(lia) ltac:(lia)).
        simpl length. lia.
      * change (fdiv DBL (fdiv DBL (fdiv DBL (f_of_Z DBL bytesNow) KiB) KiB) KiB)
          with (scaled_down 3 bytesNow).
        change (fdiv DBL (fdiv DBL (fdiv DBL (f_of_Z DBL bytesTotal) KiB) KiB) KiB)
          with (scaled_down 3 bytesTotal).
        rewrite !fmt_f_scaled_down by lia. change (10 * Z.of_nat 3) with 30.
        apply sprintf_fits. rewrite !length_app.
        pose proof (fixed_length 2 bytesNow 30 3 ltac:(lia) ltac:(lia) ltac:(lia)).
        pose proof (fixed_length 2 bytesTotal 30 3 ltac:(lia) ltac:(lia) ltac:(lia)).
        simpl length. lia.
Qed.

(** X23.  For all [unsigned int] byte counts [build_progress_string]
    returns (the text fits the buffer of 64 bytes); the unit is chosen by
    the total alone, and both counts are shown in it: as integers below
    1024, otherwise over [2^10], [2^20] or [2^30] with two decimals rounded
    to nearest (ties to even). *)
Theorem build_progress_string_shows (bytesTotal bytesNow : Z) :
  0 <= bytesTotal < 2 ^ 32 -> 0 <= bytesNow < 2 ^ 32 ->
  build_progress_string bytesTotal bytesNow =
    Ret (if bytesTotal <? 1024 then
           lit "(" ++ fmt_u bytesNow ++ lit "/" ++ fmt_u bytesTotal ++ lit " B)"
         else if bytesTotal <? 1024 * 1024 then
           lit "(" ++ fixed 2 bytesNow 10 ++ lit "/" ++ fixed 2 bytesTotal 10 ++ lit " KiB)"
         else if bytesTotal <? 1024 * 1024 * 1024 then
           lit "(" ++ fixed 2 bytesNow 20 ++ lit "/" ++ fixed 2 bytesTotal 20 ++ lit " MiB)"
         else
           lit "(" ++ fixed 2 bytesNow 30 ++ lit "/" ++ fixed 2 bytesTotal 30 ++ lit " GiB)").
Proof. exact (build_progress_string_value bytesTotal bytesNow). Qed.

Lemma build_progress_string_shows_witness :
  0 <= 3000000 < 2 ^ 32 /\ 0 <= 1500000 < 2 ^ 32 /\
  build_progress_string 3000000 1500000 = Ret (lit "(1.43/2.86 MiB)").
Proof.
  split; [lia|]. split; [lia|].
  rewrite (build_progress_string_shows 3000000 1500000) by lia. reflexivity.
Defined.

(** *** Bounds that are not integers *)

(** a rounded quotient exceeds the quotient by at most one part in
    [2^prec] *)
Lemma fround_ratio prec n d N D :
  0 < prec -> 0 < n -> 0 < d -> 0 < D -> n * D <= N * d ->
  at_most_ratio (fround prec n d) (N * (2 ^ prec + 1)) (D * 2 ^ prec).
Proof.
  intros Hp Hn Hd HD Hle.
  destruct (round_pos_mantissa prec n d Hp Hn Hd) as (m & s & Hr & Hm & Hb1 & Hb2 & Hm1 & Hm2).
  unfold fround. destruct (Z.eqb_spec n 0); [lia|].
  rewrite Z.abs_eq, Z.sgn_pos, Hr by lia. rewrite Z.mul_1_l.
  assert (Hpp : 0 < 2 ^ (prec - 1)) by (apply Z.pow_pos_nonneg; lia).
  assert (H2p : 2 ^ prec = 2 * 2 ^ (prec - 1)).
  { rewrite <- Z.pow_succ_r by lia. f_equal. lia. }
  pose proof (up_pos s) as Hus. pose proof (up_pos (- s)) as Hus'.
  exists m, s. split; [reflexivity|]. split; [lia|].
  set (N' := n * up (- s)) in *. set (D' := d * up s) in *.
  assert (HD' : 0 < D') by (unfold D'; nia).
  assert (HN' : 0 <= N') by (unfold N'; nia).
  destruct (div_rne_error N' D' HN' HD') as [_ Herr]. rewrite <- Hm in Herr.
  set (P2 := 2 ^ (prec - 1)) in *. rewrite H2p.
  assert (Hmd : m * D' * (2 * P2) <= N' * (2 * P2 + 1)) by nia.
  apply (Z.mul_le_mono_pos_r _ _ d); [exact Hd|].
  transitivity (m * D' * (2 * P2) * D); [unfold D'; lia|].
  transitivity (N' * (2 * P2 + 1) * D); [apply Z.mul_le_mono_nonneg_r; lia|].
  unfold N'.
  transitivity (n * D * (up (- s) * (2 * P2 + 1))); [lia|].
  transitivity (N * d * (up (- s) * (2 * P2 + 1))); [|lia].
  apply Z.mul_le_mono_nonneg_r; nia.
Qed.

Lemma at_most_ratio_zero N D : 0 <= N -> at_most_ratio (FFin 0 0) N D.
Proof.
  intros H. exists 0, 0. split; [reflexivity|]. split; [lia|].
  change (up (- 0)) with 1. lia.
Qed.

Lemma fdiv_ratio prec a b Ya Yb :
  0 < prec -> 0 <= Ya -> 0 < Yb -> at_most a Ya -> at_least b Yb ->
  at_most_ratio (fdiv prec a b) (Ya * (2 ^ prec + 1)) (Yb * 2 ^ prec).
Proof.
  intros Hp HYa HYb (ma & sa & -> & Hma & Ha) (mb & sb & -> & Hmb & Hb).
  assert (0 < 2 ^ prec) by (apply Z.pow_pos_nonneg; lia).
  unfold fdiv. destruct (Z.eqb_spec mb 0); [lia|].
  rewrite Z.sgn_pos, Z.abs_eq, Z.mul_1_r by lia.
  destruct (Z.eq_dec ma 0) as [->|Hma0].
  { rewrite Z.mul_0_l. apply at_most_ratio_zero. nia. }
  pose proof (up_pos sa). pose proof (up_pos (- sa)).
  pose proof (up_pos sb). pose proof (up_pos (- sb)).
  pose proof (up_pos (sa - sb)). pose proof (up_pos (- (sa - sb))).
  pose proof (up_add sa (- sb)) as Hid.
  replace (sa + - sb) with (sa - sb) in Hid by lia.
  replace (- - sb) with sb in Hid by lia.
  apply fround_ratio; try lia; try nia.
  apply (Z.mul_le_mono_pos_r _ _ (up (- sa) * up sb)); [nia|].
  transitivity (ma * up sa * (Yb * up (- sb)) * up (- (sa - sb))); [nia|].
  transitivity (Ya * up (- sa) * (mb * up sb) * up (- (sa - sb))); [|nia].
  apply Z.mul_le_mono_nonneg_r; [lia|].
  apply Z.mul_le_mono_nonneg; nia.
Qed.

Lemma fmul_ratio prec a b Ya N D :
  0 < prec -> 0 <= Ya -> 0 <= N -> 0 < D -> at_most a Ya -> at_most_ratio b N D ->
  at_most_ratio (fmul prec a b) (Ya * N * (2 ^ prec + 1)) (D * 2 ^ prec).
Proof.
  intros Hp HYa HN HD (ma & sa & -> & Hma & Ha) (mb & sb & -> & Hmb & Hb).
  assert (0 < 2 ^ prec) by (apply Z.pow_pos_nonneg; lia).
  unfold fmul. cbv zeta.
  destruct (Z.eq_dec (ma * mb) 0) as [H0|H0].
  { rewrite H0, Z.mul_0_l. apply at_most_ratio_zero. nia. }
  pose proof (up_pos sa). pose proof (up_pos (- sa)).
  pose proof (up_pos sb). pose proof (up_pos (- sb)).
  pose proof (up_pos (sa + sb)). pose proof (up_pos (- (sa + sb))).
  pose proof (up_add sa sb) as Hid.
  apply fround_ratio; try lia; try nia.
  apply (Z.mul_le_mono_pos_r _ _ (up (- sa) * up (- sb))); [nia|].
  transitivity ((ma * up sa) * (mb * up sb * D) * up (- (sa + sb))); [nia|].
  transitivity ((Ya * up (- sa)) * (N * up (- sb)) * up (- (sa + sb))); [|nia].
  apply Z.mul_le_mono_nonneg_r; [lia|].
  apply Z.mul_le_mono_nonneg; nia.
Qed.

(** a value below one has the integral part zero *)
Lemma f_to_int_ratio lo hi a N D :
  lo <= 0 <= hi -> 0 <= N < D -> at_most_ratio a N D -> f_to_int lo hi a = Ret 0.
Proof.
  intros Hrange HN (m & s & -> & Hm & Ha).
  pose proof (up_pos s). pose proof (up_pos (- s)).
  assert (Hlt : m * up s < up (- s)) by nia.
  assert (Ht : ftrunc m s = 0).
  { unfold ftrunc. destruct (Z.leb_spec 0 s).
    - up_norm_in Hlt. assert (0 < 2 ^ s) by (apply Z.pow_pos_nonneg; lia). nia.
    - up_norm_in Hlt. apply Z.quot_small. lia. }
  unfold f_to_int. rewrite Ht.
  destruct (Z.leb_spec lo 0), (Z.leb_spec 0 hi); try lia. reflexivity.
Qed.

(** the first of [n] files fills no cell of a bar of fewer than [n]
    cells: [(int)(width * (1 / n))] is 0 *)
Lemma first_cell_empty width n :
  0 <= width <= 37 -> width < n ->
  f_to_i32 (fmul FLT (f_of_Z FLT width) (fraction 1 n)) = Ret 0.
Proof.
  intros Hw Hn. unfold f_to_i32.
  assert (Hp : at_most_ratio (fraction 1 n) (1 * 2 ^ 0 * (2 ^ FLT + 1))
                             ((width + 1) * 2 ^ 0 * 2 ^ FLT)).
  { unfold fraction. apply fdiv_ratio; try (unfold FLT; lia).
    - apply f_of_Z_at_most; unfold FLT; lia.
    - apply f_of_Z_at_least; unfold FLT; lia. }
  assert (Hwd : at_most (f_of_Z FLT width) width).
  { destruct (Z.eq_dec width 0) as [->|Hne]; [apply at_most_zero; lia|].
    replace width with (width * 2 ^ 0) at 2 by lia.
    apply f_of_Z_at_most; unfold FLT; lia. }
  apply (f_to_int_ratio _ _ _ (width * (1 * 2 ^ 0 * (2 ^ FLT + 1)) * (2 ^ FLT + 1))
                        ((width + 1) * 2 ^ 0 * 2 ^ FLT * 2 ^ FLT)).
  - lia.
  - unfold FLT. lia.
  - apply fmul_ratio; try (unfold FLT; lia); assumption.
Qed.

(** the bar of the first of [n] files, for fewer than [n] cells *)
Lemma first_bar_undefined maxWidth n :
  0 <= maxWidth < 2 ^ 32 -> Z.min maxWidth 37 < n ->
  build_progress_bar_string (fraction 1 n) maxWidth = Stop UndefinedBehaviour.
Proof.
  intros Hw Hn.
  apply (bar_out_of_range _ _ 0); [exact Hw| |lia].
  apply first_cell_empty; lia.
Qed.

(** ** The progress line with its total clamped *)

Lemma clamp_total_max t : clamp_total t = Z.max t 1.
Proof. unfold clamp_total. destruct (Z.ltb_spec t 1); lia. Qed.

(** lines 233-256 for byte counts within the clamped total: every step is
    defined once the bar is *)
Lemma print_progress_value (pd : ProgressData) (bytesNow bytesTotal speed : Z)
    (lastColumns columns : Z) (drawn : list ascii) :
  let total := Z.max bytesTotal 1 in
  let p := fdiv FLT (f_of_Z FLT bytesNow) (f_of_Z FLT total) in
  0 <= bytesNow <= total -> total < 2 ^ 32 -> 0 <= speed < 2 ^ 32 ->
  0 < avgSpeedInBytesPerSecond pd < 2 ^ 32 ->
  total - bytesNow <= 2 ^ 30 * avgSpeedInBytesPerSecond pd ->
  build_progress_bar_string p (u32 columns / 4) = Ret drawn ->
  exists percent bytes shown eta,
    f_to_i32 (fmul FLT p (f_of_Z FLT 100)) = Ret percent /\ 0 <= percent <= 100 /\
    build_progress_string total bytesNow = Ret bytes /\
    build_speed_string speed = Ret shown /\
    build_ETA_string total bytesNow (avgSpeedInBytesPerSecond pd) = Ret eta /\
    show_progress pd bytesNow bytesTotal speed =
      Ret (mkProgressLine p percent bytesNow total speed eta) /\
    let line := [CR] ++ fmt_3d percent ++ lit "% " ++ drawn ++ lit " " ++ bytes ++
                lit " | Speed: " ++ shown ++ lit " | ETA: " ++ eta in
    print_progress pd bytesNow bytesTotal speed lastColumns columns =
      Ret (clear_current_line lastColumns ++ line, Z.of_nat (length line)).
Proof.
  intros total p Hnow Htotal Hspeed Havg Hleft Hdrawn.
  assert (H1 : 1 <= total) by (unfold total; lia).
  destruct (percent_defined bytesNow total Hnow H1) as (percent & Hpercent & Hrange).
  pose proof (build_progress_string_value total bytesNow ltac:(lia) ltac:(lia)) as Hbytes.
  pose proof (build_speed_string_value speed Hspeed) as Hshown. cbv zeta in Hshown.
  destruct (build_ETA_string_value total bytesNow (avgSpeedInBytesPerSecond pd) Havg)
    as (secondsLeft & _ & Heta).
  { unfold u32. rewrite Z.mod_small by lia. exact Hleft. }
  unfold fraction in Hpercent. fold p in Hpercent.
  eexists percent, _, _, _.
  split; [exact Hpercent|]. split; [exact Hrange|]. split; [exact Hbytes|].
  split; [exact Hshown|]. split; [exact Heta|].
  unfold show_progress, print_progress. rewrite clamp_total_max. fold total.
  unfold fraction. fold p.
  rewrite Hdrawn, Hpercent, Hbytes, Hshown, Heta. cbn [rbind].
  split; reflexivity.
Qed.

Lemma progress_callback_value
    (pd0 pd : ProgressData) (dltotal dlnow timeNow now0 total0 speed : Z)
    (lastColumns columns : Z) (drawn : list ascii) :
  let bytesNow := u32 (now0 + bytesAlreadyDownloaded pd0) in
  let bytesTotal := u32 (total0 + bytesAlreadyDownloaded pd0) in
  let total := Z.max bytesTotal 1 in
  let p := fdiv FLT (f_of_Z FLT bytesNow) (f_of_Z FLT total) in
  f_to_u32 (f_of_Z FLT dlnow) = Ret now0 ->
  f_to_u32 (f_of_Z FLT dltotal) = Ret total0 ->
  sample_speed pd0 bytesNow bytesTotal timeNow = Ret (Some (pd, speed)) ->
  0 <= speed < 2 ^ 32 ->
  bytesNow <= total ->
  0 < avgSpeedInBytesPerSecond pd < 2 ^ 32 ->
  total - bytesNow <= 2 ^ 30 * avgSpeedInBytesPerSecond pd ->
  build_progress_bar_string p (u32 columns / 4) = Ret drawn ->
  exists percent bytes shown eta,
    f_to_i32 (fmul FLT p (f_of_Z FLT 100)) = Ret percent /\ 0 <= percent <= 100 /\
    build_progress_string total bytesNow = Ret bytes /\
    build_speed_string speed = Ret shown /\
    build_ETA_string total bytesNow (avgSpeedInBytesPerSecond pd) = Ret eta /\
    progress_callback pd0 dltotal dlnow timeNow =
      Ret (pd, Some (mkProgressLine p percent bytesNow total speed eta)) /\
    let line := [CR] ++ fmt_3d percent ++ lit "% " ++ drawn ++ lit " " ++ bytes ++
                lit " | Speed: " ++ shown ++ lit " | ETA: " ++ eta in
    print_progress pd bytesNow bytesTotal speed lastColumns columns =
      Ret (clear_current_line lastColumns ++ line, Z.of_nat (length line)).
Proof.
  intros bytesNow bytesTotal total p Hnow0 Htotal0 Hsample Hspeed Hnow Havg Hleft Hdrawn.
  assert (Hn : 0 <= bytesNow < 2 ^ 32) by (apply Z.mod_pos_bound; lia).
  assert (Ht : 0 <= bytesTotal < 2 ^ 32) by (apply Z.mod_pos_bound; lia).
  destruct (print_progress_value pd bytesNow bytesTotal speed lastColumns columns drawn)
    as (percent & bytes & shown & eta & Hpercent & Hrange & Hbytes & Hshown & Heta &
        Hline & Htext); try assumption; try (fold total; lia).
  exists percent, bytes, shown, eta.
  split; [exact Hpercent|]. split; [exact Hrange|]. split; [exact Hbytes|].
  split; [exact Hshown|]. split; [exact Heta|]. split; [|exact Htext].
  unfold progress_callback. rewrite Hnow0, Htotal0. cbn [rbind].
  fold bytesNow bytesTotal. rewrite Hsample. cbn [rbind].
  rewrite Hline. reflexivity.
Qed.

(** C9.  The byte total is clamped to at least 1 before the division of
    line 241, and the callback shows what comes of it.

    For all byte counts, the fraction that [show_progress] converts and
    shows is [p = (float)bytesNow / (float)max bytesTotal 1], a finite
    number, and the total it hands on is [max bytesTotal 1].

    For a callback that gets to print (the two counts convert to
    [unsigned int], and [sample_speed] hands on a state and a speed), with
    the bytes received within the clamped total, an average speed above zero
    that leaves at most [2^30] seconds, and a bar that can be drawn from
    [p]: [(int)(p * 100)] is defined and lies between 0 and 100; the
    callback returns, and its line shows [p], that percentage and the
    clamped total; and what lines 233-256 print is defined: the blanks of
    [clear_current_line], then the percentage, the bar drawn from [p], the
    bytes of the clamped total, the speed and the time left.  A total
    reported as 0 is among the cases: the divisor is then 1. *)
Theorem percentage_total_clamped :
  (forall (pd : ProgressData) (bytesNow bytesTotal speed : Z),
     let total := Z.max bytesTotal 1 in
     let p := fdiv FLT (f_of_Z FLT bytesNow) (f_of_Z FLT total) in
     is_finite p = true /\
     show_progress pd bytesNow bytesTotal speed =
       (percent <- f_to_i32 (fmul FLT p (f_of_Z FLT 100));;
        eta <- build_ETA_string total bytesNow (avgSpeedInBytesPerSecond pd);;
        Ret (mkProgressLine p percent bytesNow total speed eta))%result) /\
  (forall (pd0 pd : ProgressData) (dltotal dlnow timeNow now0 total0 speed : Z)
          (lastColumns columns : Z) (drawn : list ascii),
     let bytesNow := u32 (now0 + bytesAlreadyDownloaded pd0) in
     let bytesTotal := u32 (total0 + bytesAlreadyDownloaded pd0) in
     let total := Z.max bytesTotal 1 in
     let p := fdiv FLT (f_of_Z FLT bytesNow) (f_of_Z FLT total) in
     f_to_u32 (f_of_Z FLT dlnow) = Ret now0 ->
     f_to_u32 (f_of_Z FLT dltotal) = Ret total0 ->
     sample_speed pd0 bytesNow bytesTotal timeNow = Ret (Some (pd, speed)) ->
     0 <= speed < 2 ^ 32 ->
     bytesNow <= total ->
     0 < avgSpeedInBytesPerSecond pd < 2 ^ 32 ->
     total - bytesNow <= 2 ^ 30 * avgSpeedInBytesPerSecond pd ->
     build_progress_bar_string p (u32 columns / 4) = Ret drawn ->
     exists percent bytes shown eta,
       f_to_i32 (fmul FLT p (f_of_Z FLT 100)) = Ret percent /\ 0 <= percent <= 100 /\
       build_progress_string total bytesNow = Ret bytes /\
       build_speed_string speed = Ret shown /\
       build_ETA_string total bytesNow (avgSpeedInBytesPerSecond pd) = Ret eta /\
       progress_callback pd0 dltotal dlnow timeNow =
         Ret (pd, Some (mkProgressLine p percent bytesNow total speed eta)) /\
       let line := [CR] ++ fmt_3d percent ++ lit "% " ++ drawn ++ lit " " ++ bytes ++
                   lit " | Speed: " ++ shown ++ lit " | ETA: " ++ eta in
       print_progress pd bytesNow bytesTotal speed lastColumns columns =
         Ret (clear_current_line lastColumns ++ line, Z.of_nat (length line))).
Proof.
  split.
  - intros pd bytesNow bytesTotal speed total p. split.
    + apply (fraction_is_finite bytesNow total). unfold total. lia.
    + unfold show_progress. rewrite clamp_total_max. reflexivity.
  - exact progress_callback_value.
Qed.

(** ** A run, from the manifest to the files *)

Section Run.
Variable E : environment.
Variable g_options : Options.

Lemma keeps_lists_refl w : keeps_lists w w.
Proof. split; [|split; [|split]]; auto. Qed.

Lemma keeps_lists_trans w1 w2 w3 : keeps_lists w1 w2 -> keeps_lists w2 w3 -> keeps_lists w1 w3.
Proof.
  intros (A1 & A2 & A3 & A4) (B1 & B2 & B3 & B4).
  split; [|split; [|split]]; try congruence. auto.
Qed.

Lemma files_set_trace t (w : world) : files (set_trace t w) = files w.
Proof. destruct w; reflexivity. Qed.

Lemma g_CURL_set_trace t (w : world) : g_CURL (set_trace t w) = g_CURL w.
Proof. destruct w; reflexivity. Qed.


Lemma keeps_lists_set_trace t (w : world) : keeps_lists w (set_trace t w).
Proof. destruct w; split; [|split; [|split]]; auto. Qed.

Lemma g_fileList_set_trace t (w : world) : g_fileList (set_trace t w) = g_fileList w.
Proof. destruct w; reflexivity. Qed.

Lemma g_stats_set_trace t (w : world) : g_stats (set_trace t w) = g_stats w.
Proof. destruct w; reflexivity. Qed.

Lemma pbind_run {A B} (c : prog A) (f : A -> prog B) w a w1 :
  c w = (Ret a, w1) -> pbind c f w = f a w1.
Proof. intros H. unfold pbind. rewrite H. reflexivity. Qed.

(** the manifest, read: the world that [parse_packagemanifest] leaves *)
Lemma parse_well_formed (ls : list manifest_line) (w : world) :
  Forall (fun l => well_formed g_options l = true) ls ->
  exists st w',
    parse_packagemanifest E g_options (render_manifest ls) w = (Ret st, w') /\
    files w' = files w /\ g_CURL w' = g_CURL w /\
    g_fileList w' = g_fileList w ++ map (entry_of g_options) ls /\
    g_fileArchiveList w' = g_fileArchiveList w /\
    numFilesInPackageManifest (g_stats w') = i32 (Z.of_nat (length ls)) /\
    marked (hasBIN st) (map Z.of_nat (seq 0 (Z.to_nat MAX_BIN_COUNT))) =
      List.filter (fun i => bool_decide (i ∈ archive_ids ls))
                  (map Z.of_nat (seq 0 (Z.to_nat MAX_BIN_COUNT))).
Proof.
  intros Hwf. unfold render_manifest. rewrite parse_header_ok.
  set (st0 := mkScan _ 0 0 0 _).
  pose proof (render_lines_length ls) as Hlen.
  replace (S (length (concat (map render_line ls))))
    with (length ls + S (length (concat (map render_line ls)) - length ls))%nat by lia.
  unfold pbind at 1.
  pose proof (scan_lines_lines g_options ls
                (S (length (concat (map render_line ls)) - length ls)) st0 [] w Hwf) as Hrun.
  rewrite app_nil_r in Hrun. rewrite Hrun. clear Hrun.
  cbn [scan_lines]. rewrite fgets_eof. unfold pret at 1.
  unfold pbind, update, pret.
  eexists _, _. split; [reflexivity|].
  do 4 (split; [destruct w; reflexivity|]).
  split.
  { cbn [g_stats set_stats numFilesInPackageManifest].
    apply (fileCount_after ls st0 0); reflexivity. }
  apply (marked_after g_options); [exact Hwf| |].
  - cbn [st0 hasBIN]. rewrite length_replicate. apply Forall_forall. intros i Hi.
    apply list_elem_of_fmap in Hi as (n & -> & Hn). apply elem_of_seq in Hn. lia.
  - cbn [st0 hasBIN]. apply Forall_forall. intros b Hb.
    apply elem_of_replicate in Hb as [-> _]. reflexivity.
Qed.

Lemma collect_archives_run (hasBIN : list bool) (ids : list Z) : forall (total : Z) (w : world),
  exists total' w',
    collect_archives E g_options hasBIN ids total w = (Ret total', w') /\
    files w' = files w /\ g_fileList w' = g_fileList w /\
    g_fileArchiveList w' =
      g_fileArchiveList w ++ map (archive_entry g_options) (marked hasBIN ids) /\
    numFilesInPackageManifest (g_stats w') = numFilesInPackageManifest (g_stats w) /\
    (handle_idle (g_CURL w) -> handle_idle (g_CURL w')).
Proof.
  induction ids as [|i ids IH]; intros total w.
  - eexists _, _. split; [reflexivity|]. cbn. rewrite app_nil_r.
    repeat (split; [reflexivity|]). auto.
  - unfold marked. cbn [List.filter].
    destruct (default false (hasBIN !! Z.to_nat i)) eqn:Hi.
    + fold (marked hasBIN ids). rewrite (collect_archives_step E g_options) by exact Hi.
      match goal with
      | |- context [collect_archives E g_options hasBIN ids ?t ?w1] =>
          destruct (IH t w1) as (total' & w' & Hrun & H1 & H2 & H3 & Hn & H4)
      end.
      exists total', w'. split; [exact Hrun|].
      rewrite H1, H2, H3, Hn.
      cbn [files g_fileList g_fileArchiveList g_stats numFilesInPackageManifest map].
      rewrite <- app_assoc. repeat (split; [reflexivity|]).
      intros [_ Hfrom]. apply H4. split; [reflexivity|exact Hfrom].
    + cbn [collect_archives]. rewrite Hi. apply IH.
Qed.

Lemma download_BIN_archive_run (a : FileArchiveEntry.t) (w : world) :
  removeExistingFiles g_options = false ->
  handle_idle (g_CURL w) ->
  exists w',
    download_BIN_archive E g_options a w = (Ret tt, w') /\
    files w' = fetched E (files w) a /\
    keeps_lists w w' /\ handle_idle (g_CURL w').
Proof.
  intros Hkeep [Hbody Hfrom].
  destruct a as [link fileName]. destruct w as [fs c fl al st pd tr].
  destruct c as [url np nb rf wd]. cbn in Hbody, Hfrom. subst nb rf.
  unfold download_BIN_archive, fetched, keeps_lists, handle_idle.
  cbn [FileArchiveEntry.fileName FileArchiveEntry.link files].
  rewrite Hkeep. run_prog.
  destruct (fs !! fileName) as [old|] eqn:Hold.
  - rewrite bool_decide_true by eauto. run_prog. rewrite !Hold.
    destruct (u32 (Z.of_nat (length old)) <? u32 (content_length E link)).
    + run_prog. rewrite ?Hold. rewrite lookup_insert_eq, insert_insert_eq.
      eexists. split; [reflexivity|]. cbn. repeat split; auto.
    + destruct (u32 (Z.of_nat (length old)) =? u32 (content_length E link));
        run_prog; (eexists; split; [reflexivity|]; cbn; repeat split; auto).
  - rewrite bool_decide_false by (intros [? ?]; discriminate). run_prog.
    destruct (cut_at_last fileName "/") as [dir|]; run_prog;
      rewrite lookup_insert_eq, insert_insert_eq;
      (eexists; split; [reflexivity|]; cbn; repeat split; auto).
Qed.

(** the loop of lines 594-599 *)
Lemma download_loop (n : Z) (archives : list FileArchiveEntry.t) : forall (i : Z) (w : world),
  removeExistingFiles g_options = false ->
  handle_idle (g_CURL w) ->
  exists w',
    for_each (fun i entry =>
      (printf (lit "Downloading: " ++ FileArchiveEntry.fileName entry ++ lit " (" ++
               fmt_d i ++ lit "/" ++ fmt_d n ++ lit ")" ++ [LF]);;;
       download_BIN_archive E g_options entry;;;
       printf [LF])%prog) i archives w = (Ret tt, w') /\
    files w' = fold_left (fetched E) archives (files w) /\
    keeps_lists w w' /\ handle_idle (g_CURL w').
Proof.
  induction archives as [|a archives IH]; intros i w Hkeep Hidle.
  - exists w. split; [reflexivity|]. split; [reflexivity|].
    split; [apply keeps_lists_refl|exact Hidle].
  - cbn [for_each fold_left].
    unfold pbind at 1. unfold pbind at 1. unfold printf at 1, emit at 1.
    set (w0 := set_trace _ w).
    destruct (download_BIN_archive_run a w0 Hkeep) as (w1 & Hrun & Hfiles & Hlists & Hidle1).
    { subst w0. rewrite g_CURL_set_trace. exact Hidle. }
    unfold pbind at 1. rewrite Hrun.
    unfold printf at 1, emit at 1.
    set (w2 := set_trace _ w1).
    destruct (IH (i + 1) w2 Hkeep) as (w3 & Hloop & Hfiles3 & Hlists3 & Hidle3).
    { subst w2. rewrite g_CURL_set_trace. exact Hidle1. }
    exists w3. split; [exact Hloop|].
    split.
    { rewrite Hfiles3. subst w2. rewrite files_set_trace, Hfiles. subst w0.
      rewrite files_set_trace. reflexivity. }
    split; [|exact Hidle3].
    eapply keeps_lists_trans; [|exact Hlists3].
    eapply keeps_lists_trans; [|apply keeps_lists_set_trace].
    eapply keeps_lists_trans; [|exact Hlists].
    apply keeps_lists_set_trace.
Qed.

Lemma fetched_up_to_date (fs : gmap (list ascii) (list ascii)) (a : FileArchiveEntry.t) :
  up_to_date E fs a -> fetched E fs a = fs.
Proof.
  intros (old & Hold & Hsize). unfold fetched. rewrite Hold.
  destruct (Z.ltb_spec (u32 (Z.of_nat (length old)))
                       (u32 (content_length E (FileArchiveEntry.link a)))); [lia|reflexivity].
Qed.

Lemma fetched_all_up_to_date (fs : gmap (list ascii) (list ascii))
    (archives : list FileArchiveEntry.t) :
  Forall (up_to_date E fs) archives -> fold_left (fetched E) archives fs = fs.
Proof.
  induction archives as [|a archives IH]; intros Hall; [reflexivity|].
  apply Forall_cons in Hall as [Ha Hall].
  cbn [fold_left]. rewrite fetched_up_to_date by exact Ha. apply IH, Hall.
Qed.




Lemma archive_name (i : Z) :
  FileArchiveEntry.fileName (archive_entry g_options i) = BIN_file_name g_options i.
Proof. reflexivity. Qed.

Lemma same_store_set_trace t w : same_store w (set_trace t w).
Proof. destruct w. repeat split. Qed.

Lemma same_store_set_stats s w :
  numFilesInPackageManifest s = numFilesInPackageManifest (g_stats w) ->
  same_store w (set_stats s w).
Proof. intros Hs. destruct w. repeat split. exact Hs. Qed.

Lemma same_store_trans w1 w2 w3 : same_store w1 w2 -> same_store w2 w3 -> same_store w1 w3.
Proof.
  intros (A1 & A2 & A3 & A4 & A5) (B1 & B2 & B3 & B4 & B5). repeat split; congruence.
Qed.

Lemma warning_run (b : bool) (text : list ascii) (w : world) :
  exists w', (if b then printf text else pret tt) w = (Ret tt, w') /\ same_store w w'.
Proof.
  destruct b; eexists; (split; [reflexivity|]).
  - apply same_store_set_trace.
  - repeat split.
Qed.

Lemma pbind_update {B} (f : world -> world) (k : unit -> prog B) w :
  pbind (update f) k w = k tt (f w).
Proof. reflexivity. Qed.

Lemma pbind_emit {B} (e : event) (k : unit -> prog B) w :
  pbind (emit e) k w = k tt (set_trace (trace w ++ [e]) w).
Proof. reflexivity. Qed.

Lemma pbind_printf {B} (text : list ascii) (k : unit -> prog B) w :
  pbind (printf text) k w = k tt (set_trace (trace w ++ [EPrintf text]) w).
Proof. reflexivity. Qed.

Lemma pbind_assoc {A B C} (c : prog A) (f : A -> prog B) (g : B -> prog C) w :
  pbind (pbind c f) g w = pbind c (fun a => pbind (f a) g) w.
Proof. unfold pbind. destruct (c w) as [[a|k] w1]; reflexivity. Qed.




End Run.

Section IndividualRun.
Variable E : environment.
Variable g_options : Options.






End IndividualRun.

Section ManyFiles.
Variable E : environment.
Variable g_options : Options.

(** lines 608-610 for the first of [n] files, with fewer cells than
    files *)
Lemma show_file_progress_stops (n : Z) (w : world) :
  Z.min (u32 (console_columns E 1) / 4) 37 < n ->
  show_file_progress E 1 n w = (Stop UndefinedBehaviour, w).
Proof.
  intros Hn. unfold show_file_progress.
  change (fdiv FLT (f_of_Z FLT 1) (f_of_Z FLT n)) with (fraction 1 n).
  unfold pbind at 1. unfold plift at 1.
  rewrite first_bar_undefined; [reflexivity| |exact Hn].
  assert (Hc : 0 <= u32 (console_columns E 1) < 2 ^ 32) by (apply Z.mod_pos_bound; lia).
  split; [apply Z.div_pos; lia|].
  apply Z.div_lt_upper_bound; lia.
Qed.

Lemma file_loop_stops (n : Z) (body : Z -> FileEntry.t -> prog unit)
    (entries : list FileEntry.t) (w : world) :
  entries <> [] -> Z.min (u32 (console_columns E 1) / 4) 37 < n ->
  for_each (fun i entry => (show_file_progress E i n;;; body i entry)%prog) 1 entries w
  = (Stop UndefinedBehaviour, w).
Proof.
  intros Hne Hn. destruct entries as [|e entries]; [contradiction|].
  cbn [for_each]. unfold pbind at 1. unfold pbind at 1.
  rewrite (show_file_progress_stops n w Hn). reflexivity.
Qed.

Lemma many_files_steps (ls : list manifest_line) (w : world)
    (archives : list FileArchiveEntry.t) (n : Z) :
  archives = map (archive_entry g_options)
                 (List.filter (fun i => bool_decide (i ∈ archive_ids ls))
                              (map Z.of_nat (seq 0 (Z.to_nat MAX_BIN_COUNT)))) ->
  n = Z.of_nat (length ls) -> n < 2 ^ 31 ->
  Forall (fun l => well_formed g_options l = true) ls ->
  g_fileList w = [] -> g_fileArchiveList w = [] -> handle_idle (g_CURL w) ->
  (useBINFiles g_options = true ->
   removeExistingFiles g_options = false /\ Forall (up_to_date E (files w)) archives) ->
  Z.min (u32 (console_columns E 1) / 4) 37 < n ->
  exists w',
    get_files_using_packagemanifest E g_options (render_manifest ls) w
    = (Stop UndefinedBehaviour, w') /\
    files w' = files w.
Proof.
  intros Harchives Hcount Hsmall Hwf Hfl Hal Hidle Hmode Hmany.
  unfold get_files_using_packagemanifest.
  destruct (parse_well_formed E g_options ls w Hwf)
    as (st & w1 & Hparse & Hf1 & Hc1 & Hl1 & Ha1 & Hn1 & Hmarked).
  rewrite (pbind_run _ _ _ _ _ Hparse).
  destruct (collect_archives_run E g_options (hasBIN st)
              (map Z.of_nat (seq 0 (Z.to_nat MAX_BIN_COUNT))) 0 w1)
    as (total & w2 & Hcol & Hf2' & Hl2' & Ha2' & Hn2' & Hc2').
  rewrite (pbind_run _ _ _ _ _ Hcol).
  assert (Ha2 : g_fileArchiveList w2 = archives).
  { rewrite Ha2', Hmarked, <- Harchives, Ha1, Hal. apply app_nil_l. }
  assert (Hl2 : g_fileList w2 = map (entry_of g_options) ls).
  { rewrite Hl2', Hl1, Hfl. apply app_nil_l. }
  assert (Hf2 : files w2 = files w) by (rewrite Hf2'; exact Hf1).
  assert (Hc2 : handle_idle (g_CURL w2)) by (apply Hc2'; rewrite Hc1; exact Hidle).
  assert (Hn2 : numFilesInPackageManifest (g_stats w2) = n).
  { rewrite Hn2', Hn1, <- Hcount. unfold i32. rewrite Z.mod_small by lia. lia. }
  clear Hparse Hcol Hf1 Hc1 Hl1 Ha1 Hn1 Hmarked Hf2' Hl2' Ha2' Hn2' Hc2'.
  rewrite pbind_update.
  set (w3 := set_stats _ w2).
  assert (Hs3 : same_store w2 w3) by (apply same_store_set_stats; reflexivity).
  clearbody w3.
  destruct (warning_run (negb (total =? u32 (totalSize st)))
              (lit "[WARNING]: Total sizes don't match!") w3) as (w4 & Hwarn & Hs4).
  rewrite (pbind_run _ _ _ _ _ Hwarn).
  rewrite (pbind_run _ _ w4 tt
             (set_trace (trace w4 ++ [EStats (totalSize st) total (maxLineLength st)
                                        (numFilesInPackageManifest (g_stats w4))
                                        (numBINArchives (g_stats w4))]) w4) eq_refl).
  set (w5 := set_trace _ w4).
  assert (Hs5 : same_store w4 w5) by apply same_store_set_trace.
  clearbody w5.
  assert (Hs : same_store w2 w5).
  { eapply same_store_trans; [|exact Hs5]. eapply same_store_trans; [|exact Hs4]. exact Hs3. }
  destruct Hs as (Hf5' & Hl5' & Ha5' & Hc5 & Hn5'). clear Hs3 Hs4 Hs5 Hwarn.
  pose proof (eq_trans Hf5' Hf2) as Hf5. pose proof (eq_trans Hl5' Hl2) as Hl5.
  pose proof (eq_trans Ha5' Ha2) as Ha5. pose proof (eq_trans Hn5' Hn2) as Hn5.
  assert (Hidle5 : handle_idle (g_CURL w5)) by (rewrite Hc5; exact Hc2).
  assert (Hentries : forall w', g_fileList w' = map (entry_of g_options) ls ->
                                g_fileList w' <> []).
  { intros w' Hw' Hnil. rewrite Hnil in Hw'. symmetry in Hw'.
    apply map_eq_nil in Hw'. subst ls. cbn in Hcount.
    assert (0 <= u32 (console_columns E 1) / 4).
    { apply Z.div_pos; [apply Z.mod_pos_bound|]; lia. }
    lia. }
  clear Hf5' Hl5' Ha5' Hn5' Hf2 Hl2 Ha2 Hn2 Hc2 Hc5.
  destruct (useBINFiles g_options) eqn:Huse.
  - destruct (Hmode eq_refl) as [Hkeep Hdate].
    cbv iota. rewrite pbind_assoc, pbind_printf.
    set (w6 := set_trace _ w5).
    destruct (same_store_set_trace
                (trace w5 ++ [EPrintf (LF :: lit "Downloading BIN files..." ++ [LF])]) w5)
      as (Hf6 & Hl6 & Ha6 & Hc6 & Hn6).
    fold w6 in Hf6, Hl6, Ha6, Hc6, Hn6. clearbody w6.
    assert (Hidle6 : handle_idle (g_CURL w6)) by (rewrite Hc6; exact Hidle5).
    destruct (download_loop E g_options (numBINArchives (g_stats w6)) (g_fileArchiveList w6)
                1 w6 Hkeep Hidle6)
      as (w7 & Hdl & Hf7 & (Hl7 & Ha7 & Hn7 & _) & _).
    cbv beta. erewrite pbind_run by exact Hdl.
    rewrite Ha6, Hf6, Ha5, Hf5 in Hf7.
    rewrite (fetched_all_up_to_date E (files w) archives Hdate) in Hf7.
    rewrite pbind_printf.
    set (w8 := set_trace _ w7).
    destruct (same_store_set_trace
                (trace w7 ++ [EPrintf (lit "Extracting" ++ lit " game files..." ++ [LF])]) w7)
      as (Hf8 & Hl8 & Ha8 & _ & Hn8).
    fold w8 in Hf8, Hl8, Ha8, Hn8. clearbody w8.
    rewrite Hf7 in Hf8. rewrite Hl7, Hl6, Hl5 in Hl8. rewrite Hn7, Hn6, Hn5 in Hn8.
    exists w8. split; [|exact Hf8].
    unfold pbind at 1.
    rewrite (file_loop_stops (numFilesInPackageManifest (g_stats w8))
               (fun _ entry => extract_from_BIN E g_options entry) (g_fileList w8) w8).
    + reflexivity.
    + apply Hentries, Hl8.
    + rewrite Hn8. exact Hmany.
  - cbv iota. rewrite (pbind_run _ _ w5 tt w5 eq_refl).
    rewrite pbind_printf.
    set (w6 := set_trace _ w5).
    destruct (same_store_set_trace
                (trace w5 ++ [EPrintf (lit "Downloading" ++ lit " game files..." ++ [LF])]) w5)
      as (Hf6 & Hl6 & _ & _ & Hn6).
    fold w6 in Hf6, Hl6, Hn6. clearbody w6.
    rewrite Hf5 in Hf6. rewrite Hl5 in Hl6. rewrite Hn5 in Hn6.
    exists w6. split; [|exact Hf6].
    unfold pbind at 1.
    rewrite (file_loop_stops (numFilesInPackageManifest (g_stats w6))
               (fun _ entry =>
                  (curl_easy_setopt (with_NOPROGRESS true);;;
                   download_individual_file E g_options entry)%prog) (g_fileList w6) w6).
    + reflexivity.
    + apply Hentries, Hl6.
    + rewrite Hn6. exact Hmany.
Qed.

(** X26.  A manifest with more files than the bar has cells cannot be
    worked through.  The bar of the loop over the files has
    [get_console_columns() / 4] cells, 37 at most.  For a manifest of
    well-formed lines, fewer than [2^31] but more than that, the progress of
    the first file is [1 / n], [index = (int)(width * (1 / n))] is 0, and
    [build_progress_bar_string] reads its text from behind the array [bar]:
    the run is undefined before a file is extracted or downloaded.  This is
    so when single files are asked for, and with archives when existing
    files are kept and every archive is complete on disk, so that the loop
    over the files is reached without a transfer. *)
Theorem many_files_undefined (ls : list manifest_line) (w : world) :
  let ids := List.filter (fun i => bool_decide (i ∈ archive_ids ls))
                         (map Z.of_nat (seq 0 (Z.to_nat MAX_BIN_COUNT))) in
  let archives := map (archive_entry g_options) ids in
  let n := Z.of_nat (length ls) in
  Forall (fun l => well_formed g_options l = true) ls -> n < 2 ^ 31 ->
  g_fileList w = [] -> g_fileArchiveList w = [] -> handle_idle (g_CURL w) ->
  (useBINFiles g_options = true ->
   removeExistingFiles g_options = false /\ Forall (up_to_date E (files w)) archives) ->
  Z.min (u32 (console_columns E 1) / 4) 37 < n ->
  let out := get_files_using_packagemanifest E g_options (render_manifest ls) w in
  fst out = Stop UndefinedBehaviour /\ files (snd out) = files w.
Proof.
  cbv zeta. intros Hwf Hsmall Hfl Hal Hidle Hmode Hmany.
  destruct (many_files_steps ls w _ _ eq_refl eq_refl Hsmall Hwf Hfl Hal Hidle Hmode Hmany)
    as (w' & Hrun & Hfiles).
  rewrite Hrun. split; [reflexivity|exact Hfiles].
Qed.

End ManyFiles.

(** ** Instances *)

Lemma archives_removed_after_run_witness :
  let E := plain_environment (lit "0123456789abcde") in
  let w := world_with {[ lit "lol/BIN_0x00000000" := lit "0123456789abcde" ]} in
  let out := get_files_using_packagemanifest E default_options
               (render_manifest [example_archive_line]) w in
  useBINFiles default_options = true /\ keepBINFiles default_options = false /\
  fst out = Ret tt /\
  g_fileArchiveList (snd out) =
    [FileArchiveEntry.mk
       (lit "l3cdn.riotgames.com/releases/live/projects/lol_game_client/releases/0.0.0.130/packages/files/BIN_0x00000000")
       (lit "lol/BIN_0x00000000")] /\
  files (snd out) !! lit "lol/BIN_0x00000000" = None /\
  files (snd out) !! lit "lol/DATA/a.txt" = Some (lit "abcde").
Proof.
  intros E w out.
  assert (Hret : fst out = Ret tt) by (vm_compute; reflexivity).
  assert (Hlist : g_fileArchiveList (snd out) =
    [FileArchiveEntry.mk
       (lit "l3cdn.riotgames.com/releases/live/projects/lol_game_client/releases/0.0.0.130/packages/files/BIN_0x00000000")
       (lit "lol/BIN_0x00000000")]) by (vm_compute; reflexivity).
  split; [reflexivity|]. split; [reflexivity|]. split; [exact Hret|]. split; [exact Hlist|].
  split.
  - refine (archives_removed_after_run E default_options (render_manifest [example_archive_line]) w
              eq_refl eq_refl Hret (FileArchiveEntry.mk _ (lit "lol/BIN_0x00000000")) _).
    fold out. rewrite Hlist. apply list_elem_of_singleton. reflexivity.
  - vm_compute. reflexivity.
Defined.

Lemma list_add_appends_witness :
  ListNodes.represents (∅ : gmap nat (ListNodes.ListNode Z)) (ListNodes.mkFileList None None) [] /\
  (∅ : gmap nat (ListNodes.ListNode Z)) !! 7%nat = None /\
  exists l' h',
    ListNodes.list_add (Some 7%nat) (ListNodes.mkFileList None None) 42 ∅ = Ret (l', h') /\
    ListNodes.represents h' l' [42] /\
    ListNodes.entries 2 (ListNodes.head l') h' = Ret [42].
Proof.
  split; [apply represents_nil|]. split; [reflexivity|].
  exact (list_add_appends ∅ (ListNodes.mkFileList None None) [] 7%nat 42 represents_nil eq_refl).
Defined.



Lemma download_individual_file_result_witness :
  let E := plain_environment (lit "0123456789") in
  let w := world_with {[ lit "lol/a.txt.compressed" := lit "012" ]} in
  lit "lol/a.txt.compressed" <> strip_suffix (lit "lol/a.txt.compressed") /\
  handle_idle (g_CURL w) /\
  files w !! strip_suffix (lit "lol/a.txt.compressed") = None /\
  files (snd (download_individual_file E default_options example_entry w)) =
    delete (lit "lol/a.txt.compressed") (<[lit "lol/a.txt" := lit "012"]> (files w)) /\
  transfers (trace (snd (download_individual_file E default_options example_entry w))) = [].
Proof.
  intros E w.
  assert (H1 : lit "lol/a.txt.compressed" <> strip_suffix (lit "lol/a.txt.compressed"))
    by discriminate.
  assert (H2 : handle_idle (g_CURL w)) by (split; reflexivity).
  assert (H3 : files w !! strip_suffix (lit "lol/a.txt.compressed") = None) by reflexivity.
  split; [exact H1|]. split; [exact H2|]. split; [exact H3|].
  exact (proj2 (download_individual_file_result E default_options example_entry w H1 H2
                  (or_intror H3))).
Defined.

Lemma remove_existing_loses_archive_witness :
  let E := plain_environment (lit "0123456789abcde") in
  let options := mkOptions true true false DEFAULT_URL DEFAULT_PATH (lit "0.0.0.130")
                           DEFAULT_DEST_FOLDER in
  let archive := FileArchiveEntry.mk (lit "http://host/BIN_0x00000000")
                                     (lit "lol/BIN_0x00000000") in
  removeExistingFiles options = true /\
  is_Some (files example_world !! FileArchiveEntry.fileName archive) /\
  FileArchiveEntry.fileName archive = BIN_file_name options (FileEntry.BIN example_entry) /\
  fst (download_BIN_archive E options archive example_world) = Ret tt /\
  transfers (trace (snd (download_BIN_archive E options archive example_world))) = [] /\
  fst (extract_from_BIN E options example_entry
         (snd (download_BIN_archive E options archive example_world))) = Stop ExitCalled.
Proof.
  intros E options archive.
  assert (H2 : is_Some (files example_world !! FileArchiveEntry.fileName archive))
    by (eexists; reflexivity).
  assert (H3 : FileArchiveEntry.fileName archive
               = BIN_file_name options (FileEntry.BIN example_entry)) by reflexivity.
  split; [reflexivity|]. split; [exact H2|]. split; [exact H3|].
  destruct (remove_existing_loses_archive E options archive example_entry example_world
              eq_refl H2 H3) as [Hd He].
  rewrite Hd. cbn [fst snd]. split; [reflexivity|]. split; [reflexivity|].
  rewrite He. reflexivity.
Defined.

Lemma manifest_statistics_witness :
  Forall (fun l => well_formed default_options l = true) example_lines /\
  exists st w',
    parse_packagemanifest (plain_environment []) default_options
      (render_manifest example_lines) (world_with ∅) = (Ret st, w') /\
    numFilesInPackageManifest (g_stats w') = 2 /\
    numBytesFromFileList (g_stats w') = 30 /\
    maxLineLength st = 96 /\
    marked (hasBIN st) (map Z.of_nat (seq 0 (Z.to_nat MAX_BIN_COUNT))) = [0; 31].
Proof.
  split; [exact example_lines_well_formed|].
  destruct (manifest_statistics (plain_environment []) default_options example_lines
              (world_with ∅) example_lines_well_formed)
    as (st & w' & Hrun & H1 & H2 & H3 & H4).
  exists st, w'. split; [exact Hrun|]. rewrite H1, H2, H3, H4.
  repeat split; vm_compute; reflexivity.
Defined.



Lemma percentage_total_clamped_witness :
  let pd := mkProgressData 5000 0 500 0 in
  f_to_u32 (f_of_Z FLT 1) = Ret 1 /\ f_to_u32 (f_of_Z FLT 0) = Ret 0 /\
  sample_speed pd 1 0 5500 = Ret (Some (pd, 500)) /\
  build_progress_bar_string (fdiv FLT (f_of_Z FLT 1) (f_of_Z FLT (Z.max 0 1))) (u32 80 / 4)
  = Ret (lit "[==================>]") /\
  progress_callback pd 0 1 5500 =
    Ret (pd, Some (mkProgressLine (fdiv FLT (f_of_Z FLT 1) (f_of_Z FLT 1)) 100 1 1 500
                                  (lit "00:00:00"))) /\
  print_progress pd 1 0 500 0 80 =
    Ret ([CR; CR] ++ lit "100% [==================>] (1/1 B) | Speed: 500 B/s | ETA: 00:00:00",
         68).
Proof.
  intros pd.
  assert (H1 : f_to_u32 (f_of_Z FLT 1) = Ret 1) by reflexivity.
  assert (H2 : f_to_u32 (f_of_Z FLT 0) = Ret 0) by reflexivity.
  assert (H3 : sample_speed pd 1 0 5500 = Ret (Some (pd, 500))) by reflexivity.
  assert (H4 : build_progress_bar_string
                 (fdiv FLT (f_of_Z FLT 1) (f_of_Z FLT (Z.max 0 1))) (u32 80 / 4)
               = Ret (lit "[==================>]")) by reflexivity.
  split; [exact H1|]. split; [exact H2|]. split; [exact H3|]. split; [exact H4|].
  destruct (proj2 percentage_total_clamped pd pd 0 1 5500 1 0 500 0 80 (lit "[==================>]")
              H1 H2 H3)
    as (percent & bytes & shown & eta & Hpercent & _ & Hbytes & Hshown & Heta & Hcall & Htext);
    [lia|vm_compute; discriminate|vm_compute; split; reflexivity|vm_compute; discriminate|
     exact H4|].
  vm_compute in Hpercent, Hbytes, Hshown, Heta.
  injection Hpercent as <-. injection Hbytes as <-. injection Hshown as <-.
  injection Heta as <-.
  split; [exact Hcall|exact Htext].
Defined.

Lemma many_files_undefined_witness :
  let E := plain_environment (lit "abcde") in
  let w := world_with ∅ in
  let ls := replicate 21 example_archive_line in
  let out := get_files_using_packagemanifest E individual_options (render_manifest ls) w in
  Forall (fun l => well_formed individual_options l = true) ls /\
  handle_idle (g_CURL w) /\
  Z.min (u32 (console_columns E 1) / 4) 37 < Z.of_nat (length ls) /\
  fst out = Stop UndefinedBehaviour /\ files (snd out) = ∅.
Proof.
  intros E w ls out.
  assert (Hwf : Forall (fun l => well_formed individual_options l = true) ls)
    by (apply Forall_replicate; reflexivity).
  assert (Hidle : handle_idle (g_CURL w)) by (split; reflexivity).
  assert (Hmany : Z.min (u32 (console_columns E 1) / 4) 37 < Z.of_nat (length ls))
    by (vm_compute; reflexivity).
  split; [exact Hwf|]. split; [exact Hidle|]. split; [exact Hmany|].
  refine (many_files_undefined E individual_options ls w Hwf _ eq_refl eq_refl Hidle _ Hmany).
  - vm_compute. reflexivity.
  - intros Huse. discriminate Huse.
Defined.
